(** * Flights visualisation: CSV ingestion, airport resolution and map rendering

    A shallow embedding of the TypeScript sources

      - [utils/flightDataParser.ts]        ([parseTimestamp], [parseCsvLine],
                                            [parseFlightsCsv])
      - [utils/airportsParser.ts]          ([parseNumber], [parseBoolean],
                                            [parseAirportsCsv], [getAirportByCode],
                                            [loadAirportCodeReplacements],
                                            [loadAirports],
                                            [loadAirportsWithReplacements])
      - [utils/flightVisualizationBuilder.ts] ([buildFlightVisualizations])
      - [components/MapView.vue]           ([getLineWeight], [getMarkerSize],
                                            [getFrequencyColor], [hexToRgb],
                                            [interpolateColor], [visualizeFlights],
                                            [startAnimation], [stopAnimation],
                                            [addAirportMarker],
                                            [animateFlightRoute])
      - [App.vue]                          ([onMounted], [handleFileUpload],
                                            [handleFilterChanged])

    Conventions.

    - A JavaScript string is a sequence of UTF-16 code units; the model uses
      Rocq's [string], i.e. sequences of code units in the range 0..255
      (Latin-1).  [trim] and [toLowerCase] are the ECMAScript functions
      restricted to that range.
    - [undefined] / [null] are [None].
    - A [Map] that is only read with [get]/[has] is a [gmap]; a [Map] that is
      iterated ([forEach]) is an insertion-ordered association list; a [Set]
      is a [gset].
    - Built-ins of the platform whose behaviour the repository does not fix
      ([new Date(string)], [parseFloat], [Math.pow], [L.geodesic]) are section
      variables.
    - A [Date] that is not [Invalid Date] is its time value, an integer
      number of milliseconds.
    - A [fetch] is what it delivers: [Some text] for an ok response, [None]
      for a response that is not ok or a rejected promise. *)

From Stdlib Require Import ZArith QArith Qround Qminmax Qpower Ascii DecimalString Floats Uint63.
From Stdlib Require Import Sorted Permutation Lqa.
From stdpp Require Import gmap strings list fin_maps.

Local Open Scope nat_scope.
Set Warnings "-clear-no-such-hyp,-inexact-float".

(* ===================================================================== *)
(** * JavaScript string primitives                                        *)
(* ===================================================================== *)

Module Js.

(** The double-quote character (code unit 34). *)
Definition dquote : ascii := "034"%char.

(** ECMAScript [WhiteSpace] and [LineTerminator] code units below 256:
    TAB, LF, VT, FF, CR, SP and NBSP. *)
Definition isWhiteSpace (c : ascii) : bool :=
  match c with
  | "009" | "010" | "011" | "012" | "013" | " " | "160" => true
  | _ => false
  end%char.

Fixpoint trimStart (s : string) : string :=
  match s with
  | EmptyString => EmptyString
  | String c r => if isWhiteSpace c then trimStart r else s
  end.

Fixpoint trimEnd (s : string) : string :=
  match s with
  | EmptyString => EmptyString
  | String c r =>
      match trimEnd r with
      | EmptyString => if isWhiteSpace c then EmptyString else String c EmptyString
      | r' => String c r'
      end
  end.

(** [String.prototype.trim] *)
Definition trim (s : string) : string := trimEnd (trimStart s).

(** [String.prototype.toLowerCase] on code units below 256: A-Z and the
    upper-case Latin-1 letters U+00C0..U+00DE (except the multiplication
    sign U+00D7) move up by 32. *)
Definition lowerChar (c : ascii) : ascii :=
  let n := nat_of_ascii c in
  if ((65 <=? n) && (n <=? 90)) || ((192 <=? n) && (n <=? 222) && negb (n =? 215))
  then ascii_of_nat (n + 32) else c.

Fixpoint toLowerCase (s : string) : string :=
  match s with
  | EmptyString => EmptyString
  | String c r => String (lowerChar c) (toLowerCase r)
  end.

(** [s.split(sep)] for a one-character separator: never empty, the empty
    string gives one empty piece. *)
Fixpoint split (sep : ascii) (s : string) : list string :=
  match s with
  | EmptyString => [EmptyString]
  | String c r =>
      if Ascii.eqb c sep then EmptyString :: split sep r
      else match split sep r with
           | h :: t => String c h :: t
           | [] => [String c EmptyString]
           end
  end.

(** [s.includes(c)] for a one-character needle. *)
Fixpoint includes (c : ascii) (s : string) : bool :=
  match s with
  | EmptyString => false
  | String d r => Ascii.eqb d c || includes c r
  end.

(** [s.substring(0, n)] *)
Fixpoint substring0 (n : nat) (s : string) : string :=
  match n, s with
  | S n', String c r => String c (substring0 n' r)
  | _, _ => EmptyString
  end.

(** [arr.join(sep)] on an array of strings. *)
Definition join (sep : string) (l : list string) : string := String.concat sep l.

(** Template-literal rendering of a non-negative integer. *)
Definition ofNat (n : nat) : string := NilEmpty.string_of_uint (Nat.to_uint n).

(** [!v] for [v : string | undefined]: [undefined] and [''] are falsy. *)
Definition falsy (v : option string) : bool :=
  match v with
  | None => true
  | Some s => String.eqb s EmptyString
  end.

(** [arr.includes(x)] on an array of strings. *)
Definition arrayIncludes (x : string) (l : list string) : bool :=
  existsb (String.eqb x) l.

(** The default comparison of [Array.prototype.sort] on two strings:
    code-unit lexicographic order. *)
Definition sortPair (a b : string) : string * string :=
  if String.ltb b a then (b, a) else (a, b).

End Js.

(* ===================================================================== *)
(** * types/Flight.ts                                                     *)
(* ===================================================================== *)

(** Time value of a valid [Date], in milliseconds. *)
Definition instant := Z.

Record Flight := mkFlight {
  airline : string;
  flightCode : string;
  departureAirport : string;
  arrivalAirport : string;
  departureTimestampLocal : instant;
  arrivalTimestampLocal : instant
}.

Record ParseResult := mkParseResult {
  flights : list Flight;
  errors : list string;
  totalRows : nat;
  successfulRows : nat;
  failedRows : nat
}.

(* ===================================================================== *)
(** * utils/flightDataParser.ts                                           *)
(* ===================================================================== *)

Module FlightDataParser.
Import Js.

Definition REQUIRED_COLUMNS : list string :=
  [ "airline"; "flight_code"; "departure_airport"; "arrival_airport";
    "departure_timestamp_local"; "arrival_timestamp_local" ].

(** [parseCsvLine]: the loop over the characters of the line carries
    [result], [current] and [inQuotes]; the function ends with the final
    [result.push(current.trim())]. *)
Fixpoint parseCsvLine_loop (line : string) (result : list string)
         (current : string) (inQuotes : bool) : list string :=
  match line with
  | EmptyString => result ++ [trim current]
  | String char rest =>
      if Ascii.eqb char dquote then
        parseCsvLine_loop rest result current (negb inQuotes)
      else if Ascii.eqb char ","%char && negb inQuotes then
        parseCsvLine_loop rest (result ++ [trim current]) EmptyString inQuotes
      else
        parseCsvLine_loop rest result (current +:+ String char EmptyString) inQuotes
  end.

Definition parseCsvLine (line : string) : list string :=
  parseCsvLine_loop line [] EmptyString false.

(** [csvContent.split('\n').filter(line => line.trim() !== '')] *)
Definition nonBlank (line : string) : bool :=
  negb (String.eqb (trim line) EmptyString).

Definition csvLines (csvContent : string) : list string :=
  List.filter nonBlank (split "010"%char csvContent).

(** [parseCsvLine(headerLine).map(h => h.toLowerCase().trim())] *)
Definition parseHeaders (headerLine : string) : list string :=
  map (fun h => trim (toLowerCase h)) (parseCsvLine headerLine).

(** [headers.forEach((header, index) => columnIndex[header] = index)]:
    a later column of the same name overwrites the earlier index.  The
    object is only ever read at the fixed column names of this file, none
    of which is an inherited property of a plain object. *)
Fixpoint columnIndex_from (index : nat) (headers : list string)
         (columnIndex : gmap string nat) : gmap string nat :=
  match headers with
  | [] => columnIndex
  | header :: rest => columnIndex_from (S index) rest (<[header := index]> columnIndex)
  end.

Definition mkColumnIndex (headers : list string) : gmap string nat :=
  columnIndex_from 0 headers ∅.

(** [values[columnIndex[name]]?.trim()] *)
Definition field (columnIndex : gmap string nat) (values : list string)
           (name : string) : option string :=
  match columnIndex !! name with
  | None => None
  | Some i => match values !! i with
              | None => None
              | Some v => Some (trim v)
              end
  end.

Section WithDate.
(** [new Date(s)]: [None] for [Invalid Date] (a [NaN] time value). *)
Variable Date : string -> option instant.

Definition parseTimestamp (timestamp : string) : option instant :=
  if String.eqb timestamp EmptyString || String.eqb (trim timestamp) EmptyString
  then None
  else
    let trimmed := trim timestamp in
    let dotted :=
      if includes "."%char trimmed && (length (split "."%char trimmed) =? 3) then
        match split " "%char trimmed with
        | [datePart; timePart] =>
            match split "."%char datePart with
            | [day; month; year] =>
                let isoFormat :=
                  year +:+ "-" +:+ month +:+ "-" +:+ day +:+ " " +:+ timePart in
                Date isoFormat
            | _ => None
            end
        | _ => None
        end
      else None in
    match dotted with
    | Some date => Some date
    | None => Date trimmed
    end.

(** The body of the row loop.  Nothing in the [try] block can throw
    (optional chaining guards every access), so the [catch] branch is
    unreachable and a row ends in exactly one of the three ways below. *)
Inductive rowOutcome :=
| RowOk (flight : Flight)
| RowMissing (missingFields : list string)
| RowBadTimestamp (invalidTimestamps : list string).

Definition missingIf (v : option string) (name : string) : list string :=
  if falsy v then [name] else [].

Definition parseRow (columnIndex : gmap string nat) (line : string) : rowOutcome :=
  let values := parseCsvLine line in
  let airline := field columnIndex values "airline" in
  let flightCode := field columnIndex values "flight_code" in
  let departureAirport := field columnIndex values "departure_airport" in
  let arrivalAirport := field columnIndex values "arrival_airport" in
  let departureTimestampLocalStr := field columnIndex values "departure_timestamp_local" in
  let arrivalTimestampLocalStr := field columnIndex values "arrival_timestamp_local" in
  let missingFields :=
    missingIf airline "airline" ++ missingIf flightCode "flight_code" ++
    missingIf departureAirport "departure_airport" ++
    missingIf arrivalAirport "arrival_airport" ++
    missingIf departureTimestampLocalStr "departure_timestamp_local" ++
    missingIf arrivalTimestampLocalStr "arrival_timestamp_local" in
  match missingFields with
  | _ :: _ => RowMissing missingFields
  | [] =>
      let get v := default EmptyString v in
      let depStr := get departureTimestampLocalStr in
      let arrStr := get arrivalTimestampLocalStr in
      match parseTimestamp depStr, parseTimestamp arrStr with
      | Some dep, Some arr =>
          RowOk (mkFlight (get airline) (get flightCode) (get departureAirport)
                          (get arrivalAirport) dep arr)
      | dep, arr =>
          RowBadTimestamp
            (match dep with
             | Some _ => []
             | None =>
                 ["departure_timestamp_local=" +:+ String dquote (substring0 30 depStr)
                    +:+ String dquote EmptyString]
             end ++
             match arr with
             | Some _ => []
             | None =>
                 ["arrival_timestamp_local=" +:+ String dquote (substring0 30 arrStr)
                    +:+ String dquote EmptyString]
             end)
      end
  end.

(** State of the row loop: [flights], [errors], [successfulRows],
    [failedRows]. *)
Record loopState := mkLoop {
  l_flights : list Flight;
  l_errors : list string;
  l_successfulRows : nat;
  l_failedRows : nat
}.

(** One iteration, for the line at index [i] of [lines] (so the message
    says [Row i+1]). *)
Definition rowStep (columnIndex : gmap string nat) (i : nat) (line : string)
           (st : loopState) : loopState :=
  match parseRow columnIndex line with
  | RowOk flight =>
      mkLoop (l_flights st ++ [flight]) (l_errors st)
             (S (l_successfulRows st)) (l_failedRows st)
  | RowMissing missingFields =>
      mkLoop (l_flights st)
             (l_errors st ++
                ["Row " +:+ ofNat (i + 1) +:+ ": Missing values for " +:+
                 join ", " missingFields +:+ " (empty or not provided)"])
             (l_successfulRows st) (S (l_failedRows st))
  | RowBadTimestamp invalidTimestamps =>
      mkLoop (l_flights st)
             (l_errors st ++
                ["Row " +:+ ofNat (i + 1) +:+ ": Invalid timestamp format: " +:+
                 join ", " invalidTimestamps])
             (l_successfulRows st) (S (l_failedRows st))
  end.

(** [for (let i = 1; i < lines.length; i++)] over the lines after the
    header, starting at index [i]. *)
Fixpoint rowLoop (columnIndex : gmap string nat) (i : nat) (rows : list string)
         (st : loopState) : loopState :=
  match rows with
  | [] => st
  | line :: rest => rowLoop columnIndex (S i) rest (rowStep columnIndex i line st)
  end.

Definition missingColumnsOf (headers : list string) : list string :=
  List.filter (fun col => negb (arrayIncludes col headers)) REQUIRED_COLUMNS.

Definition parseFlightsCsv (csvContent : string) : ParseResult :=
  match csvLines csvContent with
  | [] => mkParseResult [] ["CSV file is empty"] 0 0 0
  | headerLine :: rows =>
      let headers := parseHeaders headerLine in
      let missingColumns := missingColumnsOf headers in
      match missingColumns with
      | _ :: _ =>
          mkParseResult []
            ["Missing required columns: " +:+ join ", " missingColumns]
            (length rows) 0 (length rows)
      | [] =>
          let columnIndex := mkColumnIndex headers in
          let st := rowLoop columnIndex 1 rows (mkLoop [] [] 0 0) in
          mkParseResult (l_flights st) (l_errors st) (length rows)
                        (l_successfulRows st) (l_failedRows st)
      end
  end.

End WithDate.

End FlightDataParser.

(* ===================================================================== *)
(** * types/Airport.ts, types/FlightVisualization.ts                      *)
(* ===================================================================== *)

(** [number] is the type of the values [parseFloat] returns when they are
    not [NaN].  The fields [id] and [type] of the source are [airportId] and
    [airportType] here. *)
Record Airport {number : Type} := mkAirport {
  airportId : string;
  ident : string;
  airportType : string;
  name : string;
  coordinates : number * number;
  elevationFt : option number;
  continent : string;
  isoCountry : string;
  isoRegion : string;
  municipality : string;
  scheduledService : bool;
  icaoCode : string;
  iataCode : string;
  gpsCode : string;
  localCode : string
}.
Arguments Airport : clear implicits.

Definition getCoordinates {number} (a : Airport number) : number * number :=
  coordinates a.

(** The field [airline] of the source is [vizAirline] here, and [errors] of
    [VisualizationResult] is [vizErrors]. *)
Record FlightVisualizationData {number : Type} := mkViz {
  fromAirport : Airport number;
  fromCoordinates : number * number;
  toAirport : Airport number;
  toCoordinates : number * number;
  departureTimestamp : instant;
  arrivalTimestamp : instant;
  flightNumber : string;
  vizAirline : string;
  flight : Flight
}.
Arguments FlightVisualizationData : clear implicits.

Record VisualizationResult {number : Type} := mkVisualizationResult {
  visualizations : list (FlightVisualizationData number);
  totalFlightsParsed : nat;
  distinctAirports : gset string;
  vizErrors : list string;
  unresolvedAirports : gset string
}.
Arguments VisualizationResult : clear implicits.

Definition createFlightVisualization {number} (flight : Flight)
           (fromAirport toAirport : Airport number) : FlightVisualizationData number :=
  mkViz number fromAirport (getCoordinates fromAirport)
        toAirport (getCoordinates toAirport)
        (departureTimestampLocal flight) (arrivalTimestampLocal flight)
        (flightCode flight) (airline flight) flight.

(* ===================================================================== *)
(** * utils/airportsParser.ts                                             *)
(* ===================================================================== *)

Module AirportsParser.
Import Js.

(** The file has its own copy of [parseCsvLine], character for character
    the one of the flight parser; the header and line handling is shared
    the same way. *)
Abbreviation parseCsvLine := FlightDataParser.parseCsvLine.
Abbreviation csvLines := FlightDataParser.csvLines.
Abbreviation parseHeaders := FlightDataParser.parseHeaders.
Abbreviation mkColumnIndex := FlightDataParser.mkColumnIndex.

Definition parseBoolean (value : string) : bool :=
  String.eqb (toLowerCase value) "yes" || String.eqb value "1" ||
  String.eqb (toLowerCase value) "true".

(** [values[columnIndex[name]]?.trim() || ''] *)
Definition fieldOrEmpty (columnIndex : gmap string nat) (values : list string)
           (name : string) : string :=
  match FlightDataParser.field columnIndex values name with
  | Some v => v
  | None => EmptyString
  end.

Section WithParseFloat.
Context {number : Type}.
(** The global [parseFloat]: [None] stands for [NaN]. *)
Variable parseFloat : string -> option number.

Definition parseNumber (value : string) : option number :=
  if String.eqb value EmptyString || String.eqb (trim value) EmptyString
  then None
  else parseFloat value.

(** The body of the row loop: [None] is a [continue] that leaves the map
    untouched, [Some airport] is followed by
    [airportsMap.set(iataCode, airport)].  Nothing in the [try] block
    throws, so the [catch] branch is unreachable. *)
Definition parseAirportRow (columnIndex : gmap string nat) (line : string)
  : option (Airport number) :=
  let values := parseCsvLine line in
  let get := fieldOrEmpty columnIndex values in
  let iataCode := get "iata_code" in
  if String.eqb iataCode EmptyString then None
  else
    let id := get "id" in
    let ident := get "ident" in
    let type := get "type" in
    let name := get "name" in
    let latitudeStr := get "latitude_deg" in
    let longitudeStr := get "longitude_deg" in
    let elevationStr := get "elevation_ft" in
    let continent := get "continent" in
    let isoCountry := get "iso_country" in
    let isoRegion := get "iso_region" in
    let municipality := get "municipality" in
    let scheduledServiceStr := get "scheduled_service" in
    let icaoCode := get "icao_code" in
    let gpsCode := get "gps_code" in
    let localCode := get "local_code" in
    match parseNumber latitudeStr, parseNumber longitudeStr with
    | Some latitude, Some longitude =>
        Some (mkAirport number id ident type name (latitude, longitude)
                        (parseNumber elevationStr) continent isoCountry isoRegion
                        municipality (parseBoolean scheduledServiceStr)
                        icaoCode iataCode gpsCode localCode)
    | _, _ => None
    end.

Definition airportStep (columnIndex : gmap string nat)
           (airportsMap : gmap string (Airport number)) (line : string)
  : gmap string (Airport number) :=
  match parseAirportRow columnIndex line with
  | Some airport => <[iataCode airport := airport]> airportsMap
  | None => airportsMap
  end.

Definition parseAirportsCsv (csvContent : string) : gmap string (Airport number) :=
  match csvLines csvContent with
  | [] => ∅
  | headerLine :: rows =>
      let columnIndex := mkColumnIndex (parseHeaders headerLine) in
      fold_left (airportStep columnIndex) rows ∅
  end.

(** [getAirportByCode]: direct lookup, then the replacement code. *)
Definition getAirportByCode (code : string)
           (airportsMap : gmap string (Airport number))
           (replacements : gmap string string) : option (Airport number) :=
  let airport := airportsMap !! code in
  match airport, replacements !! code with
  | None, Some newCode => airportsMap !! newCode
  | _, _ => airport
  end.

(** [loadAirports] as a function of what the fetch gives: [None] when the
    response is not ok or the fetch fails (the [catch] returns an empty
    map), [Some csvText] otherwise. *)
Definition loadAirports (response : option string) : gmap string (Airport number) :=
  match response with
  | None => ∅
  | Some csvText => parseAirportsCsv csvText
  end.

End WithParseFloat.

(** The body of the loop of [loadAirportCodeReplacements] for one data
    line. *)
Definition replacementStep (replacements : gmap string string) (line : string)
  : gmap string string :=
  let values := parseCsvLine line in
  if 2 <=? length values then
    match values !! 0, values !! 1 with
    | Some v0, Some v1 =>
        let oldCode := trim v0 in
        let newCode := trim v1 in
        if negb (String.eqb oldCode EmptyString) && negb (String.eqb newCode EmptyString)
        then <[oldCode := newCode]> replacements
        else replacements
    | _, _ => replacements
    end
  else replacements.

(** [loadAirportCodeReplacements] as a function of what the fetch gives:
    [None] when the response is not ok or the fetch fails (the [catch]
    returns the map built so far, which is still empty), [Some csvText]
    otherwise.  The header row is skipped. *)
Definition loadAirportCodeReplacements (response : option string) : gmap string string :=
  match response with
  | None => ∅
  | Some csvText => fold_left replacementStep (tail (csvLines csvText)) ∅
  end.

(** [loadAirportsWithReplacements]: both loaders, each on its own file. *)
Definition loadAirportsWithReplacements {number} (parseFloat : string -> option number)
           (airportsResponse replacementsResponse : option string)
  : gmap string (Airport number) * gmap string string :=
  (loadAirports parseFloat airportsResponse,
   loadAirportCodeReplacements replacementsResponse).

End AirportsParser.

(* ===================================================================== *)
(** * utils/flightVisualizationBuilder.ts                                 *)
(* ===================================================================== *)

Module Builder.
Import Js AirportsParser.

Section WithNumber.
Context {number : Type}.

(** The four accumulators of [buildFlightVisualizations]. *)
Record buildState := mkBuild {
  b_visualizations : list (FlightVisualizationData number);
  b_errors : list string;
  b_unresolvedAirports : gset string;
  b_distinctAirports : gset string
}.

Definition departureError (flight : Flight) : string :=
  "Flight " +:+ airline flight +:+ " " +:+ flightCode flight +:+
  ": Departure airport " +:+ String dquote (departureAirport flight) +:+
  String dquote " not found in airports database".

Definition arrivalError (flight : Flight) : string :=
  "Flight " +:+ airline flight +:+ " " +:+ flightCode flight +:+
  ": Arrival airport " +:+ String dquote (arrivalAirport flight) +:+
  String dquote " not found in airports database".

(** One iteration of the loop over [flights]. *)
Definition buildStep (airportsMap : gmap string (Airport number))
           (replacements : gmap string string)
           (st : buildState) (flight : Flight) : buildState :=
  let distinct :=
    {[arrivalAirport flight]} ∪ ({[departureAirport flight]} ∪ b_distinctAirports st) in
  match getAirportByCode (departureAirport flight) airportsMap replacements with
  | None =>
      mkBuild (b_visualizations st)
              (b_errors st ++ [departureError flight])
              ({[departureAirport flight]} ∪ b_unresolvedAirports st)
              distinct
  | Some fromAirport =>
      match getAirportByCode (arrivalAirport flight) airportsMap replacements with
      | None =>
          mkBuild (b_visualizations st)
                  (b_errors st ++ [arrivalError flight])
                  ({[arrivalAirport flight]} ∪ b_unresolvedAirports st)
                  distinct
      | Some toAirport =>
          mkBuild (b_visualizations st ++
                     [createFlightVisualization flight fromAirport toAirport])
                  (b_errors st) (b_unresolvedAirports st) distinct
      end
  end.

Definition buildFlightVisualizations (flights : list Flight)
           (airportsMap : gmap string (Airport number))
           (replacements : gmap string string) : VisualizationResult number :=
  let st := fold_left (buildStep airportsMap replacements) flights
                      (mkBuild [] [] ∅ ∅) in
  mkVisualizationResult number (b_visualizations st) (length flights)
                        (b_distinctAirports st) (b_errors st)
                        (b_unresolvedAirports st).

End WithNumber.

End Builder.

(* ===================================================================== *)
(** * components/MapView.vue                                              *)
(* ===================================================================== *)

Module MapView.
Import Js.

(** ** Colours

    JavaScript numbers are modelled as exact rationals.  The arguments of
    [getFrequencyColor] are flight counts; IEEE division of two integers
    is correctly rounded and rounding is monotone, so the comparisons
    below agree with the double comparisons of the source for every count
    that can occur (below 2^50). *)

Definition getFrequencyColor (frequency maxFrequency : Q) : string :=
  if Qeq_bool maxFrequency 0 then "#667eea"
  else
    let ratio := (frequency / maxFrequency)%Q in
    if Qle_bool ratio (15 # 100) then "#3b82f6"
    else if Qle_bool ratio (3 # 10) then "#06b6d4"
    else if Qle_bool ratio (1 # 2) then "#10b981"
    else if Qle_bool ratio (3 # 4) then "#f59e0b"
    else "#ef4444".

(** The same function on binary64 values, to compare the two on counts. *)
Definition getFrequencyColorF (frequency maxFrequency : float) : string :=
  if PrimFloat.eqb maxFrequency 0%float then "#667eea"
  else
    let ratio := PrimFloat.div frequency maxFrequency in
    if PrimFloat.leb ratio 0.15%float then "#3b82f6"
    else if PrimFloat.leb ratio 0.3%float then "#06b6d4"
    else if PrimFloat.leb ratio 0.5%float then "#10b981"
    else if PrimFloat.leb ratio 0.75%float then "#f59e0b"
    else "#ef4444".

Definition floatOfNat (n : nat) : float :=
  PrimFloat.of_uint63 (Uint63.of_Z (Z.of_nat n)).

(** A count as a JavaScript number. *)
Definition num (n : nat) : Q := inject_Z (Z.of_nat n).

Definition hexDigit (c : ascii) : option Z :=
  let n := nat_of_ascii c in
  if (48 <=? n) && (n <=? 57) then Some (Z.of_nat (n - 48))
  else if (97 <=? n) && (n <=? 102) then Some (Z.of_nat (n - 87))
  else if (65 <=? n) && (n <=? 70) then Some (Z.of_nat (n - 55))
  else None.

(** [parseInt(xy, 16)] on two hexadecimal digits. *)
Definition hexByte (x y : ascii) : option Z :=
  match hexDigit x, hexDigit y with
  | Some a, Some b => Some (16 * a + b)%Z
  | _, _ => None
  end.

(** [hexToRgb]: the regular expression accepts an optional [#] followed
    by exactly six hexadecimal digits. *)
Definition hexToRgb (hex : string) : Z * Z * Z :=
  let body := match hex with
              | String "#"%char r => r
              | _ => hex
              end in
  let fallback := (102, 126, 234)%Z in
  match body with
  | String r1 (String r2 (String g1 (String g2 (String b1 (String b2 EmptyString))))) =>
      match hexByte r1 r2, hexByte g1 g2, hexByte b1 b2 with
      | Some r, Some g, Some b => (r, g, b)
      | _, _, _ => fallback
      end
  | _ => fallback
  end.

(** [Math.round] *)
Definition round (x : Q) : Z := Qfloor (x + (1 # 2)).

Definition ofZ (z : Z) : string :=
  if (z <? 0)%Z then "-" +:+ ofNat (Z.to_nat (- z)) else ofNat (Z.to_nat z).

Definition interpolateColor (color1 color2 : string) (ratio : Q) : string :=
  let '(r1, g1, b1) := hexToRgb color1 in
  let '(r2, g2, b2) := hexToRgb color2 in
  let mix (a b : Z) := round (inject_Z a + (inject_Z b - inject_Z a) * ratio) in
  "rgb(" +:+ ofZ (mix r1 r2) +:+ ", " +:+ ofZ (mix g1 g2) +:+ ", " +:+
  ofZ (mix b1 b2) +:+ ")".

(** ** Zoom-dependent sizes

    Leaflet zoom levels are integers here (its default [zoomSnap]).  The
    language leaves the precision of [Math.pow] to the implementation, so
    the binary64 number that [Math.pow(1.4, n)] returns is a parameter,
    like the other built-ins of the platform.  Doubling it and clamping
    are exact on binary64 numbers. *)

Section WithPow.
Variable pow14 : Z -> Q.

Definition getLineWeight (zoom : Z) : Q :=
  let baseZoom := 4%Z in
  let baseWeight := 2%Q in
  let weight := (baseWeight * pow14 (zoom - baseZoom))%Q in
  Qmax (1 # 2) (Qmin 8 weight).

End WithPow.

Definition getMarkerSize (zoom : Z) : Q :=
  let baseSize := 16%Q in
  if (4 <=? zoom)%Z then baseSize
  else
    let minSize := 10%Q in
    let zoomRange := (4 - 2)%Q in
    let sizeRange := (baseSize - minSize)%Q in
    let zoomFactor := ((inject_Z zoom - 2) / zoomRange)%Q in
    (minSize + sizeRange * zoomFactor)%Q.

(** [map.set(k, v)] on an insertion-ordered [Map]: an existing key keeps
    its position. *)
Fixpoint mapSet {A} (k : string) (v : A) (m : list (string * A)) : list (string * A) :=
  match m with
  | [] => [(k, v)]
  | (k', v') :: rest =>
      if String.eqb k' k then (k, v) :: rest else (k', v') :: mapSet k v rest
  end.

Section WithGeodesic.
Context {number LatLng : Type}.
(** [L.geodesic([from, to], {steps: 50, wrap: false}).getLatLngs()[0]] *)
Variable geodesic : number * number -> number * number -> list LatLng.

Abbreviation Viz := (FlightVisualizationData number).

(** ** The scene: what is currently drawn

    The registries [markers] / [markerData] and [flightLines], the
    moving marker and the abort flag.  Line weight and icon size are
    recomputed for every drawn object on each zoom change and are not
    part of the scene. *)

(** What a click on a route opens: the colours of the two endpoints of
    the drawn direction and the flights listed under each direction.
    The HTML of the source shows the outbound block when
    [pp_outboundFlights] is non-empty and the return block when
    [pp_returnFlights] is non-empty, one line per flight. *)
Record RoutePopup := mkPopup {
  pp_fromColor : string;
  pp_toColor : string;
  pp_outboundFlights : list Viz;
  pp_returnFlights : list Viz
}.

Record Segment := mkSegment {
  seg_points : list LatLng;
  seg_color : string;
  seg_popup : option RoutePopup
}.

(** [mk_popup] is the flight count shown in the bound popup, if one is
    bound. *)
Record Marker := mkMarker {
  mk_airport : Airport number;
  mk_color : string;
  mk_popup : option nat
}.

Record Scene := mkScene {
  markers : list Marker;
  flightLines : list Segment;
  planeMarker : option LatLng;
  animationAborted : bool
}.

(** ** Frequencies *)

Definition bump (code : string) (airportFrequency : gmap string nat) : gmap string nat :=
  <[code := default 0 (airportFrequency !! code) + 1]> airportFrequency.

Definition frequencyStep (airportFrequency : gmap string nat) (viz : Viz) :=
  bump (iataCode (toAirport viz)) (bump (iataCode (fromAirport viz)) airportFrequency).

Definition countFrequencies (visualizations : list Viz) : gmap string nat :=
  fold_left frequencyStep visualizations ∅.

(** [Math.max(...Array.from(airportFrequency.values()))].  On an empty
    table the source gets [-Infinity]; no colour is computed then. *)
Definition maxOf (airportFrequency : gmap string nat) : nat :=
  max_list (snd <$> map_to_list airportFrequency).

Definition frequencyOf (airportFrequency : gmap string nat) (code : string) : nat :=
  default 0 (airportFrequency !! code).

Definition colorOf (airportFrequency : gmap string nat) (maxFrequency : nat)
           (code : string) : string :=
  getFrequencyColor (num (frequencyOf airportFrequency code)) (num maxFrequency).

(** ** Route segments *)

Definition numSegments : nat := 10.

(** One iteration of the segment loop: [None] when the slice has fewer
    than two points ([continue]). *)
Definition segmentAt (pathPoints : list LatLng) (fromColor toColor : string)
           (i : nat) : option Segment :=
  let segmentSize := length pathPoints / numSegments in
  let startIdx := i * segmentSize in
  let endIdx := if i =? numSegments - 1 then length pathPoints
                else (i + 1) * segmentSize in
  let segmentPoints := take (endIdx + 1 - startIdx) (drop startIdx pathPoints) in
  if length segmentPoints <? 2 then None
  else
    let ratio := (num i / num (numSegments - 1))%Q in
    Some (mkSegment segmentPoints (interpolateColor fromColor toColor ratio) None).

Definition routeSegments (fromCoords toCoords : number * number)
           (fromColor toColor : string) : list Segment :=
  omap (segmentAt (geodesic fromCoords toCoords) fromColor toColor)
       (seq 0 numSegments).

(** ** Route grouping *)

(** [[from, to].sort().join('-')] *)
Definition routeKeyOf (a b : string) : string :=
  let '(x, y) := sortPair a b in x +:+ "-" +:+ y.

Definition routeKey (viz : Viz) : string :=
  routeKeyOf (iataCode (fromAirport viz)) (iataCode (toAirport viz)).

Definition groupStep (routeFlights : gmap string (list Viz)) (viz : Viz) :=
  <[routeKey viz := default [] (routeFlights !! routeKey viz) ++ [viz]]> routeFlights.

Definition groupRoutes (visualizations : list Viz) : gmap string (list Viz) :=
  fold_left groupStep visualizations ∅.

Definition sameDirection (viz f : Viz) : bool :=
  String.eqb (iataCode (fromAirport f)) (iataCode (fromAirport viz)) &&
  String.eqb (iataCode (toAirport f)) (iataCode (toAirport viz)).

Definition oppositeDirection (viz f : Viz) : bool :=
  String.eqb (iataCode (fromAirport f)) (iataCode (toAirport viz)) &&
  String.eqb (iataCode (toAirport f)) (iataCode (fromAirport viz)).

(** One drawn route: the visualization whose direction is drawn, the
    popup content built for it and the segments added to the map. *)
Record RouteGroup := mkRouteGroup {
  rg_viz : Viz;
  rg_popupContent : RoutePopup;
  rg_segments : list Segment
}.

(** The body of the drawing loop for a route that is not drawn yet.  The
    popup is bound to the segment at index 4 of the drawn segments, and
    every segment of the route opens it on click; when fewer than five
    segments are drawn nothing is bound. *)
Definition drawRoute (routeFlights : gmap string (list Viz))
           (airportFrequency : gmap string nat) (maxFrequency : nat)
           (viz : Viz) : RouteGroup :=
  let flightsOnRoute := default [] (routeFlights !! routeKey viz) in
  let fromColor := colorOf airportFrequency maxFrequency (iataCode (fromAirport viz)) in
  let toColor := colorOf airportFrequency maxFrequency (iataCode (toAirport viz)) in
  let outboundFlights := List.filter (sameDirection viz) flightsOnRoute in
  let returnFlights := List.filter (oppositeDirection viz) flightsOnRoute in
  let popupContent := mkPopup fromColor toColor outboundFlights returnFlights in
  let flightSegments :=
    routeSegments (coordinates (fromAirport viz)) (coordinates (toAirport viz))
                  fromColor toColor in
  let withPopup (s : Segment) :=
    mkSegment (seg_points s) (seg_color s) (Some popupContent) in
  mkRouteGroup viz popupContent
    (match flightSegments !! 4 with
     | Some _ => withPopup <$> flightSegments
     | None => flightSegments
     end).

(** The drawing loop with its [drawnRoutes] set. *)
Fixpoint drawLoop (routeFlights : gmap string (list Viz))
         (airportFrequency : gmap string nat) (maxFrequency : nat)
         (visualizations : list Viz) (drawnRoutes : gset string)
  : list RouteGroup :=
  match visualizations with
  | [] => []
  | viz :: rest =>
      if bool_decide (routeKey viz ∈ drawnRoutes) then
        drawLoop routeFlights airportFrequency maxFrequency rest drawnRoutes
      else
        drawRoute routeFlights airportFrequency maxFrequency viz ::
        drawLoop routeFlights airportFrequency maxFrequency rest
                 ({[routeKey viz]} ∪ drawnRoutes)
  end.

Definition routeGroups (visualizations : list Viz) : list RouteGroup :=
  let airportFrequency := countFrequencies visualizations in
  drawLoop (groupRoutes visualizations) airportFrequency (maxOf airportFrequency)
           visualizations ∅.

(** ** Airport markers of the static view *)

Definition collectStep (airportsMap : list (string * Airport number)) (viz : Viz) :=
  mapSet (iataCode (toAirport viz)) (toAirport viz)
         (mapSet (iataCode (fromAirport viz)) (fromAirport viz) airportsMap).

Definition collectAirports (visualizations : list Viz) : list (string * Airport number) :=
  fold_left collectStep visualizations [].

Definition staticMarker (airportFrequency : gmap string nat) (maxFrequency : nat)
           (airport : Airport number) : Marker :=
  mkMarker airport (colorOf airportFrequency maxFrequency (iataCode airport))
           (Some (frequencyOf airportFrequency (iataCode airport))).

Definition staticMarkers (visualizations : list Viz) : list Marker :=
  let airportFrequency := countFrequencies visualizations in
  (fun kv => staticMarker airportFrequency (maxOf airportFrequency) (snd kv))
    <$> collectAirports visualizations.

(** [visualizeFlights], with the map mounted.  It clears both
    registries, then draws the routes and the markers.  The centre and zoom
    of the view ([setView], [fitBounds]) are not part of the scene. *)
Definition visualizeFlights (visualizations : list Viz) (sc : Scene) : Scene :=
  match visualizations with
  | [] => mkScene [] [] (planeMarker sc) (animationAborted sc)
  | _ =>
      mkScene (staticMarkers visualizations)
              (concat (rg_segments <$> routeGroups visualizations))
              (planeMarker sc) (animationAborted sc)
  end.

(** ** Playback

    [startAnimation] is an [async] function: it runs until the
    [await sleep(50)] inside [animateFlightRoute], and continues from
    there when the timer fires.  Between the two, other handlers (such
    as [stopAnimation]) run to completion.  The suspended function is
    an explicit continuation: the flight being animated, the index of
    the segment drawn last, the flights still to come and the local
    [shownAirports] set.  The other [await] (on the promise of
    [animateFlightRoute]) resumes in a microtask, before any handler
    can run, and is not a suspension point of the model. *)

Definition clearScene (sc : Scene) : Scene :=
  mkScene [] [] (planeMarker sc) (animationAborted sc).

Definition removePlaneMarker (sc : Scene) : Scene :=
  mkScene (markers sc) (flightLines sc) None (animationAborted sc).

(** [addAirportMarker(airport, color, true)]: no popup is bound; the
    highlight pulse is a transient style class. *)
Definition addAirportMarker (airport : Airport number) (color : string)
           (sc : Scene) : Scene :=
  mkScene (markers sc ++ [mkMarker airport color None])
          (flightLines sc) (planeMarker sc) (animationAborted sc).

(** [highlightAirportMarker] only toggles a style class for 600 ms. *)
Definition highlightAirportMarker (airportCode : string) (sc : Scene) : Scene := sc.

(** The segment is pushed on [flightLines] and [showPlaneMarker] moves
    the plane to its last point. *)
Definition drawAnimatedSegment (seg : Segment) (sc : Scene) : Scene :=
  mkScene (markers sc) (flightLines sc ++ [seg]) (last (seg_points seg))
          (animationAborted sc).

(** "Show the airport if not already shown, else highlight it." *)
Definition showAirport (airport : Airport number) (color : string)
           (shownAirports : gset string) (sc : Scene) : gset string * Scene :=
  if bool_decide (iataCode airport ∈ shownAirports)
  then (shownAirports, highlightAirportMarker (iataCode airport) sc)
  else ({[iataCode airport]} ∪ shownAirports, addAirportMarker airport color sc).

(** The segment loop of [animateFlightRoute] over the indices [idxs]
    still to visit.  [Some i]: segment [i] was drawn and the function is
    suspended in [sleep]; [None]: the loop has ended (or was left by
    [break]) and the plane marker is removed. *)
Fixpoint segmentLoop (pathPoints : list LatLng) (fromColor toColor : string)
         (idxs : list nat) (sc : Scene) : Scene * option nat :=
  match idxs with
  | [] => (removePlaneMarker sc, None)
  | i :: rest =>
      if animationAborted sc then (removePlaneMarker sc, None)
      else match segmentAt pathPoints fromColor toColor i with
           | None => segmentLoop pathPoints fromColor toColor rest sc
           | Some seg => (drawAnimatedSegment seg sc, Some i)
           end
  end.

Record Playback := mkPlayback {
  pb_airportFrequency : gmap string nat;
  pb_maxFrequency : nat
}.

Definition fromColorOf (pb : Playback) (viz : Viz) : string :=
  colorOf (pb_airportFrequency pb) (pb_maxFrequency pb) (iataCode (fromAirport viz)).
Definition toColorOf (pb : Playback) (viz : Viz) : string :=
  colorOf (pb_airportFrequency pb) (pb_maxFrequency pb) (iataCode (toAirport viz)).
Definition pathOf (viz : Viz) : list LatLng :=
  geodesic (coordinates (fromAirport viz)) (coordinates (toAirport viz)).

(** [animateFlightRoute] from its entry to the first suspension. *)
Definition animateFlightRoute (pb : Playback) (viz : Viz) (sc : Scene)
  : Scene * option nat :=
  if animationAborted sc then (sc, None)
  else segmentLoop (pathOf viz) (fromColorOf pb viz) (toColorOf pb viz)
                   (seq 0 numSegments) sc.

(** [animateFlightRoute] from the end of the [sleep] after segment [i]. *)
Definition continueFlightRoute (pb : Playback) (viz : Viz) (i : nat) (sc : Scene)
  : Scene * option nat :=
  segmentLoop (pathOf viz) (fromColorOf pb viz) (toColorOf pb viz)
              (seq (S i) (numSegments - S i)) sc.

Record Frame := mkFrame {
  fr_viz : Viz;
  fr_segment : nat;
  fr_rest : list Viz;
  fr_shownAirports : gset string
}.

Inductive Coroutine :=
| Sleeping (fr : Frame)
| Finished.

(** The [for (const viz of sortedFlights)] loop, up to the next
    suspension. *)
Fixpoint flightLoop (pb : Playback) (sortedFlights : list Viz)
         (shownAirports : gset string) (sc : Scene) : Coroutine * Scene :=
  match sortedFlights with
  | [] => (Finished, sc)
  | viz :: rest =>
      if animationAborted sc then (Finished, sc)
      else
        let '(shown1, sc1) :=
          showAirport (fromAirport viz) (fromColorOf pb viz) shownAirports sc in
        match animateFlightRoute pb viz sc1 with
        | (sc2, Some i) => (Sleeping (mkFrame viz i rest shown1), sc2)
        | (sc2, None) =>
            let '(shown2, sc3) :=
              showAirport (toAirport viz) (toColorOf pb viz) shown1 sc2 in
            flightLoop pb rest shown2 sc3
        end
  end.

(** The timer of a suspended playback fires. *)
Definition resume (pb : Playback) (fr : Frame) (sc : Scene) : Coroutine * Scene :=
  match continueFlightRoute pb (fr_viz fr) (fr_segment fr) sc with
  | (sc2, Some i) =>
      (Sleeping (mkFrame (fr_viz fr) i (fr_rest fr) (fr_shownAirports fr)), sc2)
  | (sc2, None) =>
      let '(shown2, sc3) :=
        showAirport (toAirport (fr_viz fr)) (toColorOf pb (fr_viz fr))
                    (fr_shownAirports fr) sc2 in
      flightLoop pb (fr_rest fr) shown2 sc3
  end.

(** [sort((a, b) => a.departureTimestamp - b.departureTimestamp)], which
    is stable. *)
Fixpoint insertByDeparture (viz : Viz) (sorted : list Viz) : list Viz :=
  match sorted with
  | [] => [viz]
  | y :: rest =>
      if (departureTimestamp viz <=? departureTimestamp y)%Z
      then viz :: sorted
      else y :: insertByDeparture viz rest
  end.

Definition sortByDeparture (l : list Viz) : list Viz :=
  foldr insertByDeparture [] l.

Definition playbackOf (visualizations : list Viz) : Playback :=
  let airportFrequency := countFrequencies visualizations in
  mkPlayback airportFrequency (maxOf airportFrequency).

(** [startAnimation], with the map mounted and the prop present. *)
Definition startAnimation (visualizations : list Viz) (sc : Scene)
  : Coroutine * Scene :=
  let sc0 := clearScene (mkScene (markers sc) (flightLines sc) (planeMarker sc) false) in
  flightLoop (playbackOf visualizations) (sortByDeparture visualizations) ∅ sc0.

(** [stopAnimation] *)
Definition stopAnimation (visualizations : list Viz) (sc : Scene) : Scene :=
  let sc1 := mkScene (markers sc) (flightLines sc) (planeMarker sc) true in
  visualizeFlights visualizations (removePlaneMarker sc1).

(** ** Runs of the component

    A state of the component is the suspended playback together with
    the scene.  [tick] is a timer expiry, [stop] a click on Stop. *)

Definition tick (visualizations : list Viz) (st : Coroutine * Scene)
  : Coroutine * Scene :=
  match fst st with
  | Sleeping fr => resume (playbackOf visualizations) fr (snd st)
  | Finished => st
  end.

Definition stop (visualizations : list Viz) (st : Coroutine * Scene)
  : Coroutine * Scene :=
  (fst st, stopAnimation visualizations (snd st)).

(** A freshly mounted map. *)
Definition emptyScene : Scene := mkScene [] [] None false.

(** Playback started on a fresh map and left to run for [k] timer
    expiries. *)
Definition playFor (visualizations : list Viz) (k : nat) : Coroutine * Scene :=
  Nat.iter k (tick visualizations) (startAnimation visualizations emptyScene).

(** Stop after [k] expiries, then let the pending timer fire. *)
Definition stopAfter (visualizations : list Viz) (k : nat) : Coroutine * Scene :=
  tick visualizations (stop visualizations (playFor visualizations k)).

(** The dataset rendered directly on a fresh map. *)
Definition renderStatic (visualizations : list Viz) : Scene :=
  visualizeFlights visualizations emptyScene.

(** The static view with the abort flag set and no plane: what
    [stopAnimation] draws. *)
Definition stoppedScene (visualizations : list Viz) : Scene :=
  mkScene (markers (renderStatic visualizations))
          (flightLines (renderStatic visualizations)) None true.

End WithGeodesic.

End MapView.

(* ===================================================================== *)
(** * App.vue                                                             *)
(* ===================================================================== *)

Module App.

(** What [await file.text()] gives: the text, or a rejection with the
    message of the thrown [Error] if it is one. *)
Inductive fileText :=
| TextRead (text : string)
| TextFailed (message : option string).

(** The refs of the component that an upload touches. *)
Record AppState {number : Type} := mkAppState {
  st_parseResult : option ParseResult;
  st_flights : list Flight;
  st_flightVisualizations : list (FlightVisualizationData number);
  st_filteredVisualizations : list (FlightVisualizationData number);
  st_distinctAirportsCount : nat;
  st_airportsMap : gmap string (Airport number);
  st_codeReplacements : gmap string string
}.
Arguments AppState : clear implicits.

Section WithDate.
Context {number : Type}.
Variable Date : string -> option instant.

(** [handleFileUpload]: the three refs are reset first; the [try] block
    sets everything, the [catch] block only [parseResult]. *)
Definition handleFileUpload (file : fileText) (st : AppState number) : AppState number :=
  match file with
  | TextRead text =>
      let csvParseResult := FlightDataParser.parseFlightsCsv Date text in
      let vizResult :=
        Builder.buildFlightVisualizations (flights csvParseResult)
          (st_airportsMap st) (st_codeReplacements st) in
      let allErrors := errors csvParseResult ++ vizErrors vizResult in
      mkAppState number
        (Some (mkParseResult (flights csvParseResult) allErrors
                 (totalRows csvParseResult)
                 (length (visualizations vizResult))
                 (failedRows csvParseResult +
                  (length (flights csvParseResult) - length (visualizations vizResult)))))
        (flights csvParseResult)
        (visualizations vizResult)
        (visualizations vizResult)
        (size (distinctAirports vizResult))
        (st_airportsMap st) (st_codeReplacements st)
  | TextFailed message =>
      mkAppState number
        (Some (mkParseResult []
                 ["Failed to read file: " +:+ default "Unknown error" message] 0 0 0))
        [] [] (st_filteredVisualizations st) (st_distinctAirportsCount st)
        (st_airportsMap st) (st_codeReplacements st)
  end.

(** The [onMounted] hook: the two tables are loaded and stored. *)
Definition onMounted (parseFloat : string -> option number)
           (airportsResponse replacementsResponse : option string)
           (st : AppState number) : AppState number :=
  let loaded :=
    AirportsParser.loadAirportsWithReplacements parseFloat airportsResponse
                                                replacementsResponse in
  mkAppState number (st_parseResult st) (st_flights st) (st_flightVisualizations st)
             (st_filteredVisualizations st) (st_distinctAirportsCount st)
             (fst loaded) (snd loaded).

(** [handleFilterChanged] *)
Definition handleFilterChanged (filtered : list (FlightVisualizationData number))
           (st : AppState number) : AppState number :=
  mkAppState number (st_parseResult st) (st_flights st) (st_flightVisualizations st)
             filtered (st_distinctAirportsCount st)
             (st_airportsMap st) (st_codeReplacements st).

End WithDate.

End App.

(* ===================================================================== *)
(** * Platform instances used to run the model                            *)
(* ===================================================================== *)

(** The results below hold for every [Date], [parseFloat] and [geodesic].
    To evaluate the model on concrete files, this module gives one instance
    of each: a date parser for the layout [YYYY-MM-DD HH:mm:ss] read in a
    UTC locale, a [parseFloat] for plain decimal notation with exact
    rational values, and a "geodesic" of a fixed number of points. *)
Module Platform.
Import Js.

Fixpoint digitsValue (s : string) (acc : nat) : option nat :=
  match s with
  | EmptyString => Some acc
  | String c r =>
      match Ascii.is_nat c with
      | Some d => digitsValue r (10 * acc + d)
      | None => None
      end
  end.

(** A field of exactly [width] decimal digits. *)
Definition fixedDigits (width : nat) (s : string) : option Z :=
  if String.length s =? width
  then Z.of_nat <$> digitsValue s 0
  else None.

(** Days between 1970-01-01 and the given civil date (proleptic
    Gregorian calendar). *)
Definition daysFromCivil (y m d : Z) : Z :=
  let y' := if (m <=? 2)%Z then (y - 1)%Z else y in
  let era := (y' / 400)%Z in
  let yoe := (y' - era * 400)%Z in
  let mp := if (m >? 2)%Z then (m - 3)%Z else (m + 9)%Z in
  let doy := ((153 * mp + 2) / 5 + d - 1)%Z in
  let doe := (yoe * 365 + yoe / 4 - yoe / 100 + doy)%Z in
  (era * 146097 + doe - 719468)%Z.

Definition DateUTC (s : string) : option instant :=
  match split " "%char s with
  | [datePart; timePart] =>
      match split "-"%char datePart, split ":"%char timePart with
      | [y; m; d], [hh; mi; ss] =>
          match fixedDigits 4 y, fixedDigits 2 m, fixedDigits 2 d,
                fixedDigits 2 hh, fixedDigits 2 mi, fixedDigits 2 ss with
          | Some y, Some m, Some d, Some hh, Some mi, Some ss =>
              if ((1 <=? m) && (m <=? 12) && (1 <=? d) && (d <=? 31) &&
                  (hh <? 24) && (mi <? 60) && (ss <? 60))%Z
              then Some ((((daysFromCivil y m d * 24 + hh) * 60 + mi) * 60 + ss) * 1000)%Z
              else None
          | _, _, _, _, _, _ => None
          end
      | _, _ => None
      end
  | _ => None
  end.

(** The longest prefix of decimal digits, with its value and the rest. *)
Fixpoint digitRun (s : string) (acc : Z) (len : nat) : Z * nat * string :=
  match s with
  | EmptyString => (acc, len, s)
  | String c r =>
      match Ascii.is_nat c with
      | Some d => digitRun r (10 * acc + Z.of_nat d)%Z (S len)
      | None => (acc, len, s)
      end
  end.

(** [parseFloat] on [sign? digits (. digits)?] and [sign? . digits] after
    leading white space, with the exact value of the accepted prefix;
    [None] ([NaN]) when no digit is found. *)
Definition parseFloatDec (value : string) : option Q :=
  let s := trimStart value in
  let '(negative, s) :=
    match s with
    | String "-"%char r => (true, r)
    | String "+"%char r => (false, r)
    | _ => (false, s)
    end in
  let '(ip, ilen, s) := digitRun s 0 0 in
  let '(fp, flen) :=
    match s with
    | String "."%char r => let '(fp, flen, _) := digitRun r 0 0 in (fp, flen)
    | _ => (0%Z, 0)
    end in
  if (ilen + flen =? 0) then None
  else
    let magnitude := (inject_Z ip + inject_Z fp / inject_Z (10 ^ Z.of_nat flen))%Q in
    Some (Qred (if negative then - magnitude else magnitude)%Q).

(** A path of [n] points that records its two ends. *)
(** A [Math.pow(1.4, n)] without rounding. *)
Definition exactPow14 (n : Z) : Q := ((14 # 10) ^ n)%Q.

Definition straightPath {number} (n : nat) (fromCoords toCoords : number * number)
  : list (number * number) :=
  match n with
  | 0 => []
  | S k => fromCoords :: replicate k toCoords
  end.

End Platform.

(* ===================================================================== *)
(** * Sample inputs                                                       *)
(* ===================================================================== *)

Module Examples.
Import Js.

Definition newline : string := String "010"%char EmptyString.
Definition file (lines : list string) : string := join newline lines.

Definition flightsHeader : string :=
  "airline,flight_code,departure_airport,arrival_airport,departure_timestamp_local,arrival_timestamp_local".

(** The end-to-end scenario of the specification, followed by a row with
    an empty flight code and a row with an unreadable arrival time. *)
Definition flightsCsv : string :=
  file [ flightsHeader;
         "Finnair,AY123,HEL,JFK,2024-01-15 12:30:00,2024-01-15 08:45:00";
         "Finnair,,HEL,JFK,2024-01-15 12:30:00,2024-01-15 08:45:00";
         "Finnair,AY5,JFK,HEL,2024-01-16 12:30:00,tomorrow" ].

(** One data row between blank lines, with a line feed at the end of the
    file. *)
Definition flightsCsvWithBlankLines : string :=
  file [ flightsHeader; ""; "   ";
         "Finnair,AY123,HEL,JFK,2024-01-15 12:30:00,2024-01-15 08:45:00";
         "" ].

(** A file whose header has no [flight_code] column. *)
Definition headerWithoutFlightCode : string :=
  "airline,departure_airport,arrival_airport,departure_timestamp_local,arrival_timestamp_local".

Definition flightsCsvWithoutFlightCode : string :=
  file [ headerWithoutFlightCode;
         "Finnair,HEL,JFK,2024-01-15 12:30:00,2024-01-15 08:45:00";
         "Finnair,JFK,HEL,2024-01-16 12:30:00,2024-01-17 08:45:00" ].

(** An airport file with a row without code, a row with an unreadable
    latitude and a repeated code. *)
Definition airportsHeader : string := "iata_code,name,latitude_deg,longitude_deg".

Definition airportRows : list string :=
  [ "HEL,Helsinki Vantaa,60.3172,24.9633";
    "JFK,John F Kennedy,40.6398,-73.7789";
    ",No code,1,2";
    "XXX,Bad latitude,north,3";
    "HEL,Helsinki again,60.5,25" ].

Definition airportsCsv : string := file (airportsHeader :: airportRows).

(** An airport file whose header has no [latitude_deg] column. *)
Definition airportsCsvWithoutLatitude : string :=
  file [ "iata_code,name,longitude_deg"; "HEL,Helsinki Vantaa,24.9633" ].

Definition airportAt (code : string) (latitude longitude : Q) : Airport Q :=
  mkAirport Q "" "" "" code (latitude, longitude) None "" "" "" "" false "" code "" "".

Definition HEL : Airport Q := airportAt "HEL" (603172 # 10000) (249633 # 10000).
Definition JFK : Airport Q := airportAt "JFK" (406398 # 10000) (- 737789 # 10000).

Definition airportsTable : gmap string (Airport Q) :=
  <["JFK" := JFK]> (<["HEL" := HEL]> ∅).

(** The retired code [HEM] now reads [HEL]. *)
Definition replacementTable : gmap string string := <["HEM" := "HEL"]> ∅.

Definition flightTo (departure arrival : string) (t : instant) : Flight :=
  mkFlight "Finnair" "AY123" departure arrival t (t + 3600000)%Z.

(** A flight whose two codes are both unknown. *)
Definition unknownFlight : Flight := flightTo "ZZZ" "YYY" 0%Z.

Definition helJfk : FlightVisualizationData Q :=
  createFlightVisualization (flightTo "HEL" "JFK" 0%Z) HEL JFK.

Definition jfkHel : FlightVisualizationData Q :=
  createFlightVisualization (flightTo "JFK" "HEL" 86400000%Z) JFK HEL.

(** A route flown in both directions. *)
Definition roundTrip : list (FlightVisualizationData Q) := [helJfk; jfkHel].

(** A path of 51 points for every route. *)
Definition path51 : Q * Q -> Q * Q -> list (Q * Q) := Platform.straightPath 51.

(** Airports whose codes contain the separator of the route key. *)
Definition hyphenated : list (FlightVisualizationData Q) :=
  let a_b := airportAt "A-B" 1 1 in
  let c := airportAt "C" 2 2 in
  let a := airportAt "A" 3 3 in
  let b_c := airportAt "B-C" 4 4 in
  [ createFlightVisualization (flightTo "A-B" "C" 0%Z) a_b c;
    createFlightVisualization (flightTo "A" "B-C" 1%Z) a b_c;
    createFlightVisualization (flightTo "B-C" "A" 2%Z) b_c a ].

End Examples.

(* ===================================================================== *)
(** * Vocabulary of the statements                                        *)
(* ===================================================================== *)

(** [needle] occurs in [hay]. *)
Definition mentions (needle hay : string) : Prop :=
  exists pre post, hay = pre +:+ needle +:+ post.

(** [s] is empty or starts with a character that is not white space. *)
Definition startsClean (s : string) : Prop :=
  match s with
  | EmptyString => True
  | String c _ => Js.isWhiteSpace c = false
  end.

(** No character of [s] is a dot or white space. *)
Fixpoint plain (s : string) : bool :=
  match s with
  | EmptyString => true
  | String c r => negb (Ascii.eqb c "."%char) && negb (Js.isWhiteSpace c) && plain r
  end.

(** What the row loop of [parseFlightsCsv] pushes for one line met at
    index [i] of [lines]: at most one flight and at most one message. *)
Definition rowFlights (Date : string -> option instant) (ci : gmap string nat)
           (line : string) : list Flight :=
  FlightDataParser.l_flights
    (FlightDataParser.rowStep Date ci 0 line (FlightDataParser.mkLoop [] [] 0 0)).

Definition rowErrors (Date : string -> option instant) (ci : gmap string nat)
           (i : nat) (line : string) : list string :=
  FlightDataParser.l_errors
    (FlightDataParser.rowStep Date ci i line (FlightDataParser.mkLoop [] [] 0 0)).

(** The resolution rule in the words of the specification: a code
    resolves when it is a key of the airport table, or it is not a key but
    the replacement table maps it to a code that is. *)
Definition resolves {number} (airportsMap : gmap string (Airport number))
           (replacements : gmap string string) (code : string) : Prop :=
  (code ∈ dom airportsMap) \/
  ((code ∉ dom airportsMap) /\
   exists newCode, replacements !! code = Some newCode /\ newCode ∈ dom airportsMap).

(** A line feed, and a text with every line feed turned into a carriage
    return followed by a line feed (Windows line endings). *)
Definition lf : string := String "010"%char EmptyString.

Fixpoint crlf (text : string) : string :=
  match text with
  | EmptyString => EmptyString
  | String c rest =>
      if Ascii.eqb c "010"%char then String "013"%char (String "010"%char (crlf rest))
      else String c (crlf rest)
  end.

(** The column names at which the two parsers read their [columnIndex]
    object. *)
Definition readColumns : list string :=
  FlightDataParser.REQUIRED_COLUMNS ++
  [ "iata_code"; "id"; "ident"; "type"; "name"; "latitude_deg"; "longitude_deg";
    "elevation_ft"; "continent"; "iso_country"; "iso_region"; "municipality";
    "scheduled_service"; "icao_code"; "gps_code"; "local_code" ].

(** ** The data lines of a text, in the words of the specification

    Written without the parser's own line handling.  A text is cut at its
    line feeds; a line is blank when it holds nothing but white-space
    characters (TAB, LF, VT, FF, CR, SP, NBSP); the first non-blank line is
    the header and the non-blank lines after it are the data lines. *)
Definition whiteSpaceCodes : list nat := [9; 10; 11; 12; 13; 32; 160].

Fixpoint blankLine (line : string) : bool :=
  match line with
  | EmptyString => true
  | String c rest =>
      existsb (Nat.eqb (nat_of_ascii c)) whiteSpaceCodes && blankLine rest
  end.

(** [current] holds the characters of the line being read. *)
Fixpoint cutAtLineFeeds (current : string) (text : string) : list string :=
  match text with
  | EmptyString => [current]
  | String c rest =>
      if Nat.eqb (nat_of_ascii c) 10
      then current :: cutAtLineFeeds EmptyString rest
      else cutAtLineFeeds (current +:+ String c EmptyString) rest
  end.

Definition nonBlankLines (text : string) : list string :=
  List.filter (fun line => negb (blankLine line)) (cutAtLineFeeds EmptyString text).

Definition dataLines (text : string) : list string := tail (nonBlankLines text).

(** What is assumed of the platform's [Math.pow(1.4, n)], for the exponents
    -30 .. 30: the result for the exponent 0 is 1, as the language
    requires, and every result is within one thousandth of the exact
    power. *)
Definition powExponents : list Z := (fun k => (Z.of_nat k - 30)%Z) <$> seq 0 61.

Definition powAccurate (pow14 : Z -> Q) : bool :=
  Qeq_bool (pow14 0%Z) 1 &&
  forallb (fun n => Qle_bool ((999 # 1000) * (14 # 10) ^ n) (pow14 n) &&
                    Qle_bool (pow14 n) ((1001 # 1000) * (14 # 10) ^ n))
          powExponents.

(** A colour channel. *)
Definition byte (n : Z) : Prop := (0 <= n <= 255)%Z.

(** The text [rgb(r, g, b)] that [interpolateColor] returns. *)
Definition rgbText (r g b : Z) : string :=
  "rgb(" +:+ MapView.ofZ r +:+ ", " +:+ MapView.ofZ g +:+ ", " +:+ MapView.ofZ b +:+ ")".

(** Polylines that each start where the previous one ends, joined into
    one: the shared points are taken once. *)
Definition joinPaths {A} (pieces : list (list A)) : list A :=
  match pieces with
  | [] => []
  | first :: others => first ++ concat (drop 1 <$> others)
  end.

(** Every entry of the table is stored under the code it carries, which is
    trimmed and not empty. *)
Definition keyedByCode {number} (airportsMap : gmap string (Airport number)) : Prop :=
  forall code airport, airportsMap !! code = Some airport ->
    iataCode airport = code /\ code <> "" /\ Js.trim code = code.

(** What one flight contributes to each output of the builder. *)
Section Contributions.
Context {number : Type}.
Variable airportsMap : gmap string (Airport number).
Variable replacements : gmap string string.
Import AirportsParser Builder.

Definition lookupCode (code : string) : option (Airport number) :=
  getAirportByCode code airportsMap replacements.

Definition visualizationOf (flight : Flight) : option (FlightVisualizationData number) :=
  match lookupCode (departureAirport flight), lookupCode (arrivalAirport flight) with
  | Some fromAirport, Some toAirport =>
      Some (createFlightVisualization flight fromAirport toAirport)
  | _, _ => None
  end.

Definition errorOf (flight : Flight) : option string :=
  match lookupCode (departureAirport flight), lookupCode (arrivalAirport flight) with
  | None, _ => Some (departureError flight)
  | Some _, None => Some (arrivalError flight)
  | Some _, Some _ => None
  end.

Definition unresolvedOf (flight : Flight) : option string :=
  match lookupCode (departureAirport flight), lookupCode (arrivalAirport flight) with
  | None, _ => Some (departureAirport flight)
  | Some _, None => Some (arrivalAirport flight)
  | Some _, Some _ => None
  end.

Definition bothResolve (flight : Flight) : Prop :=
  is_Some (lookupCode (departureAirport flight)) /\
  is_Some (lookupCode (arrivalAirport flight)).

Global Instance bothResolve_dec flight : Decision (bothResolve flight).
Proof. unfold bothResolve. apply _. Defined.
End Contributions.

(** Route deduplication, in the words of the specification. *)
Section RouteVocabulary.
Context {number LatLng : Type}.
Variable geodesic : number * number -> number * number -> list LatLng.
Import MapView.

Local Abbreviation Viz := (FlightVisualizationData number).

(** [u] flies between the two airports of [v], in either direction. *)
Definition samePair (u v : Viz) : bool :=
  sameDirection v u || oppositeDirection v u.





(** For the airport pair of [v]: exactly one route group is drawn, it is
    the one the drawing loop builds for the first flight of the pair in
    the set, and its popup lists the flights of the pair, those in the
    direction of that first flight as outbound and the others as return.
    The segments of the group follow the path from the departure to the
    arrival airport of that first flight; when the path has at least ten
    points, at least nine segments are drawn and each of them opens the
    popup. *)
Definition routeDrawnOnceFor (visualizations : list Viz) (v : Viz) : Prop :=
  exists (first : Viz) (g : RouteGroup (number := number) (LatLng := LatLng)),
    head (List.filter (fun u => samePair u v) visualizations) = Some first /\
    List.filter (fun g => samePair (rg_viz g) v) (routeGroups geodesic visualizations) = [g] /\
    rg_viz g = first /\
    pp_outboundFlights (rg_popupContent g)
    = List.filter (sameDirection first) visualizations /\
    pp_returnFlights (rg_popupContent g)
    = List.filter (oppositeDirection first) visualizations /\
    (forall u, In u visualizations -> samePair u v = true ->
               In u (pp_outboundFlights (rg_popupContent g)) \/
               In u (pp_returnFlights (rg_popupContent g))) /\
    seg_points <$> rg_segments g
    = seg_points <$> routeSegments geodesic (coordinates (fromAirport first))
                                   (coordinates (toAirport first))
                                   (pp_fromColor (rg_popupContent g))
                                   (pp_toColor (rg_popupContent g)) /\
    (10 <= length (geodesic (coordinates (fromAirport first))
                            (coordinates (toAirport first))) ->
     9 <= length (rg_segments g) /\
     forall s, In s (rg_segments g) -> seg_popup s = Some (rg_popupContent g)).

(** The claim for a set: every pair flown in both directions is drawn
    once. *)
Definition routeDeduplication (visualizations : list Viz) : Prop :=
  forall v w, In v visualizations -> In w visualizations ->
    oppositeDirection v w = true ->
    routeDrawnOnceFor visualizations v.

End RouteVocabulary.

(** A playback that is left to run, flight by flight. *)
Section PlaybackVocabulary.
Context {number LatLng : Type}.
Variable geodesic : number * number -> number * number -> list LatLng.
Import MapView.

Local Abbreviation Viz := (FlightVisualizationData number).
Local Abbreviation Scene' := (Scene (number := number) (LatLng := LatLng)).

(** The segments that the playback draws for one flight. *)
Definition segmentsOf (pb : Playback) (viz : Viz) : list Segment :=
  routeSegments geodesic (coordinates (fromAirport viz)) (coordinates (toAirport viz))
                (fromColorOf pb viz) (toColorOf pb viz).

(** The shown airports and the scene once the flight [viz] has been played
    to its end: the departure airport is shown, the segments are drawn, the
    plane is removed and the arrival airport is shown. *)
Definition flightDone (pb : Playback) (st : gset string * Scene') (viz : Viz)
  : gset string * Scene' :=
  let '(shown1, sc1) :=
    showAirport (fromAirport viz) (fromColorOf pb viz) (fst st) (snd st) in
  showAirport (toAirport viz) (toColorOf pb viz) shown1
              (mkScene (markers sc1) (flightLines sc1 ++ segmentsOf pb viz) None
                       (animationAborted sc1)).

Definition playedThrough (pb : Playback) (flights : list Viz)
           (st : gset string * Scene') : gset string * Scene' :=
  fold_left (flightDone pb) flights st.

End PlaybackVocabulary.

(* ===================================================================== *)
(** * Strings                                                             *)
(* ===================================================================== *)

Section StringFacts.
Import Js.

Lemma string_app_assoc (a b c : string) : (a +:+ b) +:+ c = a +:+ (b +:+ c).
Proof.
  induction a as [|x a IH]; [done|].
  change (String x ((a +:+ b) +:+ c) = String x (a +:+ (b +:+ c))). by rewrite IH.
Qed.

Lemma string_app_empty_r (a : string) : a +:+ "" = a.
Proof.
  induction a as [|x a IH]; [done|].
  change (String x (a +:+ "") = String x a). by rewrite IH.
Qed.

Lemma mentions_self (s : string) : mentions s s.
Proof. exists "", "". change (s = s +:+ ""). by rewrite string_app_empty_r. Qed.

Lemma mentions_prepend (s pre hay : string) : mentions s hay -> mentions s (pre +:+ hay).
Proof.
  intros (p & q & ->). exists (pre +:+ p), q. by rewrite string_app_assoc.
Qed.

Lemma mentions_append (s hay post : string) : mentions s hay -> mentions s (hay +:+ post).
Proof.
  intros (p & q & ->). exists p, (q +:+ post). by rewrite !string_app_assoc.
Qed.

(** Every element of a joined array occurs in the result. *)
Lemma mentions_join (sep x : string) (l : list string) :
  x ∈ l -> mentions x (join sep l).
Proof.
  unfold join. induction l as [|y l IH]; [by intros ?%elem_of_nil|].
  intros Hin. destruct l as [|z l].
  - apply list_elem_of_singleton in Hin as ->. apply mentions_self.
  - change (mentions x (y +:+ sep +:+ String.concat sep (z :: l))).
    apply elem_of_cons in Hin as [->|Hin].
    + apply mentions_append with (hay := y), mentions_self.
    + do 2 apply mentions_prepend. by apply IH.
Qed.

Lemma arrayIncludes_elem_of (x : string) (l : list string) :
  arrayIncludes x l = true <-> x ∈ l.
Proof.
  unfold arrayIncludes. rewrite existsb_exists. split.
  - intros (y & Hy & ->%String.eqb_eq). by apply list_elem_of_In.
  - intros Hin. exists x. split; [by apply list_elem_of_In | apply String.eqb_refl].
Qed.

End StringFacts.

(* ===================================================================== *)
(** * The flight parser                                                   *)
(* ===================================================================== *)

Section FlightParserFacts.
Import Js FlightDataParser.
Variable Date : string -> option instant.

(** A column is reported missing exactly when it is required and no
    header field equals it. *)
Lemma elem_of_missingColumnsOf (headers : list string) (col : string) :
  col ∈ missingColumnsOf headers <-> col ∈ REQUIRED_COLUMNS /\ col ∉ headers.
Proof.
  unfold missingColumnsOf. rewrite list_elem_of_In, filter_In, <- list_elem_of_In.
  rewrite negb_true_iff, <- not_true_iff_false, arrayIncludes_elem_of. tauto.
Qed.

(** Each iteration counts its row once, as a success or as a failure. *)
Lemma rowStep_counts (ci : gmap string nat) (i : nat) (line : string) (st : loopState) :
  l_successfulRows (rowStep Date ci i line st) + l_failedRows (rowStep Date ci i line st)
  = S (l_successfulRows st + l_failedRows st).
Proof. unfold rowStep. destruct (parseRow Date ci line); cbn; lia. Qed.

Lemma rowLoop_counts (ci : gmap string nat) (rows : list string) :
  forall (i : nat) (st : loopState),
    l_successfulRows (rowLoop Date ci i rows st) + l_failedRows (rowLoop Date ci i rows st)
    = l_successfulRows st + l_failedRows st + length rows.
Proof.
  induction rows as [|line rows IH]; intros i st; cbn; [lia|].
  rewrite IH, rowStep_counts. lia.
Qed.

(** A flight is pushed exactly when the success counter is bumped. *)
Lemma rowLoop_flights (ci : gmap string nat) (rows : list string) :
  forall (i : nat) (st : loopState),
    length (l_flights st) = l_successfulRows st ->
    length (l_flights (rowLoop Date ci i rows st))
    = l_successfulRows (rowLoop Date ci i rows st).
Proof.
  induction rows as [|line rows IH]; intros i st Hst; cbn; [done|].
  apply IH. unfold rowStep. destruct (parseRow Date ci line); cbn; [|done..].
  rewrite length_app. cbn. lia.
Qed.

Lemma lineFeed_code (c : ascii) : Nat.eqb (nat_of_ascii c) 10 = Ascii.eqb c "010"%char.
Proof. by destruct c as [[] [] [] [] [] [] [] []]. Qed.

Lemma whiteSpace_code (c : ascii) :
  existsb (Nat.eqb (nat_of_ascii c)) whiteSpaceCodes = isWhiteSpace c.
Proof. by destruct c as [[] [] [] [] [] [] [] []]. Qed.

Lemma trimEnd_not_empty (c : ascii) (s : string) :
  isWhiteSpace c = false -> trimEnd (String c s) <> "".
Proof. intros Hc. cbn [trimEnd]. rewrite Hc. by destruct (trimEnd s). Qed.

(** A line is blank in the sense of the specification exactly when the
    parser drops it. *)
Lemma blankLine_nonBlank (line : string) : negb (blankLine line) = nonBlank line.
Proof.
  unfold nonBlank, trim. f_equal.
  induction line as [|c line IH]; [done|].
  cbn [blankLine trimStart]. rewrite whiteSpace_code.
  destruct (isWhiteSpace c) eqn:Hc; [exact IH|].
  cbn [andb]. symmetry. apply String.eqb_neq. by apply trimEnd_not_empty.
Qed.

Lemma split_has_head (sep : ascii) (s : string) :
  exists piece pieces, split sep s = piece :: pieces.
Proof.
  destruct s as [|c s]; cbn [split]; [by eauto|].
  destruct (Ascii.eqb c sep); [by eauto|]. destruct (split sep s); eauto.
Qed.

Lemma cutAtLineFeeds_split (text : string) :
  forall current : string,
    cutAtLineFeeds current text
    = match split "010"%char text with
      | piece :: pieces => (current +:+ piece) :: pieces
      | [] => [current]
      end.
Proof.
  induction text as [|c text IH]; intros current; cbn [cutAtLineFeeds split].
  - by rewrite string_app_empty_r.
  - rewrite lineFeed_code. destruct (Ascii.eqb c "010").
    + rewrite IH, string_app_empty_r.
      by destruct (split_has_head "010" text) as (piece & pieces & ->).
    + rewrite IH. destruct (split_has_head "010" text) as (piece & pieces & ->).
      rewrite string_app_assoc. done.
Qed.

Lemma nonBlankLines_csvLines (text : string) : nonBlankLines text = csvLines text.
Proof.
  unfold nonBlankLines, csvLines. rewrite cutAtLineFeeds_split.
  assert (match split "010" text with
          | piece :: pieces => ("" +:+ piece) :: pieces
          | [] => [""]
          end = split "010" text) as ->.
  { destruct (split_has_head "010" text) as (piece & pieces & ->). done. }
  apply filter_ext. intros line. apply blankLine_nonBlank.
Qed.

(** C1. For every CSV text, [totalRows] is the number of data lines, that
    is of the non-blank lines after the first non-blank line, the header;
    [successfulRows + failedRows = totalRows]; and when the header lacks a
    required column [successfulRows = 0] and [failedRows = totalRows].  The
    data lines are counted as the specification describes them, without the
    parser's own line handling. *)
Theorem C1_row_counts (csvContent : string) :
  let r := parseFlightsCsv Date csvContent in
  totalRows r = length (dataLines csvContent) /\
  successfulRows r + failedRows r = totalRows r /\
  length (flights r) = successfulRows r /\
  (forall headerLine,
      head (nonBlankLines csvContent) = Some headerLine ->
      missingColumnsOf (parseHeaders headerLine) <> [] ->
      successfulRows r = 0 /\ failedRows r = totalRows r).
Proof.
  unfold dataLines. rewrite nonBlankLines_csvLines.
  unfold parseFlightsCsv. destruct (csvLines csvContent) as [|headerLine rows] eqn:Hlines.
  { cbn. by repeat split. }
  destruct (missingColumnsOf (parseHeaders headerLine)) as [|col cols] eqn:Hmiss; cbn.
  - split; [done|]. split; [|split].
    + rewrite rowLoop_counts. cbn. lia.
    + by apply rowLoop_flights.
    + intros h Heq Hne. simplify_eq.
  - by repeat split.
Qed.

(** C7. When the header line lacks a required column, the result has no
    flight and exactly one error, which names every missing column; every
    data row is counted as failed, and the rows are used only through
    their number. *)
Theorem C7_missing_columns (csvContent headerLine : string) (rows : list string) :
  csvLines csvContent = headerLine :: rows ->
  (exists col, col ∈ REQUIRED_COLUMNS /\ col ∉ parseHeaders headerLine) ->
  exists message,
    parseFlightsCsv Date csvContent
    = mkParseResult [] [message] (length rows) 0 (length rows) /\
    message = "Missing required columns: " +:+
              join ", " (missingColumnsOf (parseHeaders headerLine)) /\
    (forall col, col ∈ REQUIRED_COLUMNS -> col ∉ parseHeaders headerLine ->
                 mentions col message).
Proof.
  intros Hlines (col & Hreq & Habs).
  exists ("Missing required columns: " +:+
          join ", " (missingColumnsOf (parseHeaders headerLine))).
  split; [|split; [done|]].
  - unfold parseFlightsCsv. rewrite Hlines.
    destruct (missingColumnsOf (parseHeaders headerLine)) as [|c cs] eqn:Hmiss; [|done].
    assert (col ∈ missingColumnsOf (parseHeaders headerLine)) as Hin
      by by apply elem_of_missingColumnsOf.
    rewrite Hmiss in Hin. by apply elem_of_nil in Hin.
  - intros c Hc Hnot. apply mentions_prepend, mentions_join.
    by apply elem_of_missingColumnsOf.
Qed.

(** C6. Whenever the platform's [Date] accepts ["2019-07-28 20:20:00"],
    that string and ["28.07.2019 20:20:00"] are parsed to the same
    instant: the one [Date] gives for the first. *)
Theorem C6_two_layouts_same_instant (t : instant) :
  Date "2019-07-28 20:20:00" = Some t ->
  parseTimestamp Date "2019-07-28 20:20:00" = Some t /\
  parseTimestamp Date "28.07.2019 20:20:00" = Some t.
Proof.
  intros Hdate. split.
  - change (parseTimestamp Date "2019-07-28 20:20:00")
      with (Date "2019-07-28 20:20:00"). exact Hdate.
  - change (parseTimestamp Date "28.07.2019 20:20:00")
      with (match Date "2019-07-28 20:20:00" with
            | Some date => Some date
            | None => Date "28.07.2019 20:20:00"
            end).
    by rewrite Hdate.
Qed.

End FlightParserFacts.

(* ===================================================================== *)
(** * The airport reference parser                                        *)
(* ===================================================================== *)

Section AirportsParserFacts.
Import Js FlightDataParser AirportsParser.
Context {number : Type}.
Variable parseFloat : string -> option number.

(** The index map has an entry exactly for the header fields. *)
Lemma columnIndex_from_None (headers : list string) (name : string) :
  forall (index : nat) (ci : gmap string nat),
    columnIndex_from index headers ci !! name = None <->
    (name ∉ headers) /\ ci !! name = None.
Proof.
  induction headers as [|h headers IH]; intros index ci; cbn.
  - rewrite elem_of_nil. tauto.
  - rewrite IH, not_elem_of_cons, lookup_insert_None. intuition congruence.
Qed.

Lemma mkColumnIndex_None (headers : list string) (name : string) :
  mkColumnIndex headers !! name = None <-> name ∉ headers.
Proof.
  unfold FlightDataParser.mkColumnIndex.
  rewrite columnIndex_from_None, lookup_empty. tauto.
Qed.

(** A column that is not in the header reads as the empty string in
    every row. *)
Lemma fieldOrEmpty_absent (headers values : list string) (name : string) :
  name ∉ headers -> fieldOrEmpty (mkColumnIndex headers) values name = "".
Proof.
  intros Habs%mkColumnIndex_None. unfold fieldOrEmpty, field. by rewrite Habs.
Qed.

Lemma parseNumber_empty : parseNumber parseFloat "" = None.
Proof. done. Qed.

(** The three conditions under which a row is skipped, and no other. *)
Lemma parseAirportRow_None (ci : gmap string nat) (line : string) :
  let values := parseCsvLine line in
  parseAirportRow parseFloat ci line = None <->
  fieldOrEmpty ci values "iata_code" = "" \/
  parseNumber parseFloat (fieldOrEmpty ci values "latitude_deg") = None \/
  parseNumber parseFloat (fieldOrEmpty ci values "longitude_deg") = None.
Proof.
  cbn. unfold parseAirportRow.
  destruct (String.eqb_spec (fieldOrEmpty ci (parseCsvLine line) "iata_code") "")
    as [Hblank|Hcode]; [tauto|].
  destruct (parseNumber parseFloat (fieldOrEmpty ci (parseCsvLine line) "latitude_deg"));
    [|tauto].
  destruct (parseNumber parseFloat (fieldOrEmpty ci (parseCsvLine line) "longitude_deg"));
    [|tauto].
  split; [done|]. intros [?|[?|?]]; done.
Qed.

(** A row that is kept is stored under its own, non-blank code. *)
Lemma parseAirportRow_Some (ci : gmap string nat) (line : string) (airport : Airport number) :
  parseAirportRow parseFloat ci line = Some airport ->
  iataCode airport = fieldOrEmpty ci (parseCsvLine line) "iata_code" /\
  iataCode airport <> "".
Proof.
  unfold parseAirportRow.
  destruct (String.eqb_spec (fieldOrEmpty ci (parseCsvLine line) "iata_code") "")
    as [Hblank|Hcode]; [done|].
  destruct (parseNumber parseFloat (fieldOrEmpty ci (parseCsvLine line) "latitude_deg"));
    [|done].
  destruct (parseNumber parseFloat (fieldOrEmpty ci (parseCsvLine line) "longitude_deg"));
    [|done].
  by intros [= <-].
Qed.

Lemma omap_cons_eq {A B} (f : A -> option B) (x : A) (l : list A) :
  omap f (x :: l) = match f x with Some y => y :: omap f l | None => omap f l end.
Proof. done. Qed.

(** The table after the loop: for each code, the last kept row with that
    code, or what the table held before. *)
Lemma airportLoop_lookup (ci : gmap string nat) (rows : list string) (code : string) :
  forall airportsMap : gmap string (Airport number),
    fold_left (airportStep parseFloat ci) rows airportsMap !! code
    = match last (filter (fun a => iataCode a = code)
                         (omap (parseAirportRow parseFloat ci) rows)) with
      | Some airport => Some airport
      | None => airportsMap !! code
      end.
Proof.
  induction rows as [|line rows IH]; intros airportsMap; [done|].
  cbn [fold_left]. rewrite IH, omap_cons_eq. unfold airportStep.
  destruct (parseAirportRow parseFloat ci line) as [airport|]; [|done].
  rewrite filter_cons. case_decide as Hcode.
  - rewrite last_cons.
    destruct (last (filter _ _)); [done|]. subst code. apply lookup_insert_eq.
  - destruct (last (filter _ _)); [done|]. by apply lookup_insert_ne.
Qed.

Lemma airportLoop_all_skipped (ci : gmap string nat) (rows : list string) :
  (forall line, parseAirportRow parseFloat ci line = None) ->
  forall airportsMap : gmap string (Airport number),
    fold_left (airportStep parseFloat ci) rows airportsMap = airportsMap.
Proof.
  intros Hskip. induction rows as [|line rows IH]; intros airportsMap; [done|].
  cbn [fold_left]. unfold airportStep at 2. by rewrite Hskip.
Qed.

(** C8. A data row is skipped, leaving the table as it was, exactly when
    its IATA field is blank or its latitude or longitude does not parse as
    a number; the table maps each code to the last kept row carrying that
    code, so it holds one airport per code and a later row overwrites an
    earlier one. *)
Theorem C8_airport_rows (csvContent headerLine : string) (rows : list string) :
  csvLines csvContent = headerLine :: rows ->
  let ci := mkColumnIndex (parseHeaders headerLine) in
  let kept := omap (parseAirportRow parseFloat ci) rows in
  (forall line,
      parseAirportRow parseFloat ci line = None <->
      fieldOrEmpty ci (parseCsvLine line) "iata_code" = "" \/
      parseNumber parseFloat (fieldOrEmpty ci (parseCsvLine line) "latitude_deg") = None \/
      parseNumber parseFloat (fieldOrEmpty ci (parseCsvLine line) "longitude_deg") = None) /\
  (forall line airportsMap,
      parseAirportRow parseFloat ci line = None ->
      airportStep parseFloat ci airportsMap line = airportsMap) /\
  (forall code,
      parseAirportsCsv parseFloat csvContent !! code
      = last (filter (fun a => iataCode a = code) kept)) /\
  (forall code airport,
      parseAirportsCsv parseFloat csvContent !! code = Some airport ->
      iataCode airport = code).
Proof.
  intros Hlines ci kept.
  assert (forall code,
             parseAirportsCsv parseFloat csvContent !! code
             = last (filter (fun a => iataCode a = code) kept)) as Hlookup.
  { intros code. unfold parseAirportsCsv. rewrite Hlines.
    fold ci. rewrite airportLoop_lookup. fold kept.
    by destruct (last (filter _ kept)). }
  split; [intros line; apply parseAirportRow_None|].
  split; [intros line m Hskip; unfold airportStep; by rewrite Hskip|].
  split; [done|].
  intros code airport. rewrite Hlookup. intros Hlast%last_Some_elem_of.
  by apply list_elem_of_filter in Hlast as [? _].
Qed.

(** C10. When the header line has no [iata_code], no [latitude_deg] or no
    [longitude_deg] field, every data row is skipped and the table is
    empty. *)
Theorem C10_missing_key_column (csvContent headerLine : string) (rows : list string) :
  csvLines csvContent = headerLine :: rows ->
  "iata_code" ∉ parseHeaders headerLine \/
  "latitude_deg" ∉ parseHeaders headerLine \/
  "longitude_deg" ∉ parseHeaders headerLine ->
  (forall line,
      parseAirportRow parseFloat (mkColumnIndex (parseHeaders headerLine)) line = None) /\
  parseAirportsCsv parseFloat csvContent = ∅.
Proof.
  intros Hlines Habs.
  assert (forall line,
             parseAirportRow parseFloat (mkColumnIndex (parseHeaders headerLine)) line
             = None) as Hskip.
  { intros line. apply parseAirportRow_None. cbn.
    destruct Habs as [H|[H|H]].
    - left. by apply fieldOrEmpty_absent.
    - right; left. by rewrite fieldOrEmpty_absent.
    - right; right. by rewrite fieldOrEmpty_absent. }
  split; [done|].
  unfold parseAirportsCsv. rewrite Hlines. by apply airportLoop_all_skipped.
Qed.

End AirportsParserFacts.

(* ===================================================================== *)
(** * The visualization builder                                           *)
(* ===================================================================== *)

Section BuilderFacts.
Import Js AirportsParser Builder.
Context {number : Type}.
Variable airportsMap : gmap string (Airport number).
Variable replacements : gmap string string.

Local Abbreviation step := (buildStep airportsMap replacements).
Local Abbreviation lookup := (lookupCode airportsMap replacements).
Local Abbreviation vizOf := (visualizationOf airportsMap replacements).
Local Abbreviation errOf := (errorOf airportsMap replacements).
Local Abbreviation unresOf := (unresolvedOf airportsMap replacements).

(** [getAirportByCode] finds an airport exactly for the codes that
    resolve in the sense of the specification. *)
Lemma getAirportByCode_resolves (code : string) :
  is_Some (getAirportByCode code airportsMap replacements) <->
  resolves airportsMap replacements code.
Proof.
  unfold getAirportByCode, resolves. rewrite !elem_of_dom.
  destruct (airportsMap !! code) as [a|] eqn:Hdirect.
  - split; [by left | by eauto].
  - destruct (replacements !! code) as [newCode|] eqn:Hrepl.
    + split.
      * intros Hnew. right. split; [by intros [? ?]|].
        exists newCode. by rewrite elem_of_dom.
      * intros [[? ?]|[_ (c & [= <-] & Hc%elem_of_dom)]]; done.
    + split; [by intros [? ?]|].
      intros [[? ?]|[_ (c & ? & _)]]; done.
Qed.

Lemma buildLoop_visualizations (flights : list Flight) :
  forall st : buildState,
    b_visualizations (fold_left step flights st)
    = b_visualizations st ++ omap vizOf flights.
Proof.
  induction flights as [|f flights IH]; intros st; cbn [fold_left].
  - by rewrite app_nil_r.
  - rewrite IH, omap_cons_eq. unfold buildStep, visualizationOf, lookupCode.
    destruct (getAirportByCode (departureAirport f) _ _); [|done].
    destruct (getAirportByCode (arrivalAirport f) _ _); [|done].
    cbn. by rewrite <- app_assoc.
Qed.

Lemma buildLoop_errors (flights : list Flight) :
  forall st : buildState,
    b_errors (fold_left step flights st) = b_errors st ++ omap errOf flights.
Proof.
  induction flights as [|f flights IH]; intros st; cbn [fold_left].
  - by rewrite app_nil_r.
  - rewrite IH, omap_cons_eq. unfold buildStep, errorOf, lookupCode.
    destruct (getAirportByCode (departureAirport f) _ _);
      [destruct (getAirportByCode (arrivalAirport f) _ _)|];
      cbn; by rewrite <- ?app_assoc.
Qed.

Lemma buildLoop_unresolved (flights : list Flight) :
  forall st : buildState,
    b_unresolvedAirports (fold_left step flights st)
    = list_to_set (omap unresOf flights) ∪ b_unresolvedAirports st.
Proof.
  induction flights as [|f flights IH]; intros st; cbn [fold_left].
  - cbn. set_solver.
  - rewrite IH, omap_cons_eq. unfold buildStep, unresolvedOf, lookupCode.
    destruct (getAirportByCode (departureAirport f) _ _);
      [destruct (getAirportByCode (arrivalAirport f) _ _)|];
      cbn; set_solver.
Qed.

Lemma buildLoop_distinct (flights : list Flight) :
  forall st : buildState,
    b_distinctAirports (fold_left step flights st)
    = list_to_set (flat_map (fun f => [departureAirport f; arrivalAirport f]) flights)
      ∪ b_distinctAirports st.
Proof.
  induction flights as [|f flights IH]; intros st; cbn [fold_left].
  - cbn. set_solver.
  - rewrite IH. unfold buildStep.
    destruct (getAirportByCode (departureAirport f) _ _);
      [destruct (getAirportByCode (arrivalAirport f) _ _)|];
      cbn; set_solver.
Qed.

Lemma visualizationOf_Some (f : Flight) (v : FlightVisualizationData number) :
  vizOf f = Some v -> flight v = f /\ bothResolve airportsMap replacements f.
Proof.
  unfold visualizationOf, bothResolve.
  destruct (lookup (departureAirport f)) as [a|]; [|done].
  destruct (lookup (arrivalAirport f)) as [b|]; [|done].
  intros [= <-]. by eauto.
Qed.

Lemma visualizationOf_is_Some (f : Flight) :
  bothResolve airportsMap replacements f -> is_Some (vizOf f).
Proof.
  unfold visualizationOf, bothResolve. intros [[a ->] [b ->]]. by eauto.
Qed.

(** The flights behind the visualizations are the flights whose two
    codes are found, in input order. *)
Lemma omap_visualizationOf_flights (flights : list Flight) :
  flight <$> omap vizOf flights = filter (bothResolve airportsMap replacements) flights.
Proof.
  induction flights as [|f flights IH]; [done|].
  rewrite omap_cons_eq, filter_cons.
  destruct (vizOf f) as [v|] eqn:Hv.
  - apply visualizationOf_Some in Hv as [Hf Hboth].
    rewrite decide_True by done. cbn. by rewrite IH, Hf.
  - rewrite decide_False; [done|].
    intros Hboth%visualizationOf_is_Some. rewrite Hv in Hboth. by destruct Hboth.
Qed.

(** C2. A flight of the input produces a visualization if and only if
    both its departure and its arrival code resolve, where a code resolves
    when it is a key of the airport table, or is not but the replacement
    table maps it to a key of the airport table.  The visualizations are
    those of the resolving flights, in input order. *)
Theorem C2_visualized_iff_both_resolve (flights : list Flight) :
  let r := buildFlightVisualizations flights airportsMap replacements in
  (forall code,
      is_Some (getAirportByCode code airportsMap replacements) <->
      resolves airportsMap replacements code) /\
  visualizations r = omap vizOf flights /\
  flight <$> visualizations r = filter (bothResolve airportsMap replacements) flights /\
  (forall f,
      f ∈ flights ->
      ((exists v, v ∈ visualizations r /\ flight v = f) <->
       resolves airportsMap replacements (departureAirport f) /\
       resolves airportsMap replacements (arrivalAirport f))).
Proof.
  intros r.
  assert (visualizations r = omap vizOf flights) as Hviz.
  { unfold r, buildFlightVisualizations. cbn. by rewrite buildLoop_visualizations. }
  assert (flight <$> visualizations r
          = filter (bothResolve airportsMap replacements) flights) as Hflights
    by (rewrite Hviz; apply omap_visualizationOf_flights).
  split; [apply getAirportByCode_resolves|]. split; [done|]. split; [done|].
  intros f Hf. rewrite <- !getAirportByCode_resolves.
  transitivity (f ∈ flight <$> visualizations r).
  - rewrite list_elem_of_fmap. split; intros (v & ? & ?); exists v; done.
  - rewrite Hflights, list_elem_of_filter. unfold bothResolve, lookupCode. tauto.
Qed.

(** C9. When the departure code of a flight is not found, its iteration
    pushes the departure error and nothing else: the arrival code is not
    looked up, the only code added to [unresolvedAirports] is the
    departure code, and both codes are added to [distinctAirports].  Over
    the whole input every flight contributes at most one error and at most
    one unresolved code. *)
Theorem C9_departure_failure_short_circuits (flights : list Flight) (f : Flight) :
  getAirportByCode (departureAirport f) airportsMap replacements = None ->
  let r := buildFlightVisualizations flights airportsMap replacements in
  (forall st,
      step st f
      = mkBuild (b_visualizations st)
                (b_errors st ++ [departureError f])
                ({[departureAirport f]} ∪ b_unresolvedAirports st)
                ({[arrivalAirport f]} ∪ ({[departureAirport f]} ∪ b_distinctAirports st))) /\
  (forall st code,
      code ∈ b_unresolvedAirports (step st f) ->
      code = departureAirport f \/ code ∈ b_unresolvedAirports st) /\
  errOf f = Some (departureError f) /\
  unresOf f = Some (departureAirport f) /\
  vizErrors r = omap errOf flights /\
  unresolvedAirports r = list_to_set (omap unresOf flights) /\
  distinctAirports r
  = list_to_set (flat_map (fun f => [departureAirport f; arrivalAirport f]) flights) /\
  length (vizErrors r) + length (visualizations r) = length flights.
Proof.
  intros Hdep r.
  assert (forall st,
             step st f
             = mkBuild (b_visualizations st)
                       (b_errors st ++ [departureError f])
                       ({[departureAirport f]} ∪ b_unresolvedAirports st)
                       ({[arrivalAirport f]} ∪
                        ({[departureAirport f]} ∪ b_distinctAirports st))) as Hstep
    by (intros st; unfold buildStep; by rewrite Hdep).
  split; [done|]. split.
  { intros st code. rewrite Hstep. cbn. set_solver. }
  split; [unfold errorOf, lookupCode; by rewrite Hdep|].
  split; [unfold unresolvedOf, lookupCode; by rewrite Hdep|].
  unfold r, buildFlightVisualizations. cbn.
  rewrite buildLoop_errors, buildLoop_unresolved, buildLoop_distinct,
    buildLoop_visualizations. cbn.
  split; [done|]. split; [set_solver|]. split; [set_solver|].
  clear. induction flights as [|g gs IH]; [done|].
  rewrite !omap_cons_eq.
  assert ((errOf g = None /\ is_Some (vizOf g)) \/
          (is_Some (errOf g) /\ vizOf g = None)) as Hcase.
  { unfold errorOf, visualizationOf.
    destruct (lookup (departureAirport g));
      [destruct (lookup (arrivalAirport g))|]; eauto. }
  destruct Hcase as [[-> [v ->]]|[[e ->] ->]]; cbn [length]; lia.
Qed.

End BuilderFacts.

(* ===================================================================== *)
(** * Colour bands                                                        *)
(* ===================================================================== *)

Section ColourFacts.
Import MapView.

Lemma Qle_bool_false (x y : Q) : (y < x)%Q -> Qle_bool x y = false.
Proof.
  intros Hlt. destruct (Qle_bool x y) eqn:Hle; [|done].
  apply Qle_bool_iff in Hle. by apply Qlt_not_le in Hlt.
Qed.

(** C3. With a non-zero maximum, the ratio [frequency / maxFrequency]
    selects blue up to 0.15, cyan up to 0.3, green up to 0.5, orange up to
    0.75 and red above, each bound belonging to the lower band (15 of 100
    is blue, 151 of 1000 is cyan); with a zero maximum every frequency
    gets the default colour. *)
Theorem C3_frequency_bands (frequency maxFrequency : Q) :
  ((maxFrequency == 0)%Q -> getFrequencyColor frequency maxFrequency = "#667eea") /\
  (~ (maxFrequency == 0)%Q ->
   let ratio := (frequency / maxFrequency)%Q in
   ((ratio <= 15 # 100)%Q -> getFrequencyColor frequency maxFrequency = "#3b82f6") /\
   ((15 # 100 < ratio)%Q -> (ratio <= 3 # 10)%Q ->
    getFrequencyColor frequency maxFrequency = "#06b6d4") /\
   ((3 # 10 < ratio)%Q -> (ratio <= 1 # 2)%Q ->
    getFrequencyColor frequency maxFrequency = "#10b981") /\
   ((1 # 2 < ratio)%Q -> (ratio <= 3 # 4)%Q ->
    getFrequencyColor frequency maxFrequency = "#f59e0b") /\
   ((3 # 4 < ratio)%Q -> getFrequencyColor frequency maxFrequency = "#ef4444")) /\
  getFrequencyColor (num 15) (num 100) = "#3b82f6" /\
  getFrequencyColor (num 151) (num 1000) = "#06b6d4".
Proof.
  split; [|split; [|done]].
  - intros Hzero%Qeq_bool_iff. unfold getFrequencyColor. by rewrite Hzero.
  - intros Hnz ratio. unfold getFrequencyColor. fold ratio.
    destruct (Qeq_bool maxFrequency 0) eqn:Hz; [by apply Qeq_bool_iff in Hz|].
    repeat split.
    + intros H1%Qle_bool_iff. by rewrite H1.
    + intros L1%Qle_bool_false H2%Qle_bool_iff. by rewrite L1, H2.
    + intros L2 H3%Qle_bool_iff.
      assert (15 # 100 < ratio)%Q as L1 by (eapply Qlt_trans; [|exact L2]; done).
      apply Qle_bool_false in L1, L2. by rewrite L1, L2, H3.
    + intros L3 H4%Qle_bool_iff.
      assert (3 # 10 < ratio)%Q as L2 by (eapply Qlt_trans; [|exact L3]; done).
      assert (15 # 100 < ratio)%Q as L1 by (eapply Qlt_trans; [|exact L2]; done).
      apply Qle_bool_false in L1, L2, L3. by rewrite L1, L2, L3, H4.
    + intros L4.
      assert (1 # 2 < ratio)%Q as L3 by (eapply Qlt_trans; [|exact L4]; done).
      assert (3 # 10 < ratio)%Q as L2 by (eapply Qlt_trans; [|exact L3]; done).
      assert (15 # 100 < ratio)%Q as L1 by (eapply Qlt_trans; [|exact L2]; done).
      apply Qle_bool_false in L1, L2, L3, L4. by rewrite L1, L2, L3, L4.
Qed.

End ColourFacts.

(* ===================================================================== *)
(** * Route keys                                                          *)
(* ===================================================================== *)

Section RouteKeyFacts.
Import Js MapView.

Lemma string_app_cons (c : ascii) (r s : string) :
  String c r +:+ s = String c (r +:+ s).
Proof. done. Qed.





End RouteKeyFacts.

(* ===================================================================== *)
(** * Route deduplication                                                 *)
(* ===================================================================== *)

Section RouteFacts.
Import Js MapView.
Context {number LatLng : Type}.
Variable geodesic : number * number -> number * number -> list LatLng.

Local Abbreviation Viz := (FlightVisualizationData number).
Local Abbreviation Group := (RouteGroup (number := number) (LatLng := LatLng)).
Local Abbreviation hasKey k := (fun u : Viz => String.eqb (routeKey u) k).



Section DrawLoop.
Variable routeFlights : gmap string (list Viz).
Variable airportFrequency : gmap string nat.
Variable maxFrequency : nat.

Local Abbreviation draw := (drawRoute geodesic routeFlights airportFrequency maxFrequency).
Local Abbreviation loop := (drawLoop geodesic routeFlights airportFrequency maxFrequency).


End DrawLoop.

Lemma omap_all_Some_length {A B} (f : A -> option B) (l : list A) :
  (forall x, In x l -> is_Some (f x)) -> length (omap f l) = length l.
Proof.
  induction l as [|x l IH]; intros Hall; [done|].
  rewrite omap_cons_eq. destruct (Hall x) as [y ->]; [by left|].
  cbn [length]. f_equal. apply IH. intros z Hz. apply Hall. by right.
Qed.

(** A path of at least ten points gives every segment but possibly the
    last at least two points. *)
Lemma segmentAt_is_Some (pathPoints : list LatLng) (fromColor toColor : string) (i : nat) :
  10 <= length pathPoints -> i < 9 ->
  is_Some (segmentAt (number := number) pathPoints fromColor toColor i).
Proof.
  intros Hlen Hi. unfold segmentAt, numSegments.
  replace (i =? 10 - 1) with false by (symmetry; apply Nat.eqb_neq; lia).
  rewrite length_take, length_drop.
  pose proof (Nat.div_mod_eq (length pathPoints) 10) as Hdiv.
  assert (length pathPoints mod 10 < 10) as Hmod by (apply Nat.mod_upper_bound; lia).
  set (size := length pathPoints / 10) in *. clearbody size.
  assert (i * size <= 8 * size) as Hstart by nia.
  match goal with
  | |- context [?n <? 2] => destruct (Nat.ltb_spec n 2) as [Hshort|_]
  end; [lia | by eauto].
Qed.

Lemma routeSegments_long (fromCoords toCoords : number * number)
      (fromColor toColor : string) :
  10 <= length (geodesic fromCoords toCoords) ->
  9 <= length (routeSegments geodesic fromCoords toCoords fromColor toColor).
Proof.
  intros Hlen. unfold routeSegments, numSegments.
  change (seq 0 10) with (seq 0 9 ++ [9]). rewrite omap_app, length_app.
  rewrite omap_all_Some_length.
  - rewrite length_seq. lia.
  - intros i Hi%in_seq. apply segmentAt_is_Some; lia.
Qed.

(** The segments of a drawn route follow the path between its airports,
    and on a long enough path every one of them opens the popup. *)
Lemma drawRoute_points (routeFlights : gmap string (list Viz))
      (airportFrequency : gmap string nat) (maxFrequency : nat) (viz : Viz) :
  let g := drawRoute geodesic routeFlights airportFrequency maxFrequency viz in
  seg_points <$> rg_segments g
  = seg_points <$> routeSegments geodesic (coordinates (fromAirport viz))
                                 (coordinates (toAirport viz))
                                 (pp_fromColor (rg_popupContent g))
                                 (pp_toColor (rg_popupContent g)).
Proof.
  cbn. destruct (_ !! 4); [|done]. by rewrite <- list_fmap_compose.
Qed.

Lemma drawRoute_popup_bound (routeFlights : gmap string (list Viz))
      (airportFrequency : gmap string nat) (maxFrequency : nat) (viz : Viz) :
  let g := drawRoute geodesic routeFlights airportFrequency maxFrequency viz in
  10 <= length (geodesic (coordinates (fromAirport viz)) (coordinates (toAirport viz))) ->
  9 <= length (rg_segments g) /\
  forall s, In s (rg_segments g) -> seg_popup s = Some (rg_popupContent g).
Proof.
  intros g Hlen. subst g. unfold drawRoute. cbn [rg_segments rg_popupContent].
  match goal with
  | |- context [?drawn !! 4] => set (flightSegments := drawn)
  end.
  assert (9 <= length flightSegments) as Hsegs by by apply routeSegments_long.
  destruct (flightSegments !! 4) as [middle|] eqn:Hmid.
  - rewrite length_fmap. split; [done|].
    intros seg (seg0 & -> & _)%list_elem_of_In%list_elem_of_fmap. done.
  - apply lookup_ge_None in Hmid. lia.
Qed.


(** Directions and keys. *)
Lemma sameDirection_spec (v u : Viz) :
  sameDirection v u = true <->
  iataCode (fromAirport u) = iataCode (fromAirport v) /\
  iataCode (toAirport u) = iataCode (toAirport v).
Proof. unfold sameDirection. by rewrite andb_true_iff, !String.eqb_eq. Qed.

Lemma oppositeDirection_spec (v u : Viz) :
  oppositeDirection v u = true <->
  iataCode (fromAirport u) = iataCode (toAirport v) /\
  iataCode (toAirport u) = iataCode (fromAirport v).
Proof. unfold oppositeDirection. by rewrite andb_true_iff, !String.eqb_eq. Qed.



Lemma samePair_refl (v : Viz) : samePair v v = true.
Proof. unfold samePair. apply orb_true_iff. left. by apply sameDirection_spec. Qed.

(** A flight is listed both as outbound and as return only on a route from
    an airport to itself. *)
Lemma directions_disjoint (first u : Viz) :
  sameDirection first u = true -> oppositeDirection first u = true ->
  iataCode (fromAirport first) = iataCode (toAirport first).
Proof.
  intros [Hfrom _]%sameDirection_spec [Hfrom' _]%oppositeDirection_spec. congruence.
Qed.






End RouteFacts.

(* ===================================================================== *)
(** * Playback and cancellation                                           *)
(* ===================================================================== *)

Section PlaybackFacts.
Import Js MapView.
Context {number LatLng : Type}.
Variable geodesic : number * number -> number * number -> list LatLng.

Local Abbreviation Viz := (FlightVisualizationData number).
Local Abbreviation Scene' := (Scene (number := number) (LatLng := LatLng)).

(** Once the flag is set both loops unwind at their next check. *)
Lemma segmentLoop_aborted (pathPoints : list LatLng) (fromColor toColor : string)
      (idxs : list nat) (sc : Scene') :
  animationAborted sc = true ->
  segmentLoop pathPoints fromColor toColor idxs sc = (removePlaneMarker sc, None).
Proof. intros Hab. destruct idxs; cbn; [done|]. by rewrite Hab. Qed.

Lemma flightLoop_aborted (pb : Playback) (sortedFlights : list Viz)
      (shownAirports : gset string) (sc : Scene') :
  animationAborted sc = true ->
  flightLoop geodesic pb sortedFlights shownAirports sc = (Finished, sc).
Proof. intros Hab. destruct sortedFlights; cbn; [done|]. by rewrite Hab. Qed.

(** The static redraw does not look at what was drawn before. *)
Lemma visualizeFlights_scene (visualizations : list Viz) (sc : Scene') :
  visualizeFlights geodesic visualizations sc
  = mkScene (markers (renderStatic geodesic visualizations))
            (flightLines (renderStatic geodesic visualizations))
            (planeMarker sc) (animationAborted sc).
Proof. unfold renderStatic, visualizeFlights. by destruct visualizations. Qed.

Lemma stopAnimation_scene (visualizations : list Viz) (sc : Scene') :
  stopAnimation geodesic visualizations sc = stoppedScene geodesic visualizations.
Proof. unfold stopAnimation. by rewrite visualizeFlights_scene. Qed.

(** Stopping a suspended playback: the static view is redrawn at once;
    when the pending timer fires, the interrupted iteration of
    [startAnimation] still runs its last statement and adds the marker of
    the arrival airport of the interrupted flight unless that airport was
    already shown during the playback. *)
Theorem stop_then_timer (visualizations : list Viz) (fr : Frame) (sc : Scene') :
  tick geodesic visualizations (stop geodesic visualizations (Sleeping fr, sc))
  = (Finished,
     if bool_decide (iataCode (toAirport (fr_viz fr)) ∈ fr_shownAirports fr)
     then stoppedScene geodesic visualizations
     else addAirportMarker (toAirport (fr_viz fr))
                           (toColorOf (playbackOf visualizations) (fr_viz fr))
                           (stoppedScene geodesic visualizations)).
Proof.
  unfold tick, stop. cbn [fst snd]. rewrite stopAnimation_scene.
  unfold resume, continueFlightRoute.
  rewrite segmentLoop_aborted by done.
  change (removePlaneMarker (stoppedScene geodesic visualizations))
    with (stoppedScene geodesic visualizations).
  unfold showAirport. case_bool_decide; by rewrite flightLoop_aborted.
Qed.

(** X24. Whenever Stop is pressed while a playback is in progress, the routes
    and the plane marker end as in the direct rendering, and the markers are
    those of the direct rendering followed by one more marker for the
    arrival airport of the interrupted flight if the playback had not shown
    it yet. *)
Corollary stop_during_playback (visualizations : list Viz) (k : nat)
          (fr : Frame) (sc : Scene') :
  playFor geodesic visualizations k = (Sleeping fr, sc) ->
  let final := stopAfter geodesic visualizations k in
  let direct := renderStatic geodesic visualizations in
  fst final = Finished /\
  flightLines (snd final) = flightLines direct /\
  planeMarker (snd final) = None /\
  markers (snd final)
  = markers direct ++
    (if bool_decide (iataCode (toAirport (fr_viz fr)) ∈ fr_shownAirports fr)
     then []
     else [mkMarker (toAirport (fr_viz fr))
                    (toColorOf (playbackOf visualizations) (fr_viz fr)) None]).
Proof.
  intros Hplay. unfold stopAfter. rewrite Hplay, stop_then_timer.
  cbn [fst snd]. case_bool_decide; cbn; by rewrite ?app_nil_r.
Qed.

End PlaybackFacts.

Section PlaybackRun.
Import MapView Examples.

(** C5 (the code departs from it). One flight HEL -> JFK; Stop is pressed
    while the first segment is shown.  The playback is in progress, the
    stop redraws the static view, and when the pending timer fires a
    second JFK marker, without popup, is added on top of it: the markers
    are not those of the direct rendering. *)
Theorem C5_stop_leaves_extra_marker :
  let played := playFor path51 [helJfk] 0 in
  let stopped := stopAfter path51 [helJfk] 0 in
  let direct := renderStatic path51 [helJfk] in
  (exists fr, fst played = Sleeping fr /\ fr_viz fr = helJfk /\ fr_segment fr = 0) /\
  fst stopped = Finished /\
  flightLines (snd stopped) = flightLines direct /\
  planeMarker (snd stopped) = None /\
  (mk_airport <$> markers direct) = [HEL; JFK] /\
  markers (snd stopped) = markers direct ++ [mkMarker JFK "#ef4444" None] /\
  markers (snd stopped) <> markers direct.
Proof.
  vm_compute. repeat split; try done. eexists. repeat split.
Qed.

End PlaybackRun.

(* ===================================================================== *)
(** * The results on the sample inputs                                    *)
(* ===================================================================== *)

Section SampleRuns.
Import Js FlightDataParser AirportsParser Builder MapView Platform Examples.

(** On counts up to 120 the rational bands and the binary64 bands of
    [getFrequencyColor] coincide. *)
Example bands_agree_on_binary64 :
  forallb (fun m =>
    forallb (fun f => String.eqb (getFrequencyColor (num f) (num m))
                                 (getFrequencyColorF (floatOfNat f) (floatOfNat m)))
            (seq 0 (S m)))
    (seq 0 121) = true.
Proof. vm_compute. reflexivity. Qed.

(** The end-to-end scenario of the specification. *)
Example end_to_end :
  let parsed := parseFlightsCsv DateUTC flightsCsv in
  let built := buildFlightVisualizations (flights parsed) airportsTable replacementTable in
  successfulRows parsed = 1 /\ failedRows parsed = 2 /\
  length (visualizations built) = 1 /\
  elements (distinctAirports built) ≡ₚ ["HEL"; "JFK"].
Proof. vm_compute. repeat split; try done. apply perm_swap. Qed.

Lemma C1_row_counts_witness :
  let r := parseFlightsCsv DateUTC flightsCsvWithBlankLines in
  let r' := parseFlightsCsv DateUTC flightsCsvWithoutFlightCode in
  (totalRows r = 1 /\ successfulRows r = 1 /\ failedRows r = 0) /\
  (totalRows r' = 2 /\ successfulRows r' = 0 /\ failedRows r' = 2).
Proof.
  destruct (C1_row_counts DateUTC flightsCsvWithBlankLines)
    as (Htotal & Hsum & Hflights & _).
  destruct (C1_row_counts DateUTC flightsCsvWithoutFlightCode)
    as (Htotal' & _ & _ & Hshort).
  destruct (Hshort headerWithoutFlightCode)
    as [Hs Hf]; [vm_compute; reflexivity | vm_compute; discriminate |].
  cbv zeta in *. split.
  - assert (length (flights (parseFlightsCsv DateUTC flightsCsvWithBlankLines)) = 1) as Hone
      by (vm_compute; reflexivity).
    assert (length (dataLines flightsCsvWithBlankLines) = 1) as Hdata
      by (vm_compute; reflexivity).
    rewrite Hdata in Htotal. rewrite Hone in Hflights. repeat split; lia.
  - rewrite Hs, Hf, Htotal'. vm_compute. repeat split.
Defined.

Lemma C6_two_layouts_same_instant_witness :
  parseTimestamp DateUTC "2019-07-28 20:20:00" = Some 1564345200000%Z /\
  parseTimestamp DateUTC "28.07.2019 20:20:00" = Some 1564345200000%Z.
Proof.
  apply (C6_two_layouts_same_instant DateUTC). vm_compute. reflexivity.
Defined.

Lemma C7_missing_columns_witness :
  exists message,
    parseFlightsCsv DateUTC flightsCsvWithoutFlightCode
    = mkParseResult [] [message] 2 0 2 /\
    message = "Missing required columns: flight_code" /\
    mentions "flight_code" message.
Proof.
  destruct (C7_missing_columns DateUTC flightsCsvWithoutFlightCode
              headerWithoutFlightCode
              (tail (csvLines flightsCsvWithoutFlightCode)))
    as (message & Hresult & Hmessage & Hnames).
  - vm_compute. reflexivity.
  - exists "flight_code". split; [set_solver|].
    rewrite list_elem_of_In. vm_compute. intuition discriminate.
  - exists message. split; [exact Hresult|]. split; [exact Hmessage|].
    apply Hnames; [set_solver|].
    rewrite list_elem_of_In. vm_compute. intuition discriminate.
Defined.

Lemma C8_airport_rows_witness :
  name <$> parseAirportsCsv parseFloatDec airportsCsv !! "HEL" = Some "Helsinki again" /\
  parseAirportsCsv parseFloatDec airportsCsv !! "XXX" = None /\
  parseAirportsCsv parseFloatDec airportsCsv !! "" = None.
Proof.
  destruct (C8_airport_rows parseFloatDec airportsCsv airportsHeader airportRows)
    as (_ & _ & Hlookup & _); [vm_compute; reflexivity|].
  rewrite !Hlookup. vm_compute. repeat split.
Defined.

Lemma C10_missing_key_column_witness :
  parseAirportsCsv parseFloatDec airportsCsvWithoutLatitude = ∅.
Proof.
  apply (C10_missing_key_column parseFloatDec airportsCsvWithoutLatitude
           "iata_code,name,longitude_deg" ["HEL,Helsinki Vantaa,24.9633"]).
  - vm_compute. reflexivity.
  - right; left. rewrite list_elem_of_In. vm_compute. intuition discriminate.
Defined.

Lemma C2_visualized_iff_both_resolve_witness :
  let flights := [unknownFlight; flightTo "HEM" "JFK" 0%Z] in
  let r := buildFlightVisualizations flights airportsTable replacementTable in
  flight <$> visualizations r = [flightTo "HEM" "JFK" 0%Z] /\
  resolves airportsTable replacementTable "HEM" /\
  ~ resolves airportsTable replacementTable "ZZZ".
Proof.
  destruct (C2_visualized_iff_both_resolve airportsTable replacementTable
              [unknownFlight; flightTo "HEM" "JFK" 0%Z])
    as (Hres & _ & Hflights & _).
  cbv zeta. rewrite Hflights, <- !Hres. vm_compute.
  split; [reflexivity|]. split; [by eexists|]. by intros [? ?].
Defined.

Lemma C9_departure_failure_short_circuits_witness :
  let r := buildFlightVisualizations [unknownFlight] airportsTable replacementTable in
  vizErrors r = [departureError unknownFlight] /\
  unresolvedAirports r = {["ZZZ"]} /\
  ("YYY" ∉ unresolvedAirports r) /\
  ("YYY" ∈ distinctAirports r).
Proof.
  destruct (C9_departure_failure_short_circuits airportsTable replacementTable
              [unknownFlight] unknownFlight)
    as (_ & _ & _ & _ & Herr & Hunres & Hdistinct & _); [vm_compute; reflexivity|].
  cbv zeta. rewrite Herr, Hunres, Hdistinct.
  change (omap (errorOf airportsTable replacementTable) [unknownFlight])
    with [departureError unknownFlight].
  change (omap (unresolvedOf airportsTable replacementTable) [unknownFlight])
    with ["ZZZ"].
  cbn [flat_map app departureAirport arrivalAirport unknownFlight flightTo].
  split; [done|]. split; [set_solver|]. split; set_solver.
Defined.

Lemma C3_frequency_bands_witness :
  getFrequencyColor (num 3) (num 20) = "#3b82f6" /\
  getFrequencyColor (num 4) (num 20) = "#06b6d4" /\
  getFrequencyColor (num 20) (num 20) = "#ef4444".
Proof.
  destruct (C3_frequency_bands (num 3) (num 20)) as (_ & Hblue & _).
  destruct (C3_frequency_bands (num 4) (num 20)) as (_ & Hcyan & _).
  destruct (C3_frequency_bands (num 20) (num 20)) as (_ & Hred & _).
  split; [|split].
  - apply Hblue; done.
  - apply Hcyan; done.
  - apply Hred; done.
Defined.


(** On the round trip the single group is drawn HEL -> JFK and lists one
    flight in each direction. *)
Example round_trip_one_group :
  (fun g => (rg_viz g, pp_outboundFlights (rg_popupContent g),
             pp_returnFlights (rg_popupContent g), length (rg_segments g)))
    <$> routeGroups path51 roundTrip
  = [(helJfk, [helJfk], [jfkHel], 10)].
Proof. vm_compute. reflexivity. Qed.

(** The restriction to IATA codes matters: the route key joins the two
    codes with ["-"], so on codes that contain it (which are no IATA codes)
    the keys of [A-B]/[C] and of [A]/[B-C] are both ["A-B-C"], and the pair
    flown in both directions gets no route group of its own. *)
Remark hyphenated_codes_collide : ~ routeDeduplication path51 hyphenated.
Proof.
  intros Hclaim.
  destruct (Hclaim (createFlightVisualization (flightTo "A" "B-C" 1%Z)
                      (airportAt "A" 3 3) (airportAt "B-C" 4 4))
                   (createFlightVisualization (flightTo "B-C" "A" 2%Z)
                      (airportAt "B-C" 4 4) (airportAt "A" 3 3)))
    as (first & g & _ & Hone & _).
  - right; left. reflexivity.
  - right; right; left. reflexivity.
  - vm_compute. reflexivity.
  - vm_compute in Hone. discriminate.
Qed.

End SampleRuns.

(* ===================================================================== *)
(** * Further properties: the line tokenizer                              *)
(* ===================================================================== *)

Section TokenizerFacts.
Import Js FlightDataParser.

Lemma trimStart_clean (s : string) : startsClean (trimStart s).
Proof.
  induction s as [|c s IH]; [done|]. cbn.
  destruct (isWhiteSpace c) eqn:Hc; [done|]. exact Hc.
Qed.

Lemma trimStart_of_clean (s : string) : startsClean s -> trimStart s = s.
Proof. destruct s as [|c s]; [done|]. cbn. by intros ->. Qed.

Lemma trimEnd_clean (s : string) : startsClean s -> startsClean (trimEnd s).
Proof.
  destruct s as [|c s]; [done|]. cbn. intros Hc.
  destruct (trimEnd s); [by rewrite Hc|done].
Qed.

Lemma trimEnd_idem (s : string) : trimEnd (trimEnd s) = trimEnd s.
Proof.
  induction s as [|c s IH]; [done|]. cbn.
  destruct (trimEnd s) as [|d r] eqn:Hr.
  - destruct (isWhiteSpace c) eqn:Hc; [done|]. cbn. by rewrite Hc.
  - cbn. cbn in IH. destruct (trimEnd r) as [|e r'] eqn:Hr'.
    + destruct (isWhiteSpace d); [done|]. by rewrite IH.
    + by rewrite IH.
Qed.

(** [trim] is idempotent. *)
Lemma trim_idem (s : string) : trim (trim s) = trim s.
Proof.
  unfold trim.
  rewrite (trimStart_of_clean (trimEnd (trimStart s)))
    by apply trimEnd_clean, trimStart_clean.
  apply trimEnd_idem.
Qed.

(** Trimming does not create characters. *)
Lemma includes_trimStart (c : ascii) (s : string) :
  includes c (trimStart s) = true -> includes c s = true.
Proof.
  induction s as [|d s IH]; [done|]. cbn.
  destruct (isWhiteSpace d); [|done].
  intros H%IH. rewrite H. apply orb_true_r.
Qed.

Lemma includes_trimEnd (c : ascii) (s : string) :
  includes c (trimEnd s) = true -> includes c s = true.
Proof.
  induction s as [|d s IH]; [done|]. cbn.
  destruct (trimEnd s) as [|e r].
  - destruct (isWhiteSpace d); [done|]. cbn. rewrite orb_false_r. by intros ->.
  - cbn -[includes]. cbn. intros [->|H]%orb_true_iff; [done|].
    rewrite IH; [apply orb_true_r|]. exact H.
Qed.

Lemma includes_trim (c : ascii) (s : string) :
  includes c (trim s) = true -> includes c s = true.
Proof. unfold trim. by intros ?%includes_trimEnd%includes_trimStart. Qed.

Lemma includes_app (c : ascii) (a b : string) :
  includes c (a +:+ b) = includes c a || includes c b.
Proof.
  induction a as [|d a IH]; [done|].
  change (includes c (String d (a +:+ b)) = includes c (String d a) || includes c b).
  cbn. by rewrite IH, orb_assoc.
Qed.

Lemma split_not_nil (sep : ascii) (s : string) : split sep s <> [].
Proof.
  induction s as [|c s IH]; [done|]. cbn.
  destruct (Ascii.eqb c sep); [done|]. by destruct (split sep s).
Qed.

(** The loop on a line without quotes: the pending field is completed by
    the first comma-separated piece, the other pieces follow. *)
Lemma parseCsvLine_loop_unquoted (line : string) :
  includes dquote line = false ->
  forall (result : list string) (current : string),
    parseCsvLine_loop line result current false
    = result ++
      match split ","%char line with
      | piece :: pieces => trim (current +:+ piece) :: (trim <$> pieces)
      | [] => []
      end.
Proof.
  induction line as [|c line IH]; intros Hq result current.
  - cbn. by rewrite string_app_empty_r.
  - cbn in Hq. apply orb_false_iff in Hq as [Hc Hq].
    cbn [parseCsvLine_loop split]. rewrite Hc. cbn [negb andb].
    rewrite andb_true_r.
    destruct (Ascii.eqb c ","%char) eqn:Hcomma.
    + rewrite (IH Hq). rewrite string_app_empty_r.
      pose proof (split_not_nil ","%char line) as Hne.
      destruct (split ","%char line) as [|piece pieces]; [done|].
      by rewrite <- app_assoc.
    + rewrite (IH Hq).
      pose proof (split_not_nil ","%char line) as Hne.
      destruct (split ","%char line) as [|piece pieces]; [done|].
      by rewrite string_app_assoc.
Qed.

(** X1. On a line that contains no double quote, [parseCsvLine] returns the
    comma-separated pieces of the line, each trimmed; in particular it
    returns one field more than the line has commas. *)
Theorem X1_parseCsvLine_unquoted (line : string) :
  includes dquote line = false ->
  parseCsvLine line = trim <$> split ","%char line.
Proof.
  intros Hq. unfold parseCsvLine. rewrite parseCsvLine_loop_unquoted by done.
  pose proof (split_not_nil ","%char line) as Hne.
  by destruct (split ","%char line).
Qed.

(** Every field the loop adds is trimmed and free of quotes, provided
    the pending field is free of quotes. *)
Lemma parseCsvLine_loop_fields (line : string) :
  forall (result : list string) (current : string) (inQuotes : bool) (f : string),
    includes dquote current = false ->
    f ∈ parseCsvLine_loop line result current inQuotes ->
    f ∈ result \/ (trim f = f /\ includes dquote f = false).
Proof.
  assert (forall current, includes dquote current = false ->
            trim (trim current) = trim current /\
            includes dquote (trim current) = false) as Hfield.
  { intros current Hcur. split; [apply trim_idem|].
    destruct (includes dquote (trim current)) eqn:Hin; [|done].
    apply includes_trim in Hin. congruence. }
  induction line as [|c line IH]; intros result current inQuotes f Hcur; cbn.
  - intros [Hin| ->%list_elem_of_singleton]%elem_of_app; [by left|].
    right. by apply Hfield.
  - destruct (Ascii.eqb c dquote) eqn:Hc; [by apply IH|].
    destruct (Ascii.eqb c ","%char && negb inQuotes).
    + intros [Hin|Hin]%IH; [|by right|done].
      apply elem_of_app in Hin as [Hin| ->%list_elem_of_singleton]; [by left|].
      right. by apply Hfield.
    + apply IH. rewrite includes_app, Hcur. cbn. by rewrite Hc.
Qed.

Lemma parseCsvLine_loop_not_nil (line : string) :
  forall (result : list string) (current : string) (inQuotes : bool),
    parseCsvLine_loop line result current inQuotes <> [].
Proof.
  induction line as [|c line IH]; intros result current inQuotes; cbn.
  - by destruct result.
  - destruct (Ascii.eqb c dquote); [apply IH|].
    destruct (Ascii.eqb c ","%char && negb inQuotes); apply IH.
Qed.

(** X2. Whatever the line, [parseCsvLine] returns at least one field, and
    every field is trimmed and contains no double quote: quotes only toggle
    the quoted state and are never part of a value. *)
Theorem X2_parseCsvLine_fields (line : string) :
  parseCsvLine line <> [] /\
  forall f, f ∈ parseCsvLine line -> trim f = f /\ includes dquote f = false.
Proof.
  split.
  - apply parseCsvLine_loop_not_nil.
  - intros f [Hin|H]%parseCsvLine_loop_fields; [|done|done].
    by apply elem_of_nil in Hin.
Qed.

End TokenizerFacts.

(* ===================================================================== *)
(** * Further properties: the timestamp normalizer                        *)
(* ===================================================================== *)

Section TimestampFacts.
Import Js FlightDataParser.
Variable Date : string -> option instant.

(** X3. [parseTimestamp] fails on blank input whatever [Date] does, ignores
    white space around the value, and hands the trimmed value to [Date]
    unchanged unless it has exactly three dot-separated parts (so a value
    with fractional seconds, or with no dot, is never rewritten). *)
Theorem X3_parseTimestamp_trimmed (timestamp : string) :
  (trim timestamp = "" -> parseTimestamp Date timestamp = None) /\
  parseTimestamp Date (trim timestamp) = parseTimestamp Date timestamp /\
  (trim timestamp <> "" -> length (split "."%char (trim timestamp)) <> 3 ->
   parseTimestamp Date timestamp = Date (trim timestamp)).
Proof.
  split; [|split].
  - intros Hblank. unfold parseTimestamp. rewrite Hblank. cbn. by rewrite orb_true_r.
  - unfold parseTimestamp. rewrite trim_idem.
    destruct (String.eqb_spec (trim timestamp) "") as [Hblank|Hvalue].
    + by rewrite !orb_true_r.
    + destruct (String.eqb_spec timestamp "") as [->|_]; [done|]. done.
  - intros Hvalue Hparts. unfold parseTimestamp.
    destruct (String.eqb_spec timestamp "") as [->|_]; [done|].
    destruct (String.eqb_spec (trim timestamp) "") as [?|_]; [done|]. cbn [orb].
    apply Nat.eqb_neq in Hparts. by rewrite Hparts, andb_false_r.
Qed.

(** What the rewriting branch does, given the two splits it performs. *)
Lemma parseTimestamp_dotted (s datePart timePart day month year : string) :
  s <> "" -> trim s = s ->
  includes "."%char s = true -> length (split "."%char s) = 3 ->
  split " "%char s = [datePart; timePart] ->
  split "."%char datePart = [day; month; year] ->
  parseTimestamp Date s
  = match Date (year +:+ "-" +:+ month +:+ "-" +:+ day +:+ " " +:+ timePart) with
    | Some date => Some date
    | None => Date s
    end.
Proof.
  intros Hne Htrim Hdot Hparts Hspace Hdate. unfold parseTimestamp.
  rewrite Htrim. apply String.eqb_neq in Hne. rewrite Hne. cbn [orb].
  by rewrite Hdot, Hparts, Hspace, Hdate.
Qed.

Lemma split_piece (sep : ascii) (a rest : string) :
  includes sep a = false ->
  split sep (a +:+ String sep rest) = a :: split sep rest.
Proof.
  induction a as [|c a IH]; intros Ha.
  - change (split sep (String sep rest) = "" :: split sep rest).
    cbn. by rewrite Ascii.eqb_refl.
  - cbn in Ha. apply orb_false_iff in Ha as [Hc Ha].
    change (split sep (String c (a +:+ String sep rest))
            = String c a :: split sep rest).
    cbn. by rewrite Hc, IH.
Qed.

Lemma split_whole (sep : ascii) (a : string) :
  includes sep a = false -> split sep a = [a].
Proof.
  induction a as [|c a IH]; intros Ha; [done|].
  cbn in Ha. apply orb_false_iff in Ha as [Hc Ha]. cbn. by rewrite Hc, IH.
Qed.

Lemma plain_no_dot (s : string) : plain s = true -> includes "."%char s = false.
Proof.
  induction s as [|c s IH]; [done|]. cbn.
  intros [[Hc _]%andb_true_iff Hs]%andb_true_iff.
  apply negb_true_iff in Hc. by rewrite Hc, IH.
Qed.

Lemma plain_no_space (s : string) : plain s = true -> includes " "%char s = false.
Proof.
  induction s as [|c s IH]; [done|]. cbn.
  intros [[_ Hc]%andb_true_iff Hs]%andb_true_iff.
  rewrite IH, orb_false_r by done.
  destruct (Ascii.eqb_spec c " "%char) as [->|]; done.
Qed.

Lemma trimEnd_plain (s : string) : plain s = true -> trimEnd s = s.
Proof.
  induction s as [|c s IH]; [done|]. cbn.
  intros [[_ Hc%negb_true_iff]%andb_true_iff Hs]%andb_true_iff.
  rewrite IH by done. destruct s; [by rewrite Hc|done].
Qed.

Lemma trimEnd_app (a b : string) :
  b <> "" -> trimEnd b = b -> trimEnd (a +:+ b) = a +:+ b.
Proof.
  intros Hne Hb. induction a as [|c a IH]; [done|].
  change (trimEnd (String c (a +:+ b)) = String c (a +:+ b)).
  cbn. rewrite IH. destruct a, b; done.
Qed.

(** X4. A value in the layout [day.month.year time], whose four parts
    contain neither dots nor white space and whose time is not empty, is
    parsed as [Date] parses [year-month-day time]; only when [Date] rejects
    that is the original value tried. *)
Theorem X4_parseTimestamp_dotted_layout (day month year time : string) :
  plain day = true -> plain month = true -> plain year = true ->
  plain time = true -> time <> "" ->
  let dotted := day +:+ "." +:+ month +:+ "." +:+ year +:+ " " +:+ time in
  parseTimestamp Date dotted
  = match Date (year +:+ "-" +:+ month +:+ "-" +:+ day +:+ " " +:+ time) with
    | Some date => Some date
    | None => Date dotted
    end.
Proof.
  intros Hday Hmonth Hyear Htime Hne dotted.
  set (datePart := day +:+ "." +:+ month +:+ "." +:+ year).
  assert (dotted = datePart +:+ String " "%char time) as Hshape
    by (unfold dotted, datePart; by rewrite !string_app_assoc).
  assert (includes "."%char (year +:+ " " +:+ time) = false) as Hrest.
  { rewrite includes_app, plain_no_dot by done.
    change (includes "."%char (" " +:+ time)) with (includes "."%char time).
    by rewrite plain_no_dot. }
  assert (split "."%char dotted = [day; month; year +:+ " " +:+ time]) as Hdots.
  { unfold dotted.
    change (day +:+ "." +:+ month +:+ "." +:+ year +:+ " " +:+ time)
      with (day +:+ String "."%char (month +:+ String "."%char (year +:+ " " +:+ time))).
    rewrite !split_piece by by apply plain_no_dot. by rewrite split_whole. }
  assert (includes " "%char datePart = false) as Hdate.
  { unfold datePart.
    rewrite !includes_app, (plain_no_space day), (plain_no_space month),
      (plain_no_space year) by done. done. }
  apply (parseTimestamp_dotted dotted datePart time day month year).
  - rewrite Hshape. by destruct datePart.
  - unfold trim. rewrite trimStart_of_clean.
    + rewrite Hshape. apply trimEnd_app; [done|].
      cbn. rewrite trimEnd_plain by done. by destruct time.
    + unfold dotted. destruct day as [|c day]; [done|]. cbn in Hday.
      apply andb_true_iff in Hday as [[_ Hc%negb_true_iff]%andb_true_iff _]. exact Hc.
  - unfold dotted. rewrite includes_app. apply orb_true_iff. right. done.
  - by rewrite Hdots.
  - rewrite Hshape, split_piece by done. by rewrite split_whole by by apply plain_no_space.
  - unfold datePart.
    change (day +:+ "." +:+ month +:+ "." +:+ year)
      with (day +:+ String "."%char (month +:+ String "."%char year)).
    rewrite !split_piece by by apply plain_no_dot.
    by rewrite split_whole by by apply plain_no_dot.
Qed.

End TimestampFacts.

(* ===================================================================== *)
(** * Further properties: the rows of the flight file                     *)
(* ===================================================================== *)

Section FlightRowFacts.
Import Js FlightDataParser.
Variable Date : string -> option instant.

Lemma rowStep_flights (ci : gmap string nat) (i : nat) (line : string) (st : loopState) :
  l_flights (rowStep Date ci i line st) = l_flights st ++ rowFlights Date ci line.
Proof.
  unfold rowFlights, rowStep. destruct (parseRow Date ci line); cbn; by rewrite ?app_nil_r.
Qed.

Lemma rowStep_errors (ci : gmap string nat) (i : nat) (line : string) (st : loopState) :
  l_errors (rowStep Date ci i line st) = l_errors st ++ rowErrors Date ci i line.
Proof.
  unfold rowErrors, rowStep. destruct (parseRow Date ci line); cbn; by rewrite ?app_nil_r.
Qed.

Lemma rowStep_failed (ci : gmap string nat) (i : nat) (line : string) (st : loopState) :
  l_failedRows (rowStep Date ci i line st)
  = l_failedRows st + length (rowErrors Date ci i line).
Proof.
  unfold rowErrors, rowStep. destruct (parseRow Date ci line); cbn; lia.
Qed.

Lemma rowLoop_flights_list (ci : gmap string nat) (rows : list string) :
  forall (i : nat) (st : loopState),
    l_flights (rowLoop Date ci i rows st)
    = l_flights st ++ flat_map (rowFlights Date ci) rows.
Proof.
  induction rows as [|line rows IH]; intros i st; cbn [rowLoop flat_map].
  - by rewrite app_nil_r.
  - by rewrite IH, rowStep_flights, <- app_assoc.
Qed.

Lemma rowLoop_errors_list (ci : gmap string nat) (rows : list string) :
  forall (i : nat) (st : loopState),
    l_errors (rowLoop Date ci i rows st)
    = l_errors st ++ concat (imap (fun k line => rowErrors Date ci (i + k) line) rows) /\
    l_failedRows (rowLoop Date ci i rows st)
    = l_failedRows st +
      length (concat (imap (fun k line => rowErrors Date ci (i + k) line) rows)).
Proof.
  induction rows as [|line rows IH]; intros i st; cbn [rowLoop imap concat].
  - rewrite app_nil_r. cbn. split; [done | lia].
  - destruct (IH (S i) (rowStep Date ci i line st)) as [-> ->].
    rewrite rowStep_errors, rowStep_failed, Nat.add_0_r, <- app_assoc, length_app.
    assert (imap ((fun k line => rowErrors Date ci (i + k) line) ∘ S) rows
            = imap (fun k line => rowErrors Date ci (S i + k) line) rows) as ->.
    { apply imap_ext. intros k x _. cbn. f_equal. lia. }
    split; [done | lia].
Qed.

(** The message of a line met at index [i] is numbered [i + 1]. *)
Lemma rowErrors_numbered (ci : gmap string nat) (i : nat) (line msg : string) :
  msg ∈ rowErrors Date ci i line ->
  exists body, msg = "Row " +:+ ofNat (i + 1) +:+ ": " +:+ body.
Proof.
  unfold rowErrors, rowStep. destruct (parseRow Date ci line); cbn.
  - by intros ?%elem_of_nil.
  - intros ->%list_elem_of_singleton.
    exists ("Missing values for " +:+ join ", " missingFields +:+
            " (empty or not provided)").
    do 2 f_equal.
  - intros ->%list_elem_of_singleton.
    exists ("Invalid timestamp format: " +:+ join ", " invalidTimestamps).
    do 2 f_equal.
Qed.

(** X5. With a complete header every data line contributes either one
    flight or one error, never both and never neither; the flights keep the
    order of the lines, the errors too, the number of errors is
    [failedRows], and the message for the data line at position [k] (from 0)
    starts with [Row k+2:], the header being row 1. *)
Theorem X5_one_outcome_per_row (csvContent headerLine : string) (rows : list string) :
  csvLines csvContent = headerLine :: rows ->
  missingColumnsOf (parseHeaders headerLine) = [] ->
  let r := parseFlightsCsv Date csvContent in
  let ci := mkColumnIndex (parseHeaders headerLine) in
  flights r = flat_map (rowFlights Date ci) rows /\
  errors r = concat (imap (fun k line => rowErrors Date ci (k + 1) line) rows) /\
  length (errors r) = failedRows r /\
  (forall i line,
      length (rowFlights Date ci line) + length (rowErrors Date ci i line) = 1) /\
  (forall k line msg,
      rows !! k = Some line -> msg ∈ rowErrors Date ci (k + 1) line ->
      msg ∈ errors r /\
      exists body, msg = "Row " +:+ ofNat (k + 2) +:+ ": " +:+ body).
Proof.
  intros Hlines Hcomplete r ci.
  assert (errors r = concat (imap (fun k line => rowErrors Date ci (k + 1) line) rows) /\
          failedRows r
          = length (concat (imap (fun k line => rowErrors Date ci (k + 1) line) rows)))
    as [Herrors Hfailed].
  { unfold r, parseFlightsCsv. rewrite Hlines, Hcomplete. cbn [errors failedRows].
    fold ci. destruct (rowLoop_errors_list ci rows 1 (mkLoop [] [] 0 0)) as [-> ->].
    cbn [l_errors l_failedRows app]. rewrite Nat.add_0_l.
    assert (imap (fun k line => rowErrors Date ci (1 + k) line) rows
            = imap (fun k line => rowErrors Date ci (k + 1) line) rows) as ->; [|done].
    apply imap_ext. intros k x _. cbn beta. f_equal. lia. }
  split; [|split; [done|split; [congruence|split]]].
  - unfold r, parseFlightsCsv. rewrite Hlines, Hcomplete. cbn [flights].
    fold ci. by rewrite rowLoop_flights_list.
  - intros i line. unfold rowFlights, rowErrors, rowStep.
    destruct (parseRow Date ci line); done.
  - intros k line msg Hk Hmsg. split.
    + rewrite Herrors. apply list_elem_of_In, in_concat.
      exists (rowErrors Date ci (k + 1) line). split; [|by apply list_elem_of_In].
      apply list_elem_of_In, list_elem_of_lookup. exists k.
      by rewrite list_lookup_imap, Hk.
    + apply rowErrors_numbered in Hmsg as [body ->]. exists body.
      by replace (k + 1 + 1) with (k + 2) by lia.
Qed.

(** What a successful row guarantees about its flight. *)
Lemma parseRow_ok (ci : gmap string nat) (line : string) (f : Flight) :
  parseRow Date ci line = RowOk f ->
  Forall (fun v => v <> "" /\ trim v = v)
         [airline f; flightCode f; departureAirport f; arrivalAirport f].
Proof.
  assert (forall v name, missingIf v name = [] ->
            forall values col, v = field ci values col ->
            default "" v <> "" /\ trim (default "" v) = default "" v) as Hpresent.
  { intros v name Hv values col ->. unfold missingIf, falsy, field in *.
    destruct (ci !! col); [|done]. destruct (values !! _); [|done]. cbn in *.
    destruct (String.eqb_spec (trim s) ""); [done|]. split; [done | apply trim_idem]. }
  unfold parseRow.
  set (values := parseCsvLine line).
  destruct (missingIf (field ci values "airline") "airline") eqn:H1; [|done].
  destruct (missingIf (field ci values "flight_code") "flight_code") eqn:H2; [|done].
  destruct (missingIf (field ci values "departure_airport") "departure_airport")
    eqn:H3; [|done].
  destruct (missingIf (field ci values "arrival_airport") "arrival_airport")
    eqn:H4; [|done].
  cbn [app].
  destruct (missingIf (field ci values "departure_timestamp_local") _ ++ _); [|done].
  destruct (parseTimestamp Date _) as [dep|]; [|by destruct (parseTimestamp Date _)].
  destruct (parseTimestamp Date _) as [arr|]; [|done].
  intros [= <-]. cbn.
  repeat constructor; eapply Hpresent; done.
Qed.

(** X6. Every flight returned by [parseFlightsCsv] has a non-empty, trimmed
    airline, flight code, departure code and arrival code. *)
Theorem X6_flights_have_all_fields (csvContent : string) (f : Flight) :
  f ∈ flights (parseFlightsCsv Date csvContent) ->
  Forall (fun v => v <> "" /\ trim v = v)
         [airline f; flightCode f; departureAirport f; arrivalAirport f].
Proof.
  unfold parseFlightsCsv.
  destruct (csvLines csvContent) as [|headerLine rows]; [by intros ?%elem_of_nil|].
  destruct (missingColumnsOf _); [|by intros ?%elem_of_nil].
  cbn [flights]. rewrite rowLoop_flights_list. cbn [l_flights app].
  rewrite list_elem_of_In, in_flat_map. intros (line & _ & Hin).
  unfold rowFlights, rowStep in Hin.
  destruct (parseRow Date _ line) as [g| |] eqn:Hrow; cbn in Hin; try done.
  destruct Hin as [<-|[]]. by eapply parseRow_ok.
Qed.

End FlightRowFacts.

(* ===================================================================== *)
(** * Further properties: header names                                    *)
(* ===================================================================== *)

Section HeaderFacts.
Import Js FlightDataParser.

Lemma lowerChar_whitespace (c : ascii) : isWhiteSpace (lowerChar c) = isWhiteSpace c.
Proof. by destruct c as [[] [] [] [] [] [] [] []]. Qed.

Lemma lowerChar_quote (c : ascii) : Ascii.eqb (lowerChar c) dquote = Ascii.eqb c dquote.
Proof. by destruct c as [[] [] [] [] [] [] [] []]. Qed.

Lemma lowerChar_comma (c : ascii) :
  Ascii.eqb (lowerChar c) ","%char = Ascii.eqb c ","%char.
Proof. by destruct c as [[] [] [] [] [] [] [] []]. Qed.

Lemma toLowerCase_app (a b : string) :
  toLowerCase (a +:+ b) = toLowerCase a +:+ toLowerCase b.
Proof.
  induction a as [|c a IH]; [done|].
  change (toLowerCase (String c (a +:+ b))
          = String (lowerChar c) (toLowerCase a +:+ toLowerCase b)).
  cbn. by rewrite IH.
Qed.

Lemma toLowerCase_trimStart (s : string) :
  toLowerCase (trimStart s) = trimStart (toLowerCase s).
Proof.
  induction s as [|c s IH]; [done|]. cbn. rewrite lowerChar_whitespace.
  by destruct (isWhiteSpace c).
Qed.

Lemma toLowerCase_trimEnd (s : string) :
  toLowerCase (trimEnd s) = trimEnd (toLowerCase s).
Proof.
  induction s as [|c s IH]; [done|]. cbn. rewrite <- IH, lowerChar_whitespace.
  destruct (trimEnd s); cbn; [by destruct (isWhiteSpace c)|done].
Qed.

Lemma toLowerCase_trim (s : string) : toLowerCase (trim s) = trim (toLowerCase s).
Proof. unfold trim. by rewrite toLowerCase_trimEnd, toLowerCase_trimStart. Qed.

(** Lower-casing a line lower-cases its fields and changes nothing else. *)
Lemma parseCsvLine_loop_lower (line : string) :
  forall (result : list string) (current : string) (inQuotes : bool),
    toLowerCase <$> parseCsvLine_loop line result current inQuotes
    = parseCsvLine_loop (toLowerCase line) (toLowerCase <$> result)
                        (toLowerCase current) inQuotes.
Proof.
  induction line as [|c line IH]; intros result current inQuotes.
  - cbn [parseCsvLine_loop toLowerCase]. rewrite fmap_app.
    cbn [fmap list_fmap]. by rewrite toLowerCase_trim.
  - change (toLowerCase (String c line)) with (String (lowerChar c) (toLowerCase line)).
    cbn [parseCsvLine_loop]. rewrite lowerChar_quote, lowerChar_comma.
    destruct (Ascii.eqb c dquote); [apply IH|].
    destruct (Ascii.eqb c ","%char && negb inQuotes).
    + rewrite IH, fmap_app. cbn [fmap list_fmap]. by rewrite toLowerCase_trim.
    + by rewrite IH, toLowerCase_app.
Qed.

(** X7. Header names are matched without regard to letter case: two header
    lines that differ only in the case of their letters give the same
    column names, hence the same missing columns and the same column
    indices. *)
Theorem X7_header_case_insensitive (headerLine headerLine' : string) :
  toLowerCase headerLine = toLowerCase headerLine' ->
  parseHeaders headerLine = parseHeaders headerLine' /\
  missingColumnsOf (parseHeaders headerLine) = missingColumnsOf (parseHeaders headerLine') /\
  mkColumnIndex (parseHeaders headerLine) = mkColumnIndex (parseHeaders headerLine').
Proof.
  intros Hsame.
  assert (forall h, parseHeaders h = trim <$> parseCsvLine (toLowerCase h)) as Hlower.
  { intros h. unfold parseHeaders, parseCsvLine.
    change (map (fun x => trim (toLowerCase x)) ?l)
      with ((fun x => trim (toLowerCase x)) <$> l).
    rewrite (list_fmap_compose toLowerCase trim).
    by rewrite parseCsvLine_loop_lower. }
  assert (parseHeaders headerLine = parseHeaders headerLine') as ->
    by by rewrite !Hlower, Hsame.
  done.
Qed.

End HeaderFacts.

(* ===================================================================== *)
(** * Further properties: the airport table and the replacement table     *)
(* ===================================================================== *)

Section AirportTableFacts.
Import Js FlightDataParser AirportsParser.
Context {number : Type}.
Variable parseFloat : string -> option number.

Lemma fieldOrEmpty_trimmed (ci : gmap string nat) (values : list string) (name : string) :
  trim (fieldOrEmpty ci values name) = fieldOrEmpty ci values name.
Proof.
  unfold fieldOrEmpty, field. destruct (ci !! name); [|done].
  destruct (values !! _); [apply trim_idem | done].
Qed.

Lemma airportStep_keyed (ci : gmap string nat) (airportsMap : gmap string (Airport number))
      (line : string) :
  keyedByCode airportsMap -> keyedByCode (airportStep parseFloat ci airportsMap line).
Proof.
  intros Hinv. unfold airportStep.
  destruct (parseAirportRow parseFloat ci line) as [airport|] eqn:Hrow; [|done].
  apply parseAirportRow_Some in Hrow as [Hcode Hne].
  intros code a. rewrite lookup_insert. case_decide as Heq.
  - intros [= <-]. subst code. split; [done|]. split; [done|].
    rewrite Hcode. apply fieldOrEmpty_trimmed.
  - apply Hinv.
Qed.

Lemma airportLoop_keyed (ci : gmap string nat) (rows : list string) :
  forall airportsMap : gmap string (Airport number),
    keyedByCode airportsMap ->
    keyedByCode (fold_left (airportStep parseFloat ci) rows airportsMap) /\
    size (fold_left (airportStep parseFloat ci) rows airportsMap)
    <= size airportsMap + length rows.
Proof.
  induction rows as [|line rows IH]; intros airportsMap Hinv; cbn [fold_left length].
  - split; [done | lia].
  - destruct (IH _ (airportStep_keyed ci airportsMap line Hinv)) as [Hk Hsize].
    split; [done|].
    assert (size (airportStep parseFloat ci airportsMap line) <= S (size airportsMap)).
    { unfold airportStep. destruct (parseAirportRow parseFloat ci line); [|lia].
      rewrite map_size_insert. destruct (airportsMap !! _); unfold id; lia. }
    lia.
Qed.

Lemma parseAirportsCsv_keyed (csvContent : string) :
  keyedByCode (parseAirportsCsv parseFloat csvContent).
Proof.
  unfold parseAirportsCsv. destruct (csvLines csvContent) as [|headerLine rows].
  - intros code a. by rewrite lookup_empty.
  - apply airportLoop_keyed. intros code a. by rewrite lookup_empty.
Qed.

(** X8. For every text, the table returned by [parseAirportsCsv] has no
    entry under the empty code, every key is trimmed and is the code of the
    airport stored under it, and the table has at most as many entries as
    the text has data lines (none for an empty or header-only text). *)
Theorem X8_airport_table_keys (csvContent : string) :
  let table := parseAirportsCsv parseFloat csvContent in
  table !! "" = None /\
  (forall code airport, table !! code = Some airport ->
     iataCode airport = code /\ code <> "" /\ trim code = code) /\
  size table <= length (tail (csvLines csvContent)).
Proof.
  intros table. pose proof (parseAirportsCsv_keyed csvContent) as Hkeyed.
  fold table in Hkeyed. split; [|split; [exact Hkeyed|]].
  - destruct (table !! "") as [a|] eqn:Hempty; [|done].
    by destruct (Hkeyed "" a Hempty) as (_ & ? & _).
  - unfold table, parseAirportsCsv.
    destruct (csvLines csvContent) as [|headerLine rows]; [by rewrite map_size_empty|].
    cbn [tail].
    destruct (airportLoop_keyed (mkColumnIndex (parseHeaders headerLine)) rows ∅)
      as [_ Hsize]; [intros code a; by rewrite lookup_empty|].
    by rewrite map_size_empty in Hsize.
Qed.

End AirportTableFacts.

Section ReplacementFacts.
Import Js FlightDataParser AirportsParser.

Lemma parseCsvLine_trimmed (line f : string) : f ∈ parseCsvLine line -> trim f = f.
Proof.
  intros Hf. unfold parseCsvLine in Hf.
  apply parseCsvLine_loop_fields in Hf as [Hnil|[Ht _]]; [|done|done].
  by apply elem_of_nil in Hnil.
Qed.

Lemma replacementStep_lookup (replacements : gmap string string) (line old new : string) :
  replacementStep replacements line !! old = Some new ->
  replacements !! old = Some new \/
  (old <> "" /\ new <> "" /\ exists rest, parseCsvLine line = old :: new :: rest).
Proof.
  unfold replacementStep.
  pose proof (parseCsvLine_trimmed line) as Htrim.
  destruct (parseCsvLine line) as [|v0 [|v1 rest]]; [by left | by left |].
  change (2 <=? length (v0 :: v1 :: rest)) with true. cbn [lookup list_lookup].
  cbv iota beta zeta.
  rewrite (Htrim v0), (Htrim v1) by set_solver.
  destruct (String.eqb_spec v0 ""); [by left|].
  destruct (String.eqb_spec v1 ""); [by left|]. cbn [negb andb].
  rewrite lookup_insert. case_decide as Heq; [|by left].
  intros [= <-]. subst old. right. eauto.
Qed.

Lemma replacementStep_size (replacements : gmap string string) (line : string) :
  size (replacementStep replacements line) <= S (size replacements).
Proof.
  unfold replacementStep.
  destruct (2 <=? _); [|lia].
  destruct (_ !! 0); [|lia]. destruct (_ !! 1); [|lia].
  destruct (_ && _); [|lia].
  rewrite map_size_insert. destruct (replacements !! _); unfold id; lia.
Qed.

Lemma replacementLoop_lookup (rows : list string) :
  forall (replacements : gmap string string) (old new : string),
    fold_left replacementStep rows replacements !! old = Some new ->
    replacements !! old = Some new \/
    (old <> "" /\ new <> "" /\
     exists line rest, line ∈ rows /\ parseCsvLine line = old :: new :: rest).
Proof.
  induction rows as [|line rows IH]; intros replacements old new; cbn [fold_left].
  - by left.
  - intros Hfound. apply IH in Hfound as [Hstep|(? & ? & l & rest & Hl & Hrow)].
    + apply replacementStep_lookup in Hstep as [?|(? & ? & rest & Hrow)]; [by left|].
      right. split; [done|]. split; [done|]. exists line, rest. set_solver.
    + right. split; [done|]. split; [done|]. exists l, rest. set_solver.
Qed.

Lemma replacementLoop_size (rows : list string) :
  forall replacements : gmap string string,
    size (fold_left replacementStep rows replacements) <= size replacements + length rows.
Proof.
  induction rows as [|line rows IH]; intros replacements; cbn [fold_left length]; [lia|].
  pose proof (IH (replacementStep replacements line)).
  pose proof (replacementStep_size replacements line). lia.
Qed.

(** X9. Every entry [old -> new] of the replacement table returned by
    [loadAirportCodeReplacements] has two non-empty trimmed codes and is
    read from the first two fields of a data line of the fetched text,
    never from its header line; the table has at most one entry per data
    line, and is empty when the fetch fails. *)
Theorem X9_replacement_entries (response : option string) :
  let table := loadAirportCodeReplacements response in
  let dataLines := match response with
                   | Some csvText => tail (csvLines csvText)
                   | None => []
                   end in
  (forall old new,
      table !! old = Some new ->
      old <> "" /\ new <> "" /\ trim old = old /\ trim new = new /\
      exists line rest, line ∈ dataLines /\ parseCsvLine line = old :: new :: rest) /\
  size table <= length dataLines.
Proof.
  intros table dataLines. split.
  - intros old new Hfound. unfold table, loadAirportCodeReplacements in Hfound.
    destruct response as [csvText|]; [|by rewrite lookup_empty in Hfound].
    apply replacementLoop_lookup in Hfound
      as [Hempty|(Ho & Hn & line & rest & Hline & Hrow)];
      [by rewrite lookup_empty in Hempty|].
    split; [done|]. split; [done|].
    split; [apply (parseCsvLine_trimmed line); rewrite Hrow; set_solver|].
    split; [apply (parseCsvLine_trimmed line); rewrite Hrow; set_solver|].
    by exists line, rest.
  - unfold table, dataLines, loadAirportCodeReplacements.
    destruct response as [csvText|]; [|by rewrite map_size_empty].
    pose proof (replacementLoop_size (tail (csvLines csvText)) ∅) as Hsize.
    by rewrite map_size_empty in Hsize.
Qed.

End ReplacementFacts.

(* ===================================================================== *)
(** * Further properties: the builder                                     *)
(* ===================================================================== *)

Section BuilderInvariants.
Import Js AirportsParser Builder.
Context {number : Type}.
Variable airportsMap : gmap string (Airport number).
Variable replacements : gmap string string.

Local Abbreviation vizOf' := (visualizationOf airportsMap replacements).
Local Abbreviation errOf' := (errorOf airportsMap replacements).
Local Abbreviation unresOf' := (unresolvedOf airportsMap replacements).

Lemma contributions_one_of (f : Flight) :
  (errOf' f = None /\ unresOf' f = None /\ is_Some (vizOf' f)) \/
  (is_Some (errOf' f) /\ is_Some (unresOf' f) /\ vizOf' f = None).
Proof.
  unfold errorOf, unresolvedOf, visualizationOf.
  destruct (lookupCode _ _ (departureAirport f));
    [destruct (lookupCode _ _ (arrivalAirport f))|]; eauto 6.
Qed.

Lemma build_lengths (flights : list Flight) :
  length (omap errOf' flights) + length (omap vizOf' flights) = length flights.
Proof.
  induction flights as [|f fs IH]; [done|]. rewrite !omap_cons_eq.
  destruct (contributions_one_of f) as [(-> & _ & [v ->])|([e ->] & _ & ->)];
    cbn [length]; lia.
Qed.

Lemma unresolvedOf_unresolved (f : Flight) (code : string) :
  unresOf' f = Some code ->
  getAirportByCode code airportsMap replacements = None /\
  (code = departureAirport f \/ code = arrivalAirport f).
Proof.
  unfold unresolvedOf, lookupCode.
  destruct (getAirportByCode (departureAirport f) _ _) eqn:Hdep.
  - destruct (getAirportByCode (arrivalAirport f) _ _) eqn:Harr; [done|].
    intros [= <-]. eauto.
  - intros [= <-]. eauto.
Qed.

Lemma visualizationOf_fields (f : Flight) (v : FlightVisualizationData number) :
  vizOf' f = Some v ->
  getAirportByCode (departureAirport f) airportsMap replacements = Some (fromAirport v) /\
  getAirportByCode (arrivalAirport f) airportsMap replacements = Some (toAirport v) /\
  v = createFlightVisualization f (fromAirport v) (toAirport v).
Proof.
  unfold visualizationOf, lookupCode.
  destruct (getAirportByCode (departureAirport f) _ _); [|done].
  destruct (getAirportByCode (arrivalAirport f) _ _); [|done].
  by intros [= <-].
Qed.

Lemma build_visualization_In (flights : list Flight) (v : FlightVisualizationData number) :
  v ∈ visualizations (buildFlightVisualizations flights airportsMap replacements) ->
  exists f, f ∈ flights /\ vizOf' f = Some v.
Proof.
  unfold buildFlightVisualizations. cbn [visualizations].
  rewrite buildLoop_visualizations. cbn [b_visualizations app].
  rewrite list_elem_of_omap. intros (f & ? & ?). eauto.
Qed.

(** X10. Invariants of the result of [buildFlightVisualizations], for every
    input.  Every unresolved code is one of the distinct codes and is not
    found by [getAirportByCode]; the distinct codes are exactly the
    departure and arrival codes of the input flights; every visualization
    is built from a flight of the input and the two airports that
    [getAirportByCode] finds for its codes, and copies the flight's
    timestamps, flight code and airline and the airports' coordinates;
    [totalFlightsParsed] is the number of input flights, and the numbers of
    errors and of visualizations add up to it. *)
Theorem X10_builder_invariants (flights : list Flight) :
  let r := buildFlightVisualizations flights airportsMap replacements in
  unresolvedAirports r ⊆ distinctAirports r /\
  (forall code, code ∈ unresolvedAirports r ->
     getAirportByCode code airportsMap replacements = None) /\
  (forall code, code ∈ distinctAirports r <->
     exists f, f ∈ flights /\ (code = departureAirport f \/ code = arrivalAirport f)) /\
  (forall v, v ∈ visualizations r ->
     flight v ∈ flights /\
     getAirportByCode (departureAirport (flight v)) airportsMap replacements
     = Some (fromAirport v) /\
     getAirportByCode (arrivalAirport (flight v)) airportsMap replacements
     = Some (toAirport v) /\
     fromCoordinates v = coordinates (fromAirport v) /\
     toCoordinates v = coordinates (toAirport v) /\
     departureTimestamp v = departureTimestampLocal (flight v) /\
     arrivalTimestamp v = arrivalTimestampLocal (flight v) /\
     flightNumber v = flightCode (flight v) /\
     vizAirline v = airline (flight v)) /\
  totalFlightsParsed r = length flights /\
  length (vizErrors r) + length (visualizations r) = length flights.
Proof.
  intros r.
  assert (forall code, code ∈ unresolvedAirports r ->
            exists f, f ∈ flights /\ unresOf' f = Some code) as Hunres.
  { intros code. unfold r, buildFlightVisualizations. cbn [unresolvedAirports].
    rewrite buildLoop_unresolved. cbn [b_unresolvedAirports].
    rewrite elem_of_union, elem_of_list_to_set, list_elem_of_omap.
    intros [(f & ? & ?)|Hempty]; [eauto | set_solver]. }
  assert (forall code, code ∈ distinctAirports r <->
            exists f, f ∈ flights /\
                      (code = departureAirport f \/ code = arrivalAirport f)) as Hdistinct.
  { intros code. unfold r, buildFlightVisualizations. cbn [distinctAirports].
    rewrite buildLoop_distinct. cbn [b_distinctAirports].
    rewrite elem_of_union, elem_of_list_to_set, list_elem_of_In, in_flat_map.
    split.
    - intros [(f & Hf & Hcode)|Hempty]; [|set_solver].
      exists f. rewrite list_elem_of_In. split; [done|].
      cbn in Hcode. intuition.
    - intros (f & Hf & Hcode). left. exists f.
      rewrite <- list_elem_of_In. split; [done|]. cbn. intuition. }
  split.
  { intros code Hcode. apply Hdistinct.
    destruct (Hunres code Hcode) as (f & Hf & Hu).
    apply unresolvedOf_unresolved in Hu as [_ ?]. eauto. }
  split.
  { intros code Hcode. destruct (Hunres code Hcode) as (f & Hf & Hu).
    by apply unresolvedOf_unresolved in Hu as [? _]. }
  split; [exact Hdistinct|]. split.
  { intros v Hv. apply build_visualization_In in Hv as (f & Hf & Hviz).
    apply visualizationOf_fields in Hviz as (Hfrom & Hto & Hv).
    rewrite Hv. cbn. rewrite Hv in Hfrom, Hto. cbn in Hfrom, Hto. done. }
  split; [done|].
  unfold r, buildFlightVisualizations. cbn [vizErrors visualizations].
  rewrite buildLoop_errors, buildLoop_visualizations. cbn [b_errors b_visualizations app].
  apply build_lengths.
Qed.

Lemma getAirportByCode_keyed (code : string) (airport : Airport number) :
  keyedByCode airportsMap ->
  getAirportByCode code airportsMap replacements = Some airport ->
  iataCode airport <> "" /\
  (iataCode airport = code \/
   (airportsMap !! code = None /\ replacements !! code = Some (iataCode airport))).
Proof.
  intros Hkeyed. unfold getAirportByCode. cbv zeta.
  destruct (airportsMap !! code) as [a|] eqn:Hdirect.
  - intros Hres. assert (a = airport) as <- by (destruct (replacements !! code); congruence).
    destruct (Hkeyed code a Hdirect) as (-> & ? & _). eauto.
  - destruct (replacements !! code) as [newCode|] eqn:Hrep; [|done].
    intros Hnew. destruct (Hkeyed newCode airport Hnew) as (-> & ? & _). eauto.
Qed.

End BuilderInvariants.

Section PipelineFacts.
Import Js FlightDataParser AirportsParser Builder.
Context {number : Type}.
Variable parseFloat : string -> option number.
Variable Date : string -> option instant.

(** X11. Airports file and flights together: when the airport table is
    the one [parseAirportsCsv] reads from a text, the departure airport of
    every visualization carries a non-empty code which is the flight's
    departure code, or else the flight's code has no airport of its own and
    the replacement table sends it to the airport's code; the same for the
    arrival airport. *)
Theorem X11_airports_match_flight_codes
        (airportsCsv : string) (replacements : gmap string string)
        (flights : list Flight) (v : FlightVisualizationData number) :
  let table := parseAirportsCsv parseFloat airportsCsv in
  v ∈ visualizations (buildFlightVisualizations flights table replacements) ->
  let matches (airport : Airport number) (code : string) :=
      iataCode airport <> "" /\
      (iataCode airport = code \/
       (table !! code = None /\ replacements !! code = Some (iataCode airport))) in
  matches (fromAirport v) (departureAirport (flight v)) /\
  matches (toAirport v) (arrivalAirport (flight v)).
Proof.
  intros table Hv matches.
  apply build_visualization_In in Hv as (f & Hf & Hviz).
  apply visualizationOf_fields in Hviz as (Hfrom & Hto & Hv).
  assert (flight v = f) as -> by by rewrite Hv.
  split; apply getAirportByCode_keyed with (replacements := replacements);
    try done; apply parseAirportsCsv_keyed.
Qed.

Lemma parseFlightsCsv_counts (csvContent : string) :
  let r := parseFlightsCsv Date csvContent in
  length (flights r) = successfulRows r /\
  successfulRows r + failedRows r = totalRows r.
Proof.
  unfold parseFlightsCsv. destruct (csvLines csvContent) as [|headerLine rows]; [done|].
  cbv zeta. destruct (missingColumnsOf (parseHeaders headerLine)); cbn.
  - split; [by apply rowLoop_flights|]. by rewrite rowLoop_counts.
  - split; [done | lia].
Qed.

(** X12. [handleFileUpload] in [App.vue].  When the file text is read, the
    combined parse result keeps [successfulRows + failedRows = totalRows]
    although both counters are recomputed: [successfulRows] is the number of
    visualizations, which never exceeds the number of parsed flights (so
    the difference added to [failedRows] is never negative), and the
    combined error list is longer than the parser's by exactly that
    difference.  The filter starts with all visualizations and the two
    airport tables are untouched.  When reading the file fails, the result
    has one error and zero counts, flights and visualizations are cleared,
    and the filtered list keeps its previous content. *)
Theorem X12_upload_counts (file : App.fileText) (st : App.AppState number) :
  let st' := App.handleFileUpload Date file st in
  App.st_airportsMap st' = App.st_airportsMap st /\
  App.st_codeReplacements st' = App.st_codeReplacements st /\
  exists pr,
    App.st_parseResult st' = Some pr /\
    successfulRows pr + failedRows pr = totalRows pr /\
    successfulRows pr = length (App.st_flightVisualizations st') /\
    length (App.st_flightVisualizations st') <= length (App.st_flights st') /\
    flights pr = App.st_flights st' /\
    match file with
    | App.TextRead text =>
        let csv := parseFlightsCsv Date text in
        totalRows pr = totalRows csv /\
        failedRows pr + length (App.st_flightVisualizations st')
        = failedRows csv + length (flights csv) /\
        length (errors pr) + length (App.st_flightVisualizations st')
        = length (errors csv) + length (flights csv) /\
        App.st_filteredVisualizations st' = App.st_flightVisualizations st'
    | App.TextFailed _ =>
        length (errors pr) = 1 /\ totalRows pr = 0 /\
        App.st_flights st' = [] /\ App.st_flightVisualizations st' = [] /\
        App.st_filteredVisualizations st' = App.st_filteredVisualizations st
    end.
Proof.
  intros st'. split; [by destruct file|]. split; [by destruct file|].
  destruct file as [text|message]; unfold st', App.handleFileUpload; cbv zeta;
    cbn [App.st_parseResult App.st_flightVisualizations App.st_flights
         App.st_filteredVisualizations];
    eexists; (split; [reflexivity|]);
    cbn [successfulRows failedRows totalRows flights errors].
  - destruct (parseFlightsCsv_counts text) as [Hflights Hcounts]. cbv zeta in *.
    set (csv := parseFlightsCsv Date text) in *.
    set (table := App.st_airportsMap st). set (repl := App.st_codeReplacements st).
    assert (length (vizErrors (buildFlightVisualizations (flights csv) table repl))
            + length (visualizations (buildFlightVisualizations (flights csv) table repl))
            = length (flights csv)) as Hbuild.
    { unfold buildFlightVisualizations. cbn [vizErrors visualizations].
      rewrite buildLoop_errors, buildLoop_visualizations.
      cbn [b_errors b_visualizations app]. apply build_lengths. }
    rewrite length_app. repeat split; lia.
  - repeat split; cbn; lia.
Qed.

End PipelineFacts.

(* ===================================================================== *)
(** * Further properties: sizes that follow the zoom level                *)
(* ===================================================================== *)

Section ZoomFacts.
Import MapView.
Local Open Scope Q_scope.

Lemma clamp_mono (x y : Q) : x <= y -> Qmax (1 # 2) (Qmin 8 x) <= Qmax (1 # 2) (Qmin 8 y).
Proof. intros Hxy. apply Q.max_le_compat_l, Q.min_le_compat_l, Hxy. Qed.

Lemma clamp_bounds (x : Q) : 1 # 2 <= Qmax (1 # 2) (Qmin 8 x) /\ Qmax (1 # 2) (Qmin 8 x) <= 8.
Proof.
  split; [apply Q.le_max_l|]. apply Q.max_lub; [discriminate | apply Q.le_min_l].
Qed.

Lemma clamp_inside (x : Q) :
  1 # 2 <= x -> x <= 8 -> Qmax (1 # 2) (Qmin 8 x) <= x /\ x <= Qmax (1 # 2) (Qmin 8 x).
Proof.
  intros Hlo Hhi. split.
  - apply Q.max_lub; [done | apply Q.le_min_r].
  - apply Qle_trans with (Qmin 8 x); [|apply Q.le_max_r].
    apply Q.min_glb; [done | apply Qle_refl].
Qed.

Lemma powAccurate_zero (pow14 : Z -> Q) : powAccurate pow14 = true -> pow14 0%Z == 1.
Proof. intros [Hzero _]%andb_prop. by apply Qeq_bool_iff. Qed.

Lemma powAccurate_near (pow14 : Z -> Q) (n : Z) :
  powAccurate pow14 = true -> (-30 <= n <= 30)%Z ->
  (999 # 1000) * (14 # 10) ^ n <= pow14 n /\ pow14 n <= (1001 # 1000) * (14 # 10) ^ n.
Proof.
  intros [_ Hall]%andb_prop Hn.
  assert (In n powExponents) as Hin.
  { unfold powExponents. apply in_map_iff. exists (Z.to_nat (n + 30)).
    split; [lia|]. apply in_seq. lia. }
  apply (proj1 (forallb_forall _ _) Hall) in Hin.
  apply andb_prop in Hin as [Hlo Hhi]. split; by apply Qle_bool_iff.
Qed.

(** Between two different integer exponents the returned powers keep their
    order: the exact powers differ by a factor of 1.4 at least. *)
Lemma pow14_mono (pow14 : Z -> Q) (n m : Z) :
  powAccurate pow14 = true -> (-30 <= n)%Z -> (n <= m)%Z -> (m <= 30)%Z ->
  pow14 n <= pow14 m.
Proof.
  intros Hacc Hlo Hnm Hhi.
  destruct (Z.eq_dec n m) as [->|Hne]; [apply Qle_refl|].
  destruct (powAccurate_near pow14 n Hacc) as [_ Hn]; [lia|].
  destruct (powAccurate_near pow14 m Hacc) as [Hm _]; [lia|].
  assert ((14 # 10) ^ n <= (14 # 10) ^ (m - 1)) as Hstep
    by (apply Qpower_le_compat_l; [lia | discriminate]).
  assert ((14 # 10) ^ m == (14 # 10) ^ (m - 1) * (14 # 10)) as Hlast.
  { replace m with ((m - 1) + 1)%Z at 1 by lia.
    rewrite Qpower_plus by discriminate. reflexivity. }
  assert (0 <= (14 # 10) ^ (m - 1)) as Hpos by (apply Qpower_0_le; discriminate).
  set (A := (14 # 10) ^ n) in *. set (X := (14 # 10) ^ (m - 1)) in *.
  set (M := (14 # 10) ^ m) in *. lra.
Qed.

(** X13. The stroke width of routes, [getLineWeight], for every
    [Math.pow] that returns 1 for the exponent 0 and is within one
    thousandth of the exact power, on the zoom levels -26 .. 34: the width
    lies between 0.5 and 8, never decreases when zooming in, is 2 at zoom
    4 and between 7.6 and 7.7 at zoom 8, stays above 1 from zoom 2 on, and
    has reached its cap of 8 from zoom 9 on and its floor of 0.5 from
    zoom -1 down. *)
Theorem X13_line_weight (pow14 : Z -> Q) (zoom : Z) :
  powAccurate pow14 = true -> (-26 <= zoom <= 34)%Z ->
  let weight := getLineWeight pow14 in
  (1 # 2 <= weight zoom /\ weight zoom <= 8) /\
  (forall zoom', (zoom <= zoom' <= 34)%Z -> weight zoom <= weight zoom') /\
  weight 4%Z == 2 /\
  (76 # 10 < weight 8%Z /\ weight 8%Z < 77 # 10) /\
  ((2 <= zoom)%Z -> 1 < weight zoom) /\
  ((9 <= zoom)%Z -> weight zoom == 8) /\
  ((zoom <= -1)%Z -> weight zoom == 1 # 2).
Proof.
  intros Hacc Hrange weight. unfold weight, getLineWeight. cbv zeta.
  split; [apply clamp_bounds|].
  split.
  { intros zoom' Hzoom'. apply clamp_mono, Qmult_le_l; [reflexivity|].
    apply pow14_mono; [done|lia..]. }
  split.
  { change (4 - 4)%Z with 0%Z. pose proof (powAccurate_zero pow14 Hacc) as Hzero.
    destruct (clamp_inside (2 * pow14 0%Z)) as [Hle Hge]; [lra..|].
    apply Qle_antisym; lra. }
  split.
  { change (8 - 4)%Z with 4%Z.
    destruct (powAccurate_near pow14 4 Hacc) as [Hlo Hhi]; [lia|].
    assert ((14 # 10) ^ 4 == 38416 # 10000) as Hfour by reflexivity.
    rewrite Hfour in Hlo, Hhi.
    destruct (clamp_inside (2 * pow14 4%Z)) as [Hle Hge]; [lra..|].
    split; lra. }
  split.
  { intros Hzoom.
    destruct (powAccurate_near pow14 (zoom - 4) Hacc) as [Hlo _]; [lia|].
    assert ((14 # 10) ^ (-2) <= (14 # 10) ^ (zoom - 4)) as Hpow
      by (apply Qpower_le_compat_l; [lia | discriminate]).
    assert ((14 # 10) ^ (-2) == 100 # 196) as Htwo by reflexivity.
    rewrite Htwo in Hpow. set (P := (14 # 10) ^ (zoom - 4)) in *.
    apply Qlt_le_trans with (Qmin 8 (2 * pow14 (zoom - 4)%Z)); [|apply Q.le_max_r].
    apply Q.min_glb_lt; [reflexivity | lra]. }
  split.
  - intros Hzoom.
    destruct (powAccurate_near pow14 (zoom - 4) Hacc) as [Hlo _]; [lia|].
    assert ((14 # 10) ^ 5 <= (14 # 10) ^ (zoom - 4)) as Hpow
      by (apply Qpower_le_compat_l; [lia | discriminate]).
    assert ((14 # 10) ^ 5 == 537824 # 100000) as Hfive by reflexivity.
    rewrite Hfive in Hpow. set (P := (14 # 10) ^ (zoom - 4)) in *.
    apply Qle_antisym; [apply clamp_bounds|].
    apply Qle_trans with (Qmin 8 (2 * pow14 (zoom - 4)%Z)); [|apply Q.le_max_r].
    apply Q.min_glb; [apply Qle_refl | lra].
  - intros Hzoom.
    destruct (powAccurate_near pow14 (zoom - 4) Hacc) as [_ Hhi]; [lia|].
    assert ((14 # 10) ^ (zoom - 4) <= (14 # 10) ^ (-5)) as Hpow
      by (apply Qpower_le_compat_l; [lia | discriminate]).
    assert ((14 # 10) ^ (-5) == 100000 # 537824) as Hfive by reflexivity.
    rewrite Hfive in Hpow. set (P := (14 # 10) ^ (zoom - 4)) in *.
    apply Qle_antisym; [|apply clamp_bounds].
    apply Q.max_lub; [apply Qle_refl|].
    apply Qle_trans with (2 * pow14 (zoom - 4)%Z); [apply Q.le_min_r | lra].
Qed.

Lemma getMarkerSize_small (zoom : Z) :
  (zoom < 4)%Z -> getMarkerSize zoom == inject_Z (3 * zoom + 4).
Proof.
  intros Hzoom. unfold getMarkerSize.
  destruct (Z.leb_spec 4 zoom) as [?|_]; [lia|]. cbv zeta.
  rewrite inject_Z_plus, inject_Z_mult. field.
Qed.

(** X14. The side of airport icons, [getMarkerSize]: 16 from zoom 4 on, and
    [3 * zoom + 4] below (13 at zoom 3, 10 at zoom 2); it never decreases
    when zooming in, never exceeds 16, and on the zoom range of the map
    (2 and up) it is at least 10. *)
Theorem X14_marker_size (zoom : Z) :
  ((4 <= zoom)%Z -> getMarkerSize zoom = 16) /\
  ((zoom < 4)%Z -> getMarkerSize zoom == inject_Z (3 * zoom + 4)) /\
  getMarkerSize zoom <= 16 /\
  ((2 <= zoom)%Z -> 10 <= getMarkerSize zoom) /\
  (forall zoom', (zoom <= zoom')%Z -> getMarkerSize zoom <= getMarkerSize zoom').
Proof.
  assert (forall z, (4 <= z)%Z -> getMarkerSize z = 16) as Hlarge.
  { intros z Hz. unfold getMarkerSize. by destruct (Z.leb_spec 4 z) as [_|?]; [|lia]. }
  assert (forall z, (z < 4)%Z -> getMarkerSize z <= 16) as Hsmall.
  { intros z Hz. rewrite getMarkerSize_small by done.
    change 16 with (inject_Z 16). rewrite <- Zle_Qle. lia. }
  split; [apply Hlarge|]. split; [apply getMarkerSize_small|].
  split.
  { destruct (Z.lt_ge_cases zoom 4); [by apply Hsmall|].
    rewrite Hlarge by done. apply Qle_refl. }
  split.
  { intros Hzoom. destruct (Z.lt_ge_cases zoom 4).
    - rewrite getMarkerSize_small by done.
      change 10 with (inject_Z 10). rewrite <- Zle_Qle. lia.
    - rewrite Hlarge by done. discriminate. }
  intros zoom' Hle. destruct (Z.lt_ge_cases zoom' 4).
  - rewrite !getMarkerSize_small by lia. rewrite <- Zle_Qle. lia.
  - rewrite (Hlarge zoom') by done.
    destruct (Z.lt_ge_cases zoom 4); [by apply Hsmall|].
    rewrite Hlarge by done. apply Qle_refl.
Qed.

End ZoomFacts.

(* ===================================================================== *)
(** * Further properties: colour interpolation                            *)
(* ===================================================================== *)

Section InterpolationFacts.
Import Js MapView.

Lemma hexDigit_range (c : ascii) (d : Z) : hexDigit c = Some d -> (0 <= d <= 15)%Z.
Proof.
  unfold hexDigit. cbv zeta. repeat case_match; intros [= <-];
    repeat match goal with
           | H : _ && _ = true |- _ => apply andb_prop in H as [? ?]
           | H : (_ <=? _) = true |- _ => apply Nat.leb_le in H
           end; lia.
Qed.

Lemma hexByte_range (x y : ascii) (n : Z) : hexByte x y = Some n -> (0 <= n <= 255)%Z.
Proof.
  unfold hexByte.
  destruct (hexDigit x) as [a|] eqn:Ha; [|done].
  destruct (hexDigit y) as [b|] eqn:Hb; [|done].
  apply hexDigit_range in Ha, Hb. intros [= <-]. lia.
Qed.

Lemma hexToRgb_range (hex : string) :
  let '(r, g, b) := hexToRgb hex in byte r /\ byte g /\ byte b.
Proof.
  assert (forall body,
    let '(r, g, b) :=
      match body with
      | String r1 (String r2 (String g1 (String g2 (String b1 (String b2 EmptyString))))) =>
          match hexByte r1 r2, hexByte g1 g2, hexByte b1 b2 with
          | Some r, Some g, Some b => (r, g, b)
          | _, _, _ => (102, 126, 234)%Z
          end
      | _ => (102, 126, 234)%Z
      end in byte r /\ byte g /\ byte b) as Hbody.
  { intros body. unfold byte.
    destruct body as [|r1 [|r2 [|g1 [|g2 [|b1 [|b2 [|]]]]]]]; try lia.
    destruct (hexByte r1 r2) eqn:Hr; [|lia].
    destruct (hexByte g1 g2) eqn:Hg; [|lia].
    destruct (hexByte b1 b2) eqn:Hb; [|lia].
    apply hexByte_range in Hr, Hg, Hb. lia. }
  unfold hexToRgb. cbv zeta. apply Hbody.
Qed.

Lemma round_between (lo hi : Z) (x : Q) :
  (inject_Z lo <= x)%Q -> (x <= inject_Z hi)%Q -> (lo <= round x <= hi)%Z.
Proof.
  intros Hlo Hhi. unfold round. split.
  - rewrite <- (Qfloor_Z lo). apply Qfloor_resp_le. lra.
  - apply Z.lt_succ_r. rewrite Zlt_Qlt.
    apply Qle_lt_trans with (x + (1 # 2))%Q; [apply Qfloor_le|].
    unfold Z.succ. rewrite inject_Z_plus. change (inject_Z 1) with 1%Q. lra.
Qed.

Lemma mix_between (a b : Z) (ratio : Q) :
  (0 <= ratio)%Q -> (ratio <= 1)%Q ->
  (Z.min a b <= round (inject_Z a + (inject_Z b - inject_Z a) * ratio) <= Z.max a b)%Z.
Proof.
  intros H0 H1. apply round_between.
  - destruct (Z.le_ge_cases a b) as [Hab|Hab].
    + rewrite Z.min_l by done. rewrite Zle_Qle in Hab. nra.
    + rewrite Z.min_r by done. rewrite Zle_Qle in Hab. nra.
  - destruct (Z.le_ge_cases a b) as [Hab|Hab].
    + rewrite Z.max_r by done. rewrite Zle_Qle in Hab. nra.
    + rewrite Z.max_l by done. rewrite Zle_Qle in Hab. nra.
Qed.

Lemma mix_start (a b : Z) (ratio : Q) :
  (ratio == 0)%Q -> round (inject_Z a + (inject_Z b - inject_Z a) * ratio) = a.
Proof.
  intros Hr. apply Z.le_antisymm.
  - apply (round_between a a); rewrite Hr; lra.
  - apply (round_between a a); rewrite Hr; lra.
Qed.

Lemma mix_end (a b : Z) (ratio : Q) :
  (ratio == 1)%Q -> round (inject_Z a + (inject_Z b - inject_Z a) * ratio) = b.
Proof.
  intros Hr. apply Z.le_antisymm.
  - apply (round_between b b); rewrite Hr; lra.
  - apply (round_between b b); rewrite Hr; lra.
Qed.

(** X15. [interpolateColor] for every pair of colour strings, valid or
    not: [hexToRgb] always yields three channels between 0 and 255; at
    ratio 0 the result is the first colour and at ratio 1 the second, both
    as [rgb(r, g, b)] text; for every ratio between 0 and 1 each channel of
    the result lies between the corresponding channels of the two colours,
    hence between 0 and 255. *)
Theorem X15_interpolateColor (color1 color2 : string) (ratio : Q) :
  let '(r1, g1, b1) := hexToRgb color1 in
  let '(r2, g2, b2) := hexToRgb color2 in
  (byte r1 /\ byte g1 /\ byte b1) /\ (byte r2 /\ byte g2 /\ byte b2) /\
  ((ratio == 0)%Q -> interpolateColor color1 color2 ratio = rgbText r1 g1 b1) /\
  ((ratio == 1)%Q -> interpolateColor color1 color2 ratio = rgbText r2 g2 b2) /\
  ((0 <= ratio)%Q -> (ratio <= 1)%Q ->
   exists r g b,
     interpolateColor color1 color2 ratio = rgbText r g b /\
     (Z.min r1 r2 <= r <= Z.max r1 r2)%Z /\
     (Z.min g1 g2 <= g <= Z.max g1 g2)%Z /\
     (Z.min b1 b2 <= b <= Z.max b1 b2)%Z /\
     byte r /\ byte g /\ byte b).
Proof.
  pose proof (hexToRgb_range color1) as H1. pose proof (hexToRgb_range color2) as H2.
  unfold interpolateColor.
  destruct (hexToRgb color1) as [[r1 g1] b1], (hexToRgb color2) as [[r2 g2] b2].
  split; [done|]. split; [done|]. split; [|split].
  - intros Hr. by rewrite !mix_start.
  - intros Hr. by rewrite !mix_end.
  - intros Hlo Hhi.
    pose proof (mix_between r1 r2 ratio Hlo Hhi).
    pose proof (mix_between g1 g2 ratio Hlo Hhi).
    pose proof (mix_between b1 b2 ratio Hlo Hhi).
    eexists _, _, _. split; [reflexivity|].
    unfold byte in *. repeat split; lia.
Qed.

End InterpolationFacts.

(* ===================================================================== *)
(** * Further properties: the gradient segments of a route                *)
(* ===================================================================== *)

Section SegmentFacts.
Import Js MapView.
Context {number LatLng : Type}.
Variable geodesic : number * number -> number * number -> list LatLng.

Local Abbreviation Viz := (FlightVisualizationData number).
Local Abbreviation segAt := (segmentAt (number := number) (LatLng := LatLng)).
Local Abbreviation slice pathPoints i :=
  (if i =? 9 then drop (9 * (length pathPoints / 10)) pathPoints
   else take (length pathPoints / 10 + 1) (drop (i * (length pathPoints / 10)) pathPoints)).

Lemma segmentAt_points (pathPoints : list LatLng) (fromColor toColor : string) (i : nat) :
  segAt pathPoints fromColor toColor i
  = if length (slice pathPoints i) <? 2 then None
    else Some (mkSegment (slice pathPoints i)
                         (interpolateColor fromColor toColor (num i / num 9)) None).
Proof.
  unfold segmentAt, numSegments. change (10 - 1) with 9. cbv zeta.
  set (size := length pathPoints / 10).
  destruct (Nat.eqb_spec i 9) as [->|Hne].
  - by rewrite (take_ge (drop (9 * size) pathPoints)) by (rewrite length_drop; lia).
  - by replace ((i + 1) * size + 1 - i * size) with (size + 1) by nia.
Qed.

Lemma omap_fmap_Some {A B} (f : A -> option B) (g : A -> B) (l : list A) :
  (forall x, x ∈ l -> f x = Some (g x)) -> omap f l = g <$> l.
Proof.
  induction l as [|x l IH]; intros Hall; [done|].
  rewrite omap_cons_eq, Hall by set_solver. cbn. f_equal. apply IH. set_solver.
Qed.

Lemma omap_all_None {A B} (f : A -> option B) (l : list A) :
  (forall x, x ∈ l -> f x = None) -> omap f l = [].
Proof.
  induction l as [|x l IH]; intros Hall; [done|].
  rewrite omap_cons_eq, Hall by set_solver. apply IH. set_solver.
Qed.

Lemma drop_1_take {A} (n : nat) (l : list A) : drop 1 (take (S n) l) = take n (drop 1 l).
Proof. destruct l; [by destruct n | done]. Qed.

(** The inner slices without their first points, one after the other. *)
Lemma inner_slices_concat (pathPoints : list LatLng) (size : nat) (n : nat) :
  forall k,
    concat ((fun i => drop 1 (take (size + 1) (drop (i * size) pathPoints))) <$> seq k n)
    = take (n * size) (drop (k * size + 1) pathPoints).
Proof.
  induction n as [|n IH]; intros k; [done|].
  cbn [seq fmap list_fmap concat]. rewrite IH.
  replace (size + 1) with (S size) by lia.
  rewrite drop_1_take, drop_drop.
  replace (S k * size + 1) with ((k * size + 1) + size) by lia.
  rewrite <- (drop_drop pathPoints size (k * size + 1)), take_take_drop. done.
Qed.

Section OnePath.
Variable pathPoints : list LatLng.
Variables fromColor toColor : string.

Local Abbreviation size := (length pathPoints / 10).
Local Abbreviation segments :=
  (omap (segAt pathPoints fromColor toColor) (seq 0 numSegments)).

Lemma inner_segments_long :
  10 <= length pathPoints ->
  omap (segAt pathPoints fromColor toColor) (seq 0 9)
  = (fun i => mkSegment (take (size + 1) (drop (i * size) pathPoints))
                        (interpolateColor fromColor toColor (num i / num 9)) None)
      <$> seq 0 9.
Proof.
  intros Hlen. apply omap_fmap_Some. intros i Hi%list_elem_of_In%in_seq.
  rewrite segmentAt_points.
  destruct (Nat.eqb_spec i 9) as [?|_]; [lia|].
  rewrite length_take, length_drop.
  pose proof (Nat.div_mod_eq (length pathPoints) 10) as Hdiv.
  assert (length pathPoints mod 10 < 10) as Hmod by (apply Nat.mod_upper_bound; lia).
  set (sz := length pathPoints / 10) in *. clearbody sz.
  assert (i * sz <= 8 * sz) as Hstart by nia.
  match goal with
  | |- context [?n <? 2] => destruct (Nat.ltb_spec n 2) as [Hshort|_]
  end; [lia | done].
Qed.

Lemma inner_segments_short :
  length pathPoints < 10 -> omap (segAt pathPoints fromColor toColor) (seq 0 9) = [].
Proof.
  intros Hlen. apply omap_all_None. intros i Hi%list_elem_of_In%in_seq.
  rewrite segmentAt_points.
  destruct (Nat.eqb_spec i 9) as [?|_]; [lia|].
  rewrite Nat.div_small by done. rewrite Nat.mul_0_r, length_take. cbn [drop Nat.add].
  match goal with
  | |- context [?n <? 2] => destruct (Nat.ltb_spec n 2) as [_|Hlong]
  end; [done | lia].
Qed.

Lemma segments_split :
  segments = omap (segAt pathPoints fromColor toColor) (seq 0 9) ++
             match segAt pathPoints fromColor toColor 9 with
             | Some s => [s]
             | None => []
             end.
Proof.
  unfold numSegments. change (seq 0 10) with (seq 0 9 ++ [9]).
  rewrite omap_app. by f_equal.
Qed.

Lemma last_segment :
  segAt pathPoints fromColor toColor 9
  = if length (drop (9 * size) pathPoints) <? 2 then None
    else Some (mkSegment (drop (9 * size) pathPoints)
                         (interpolateColor fromColor toColor (num 9 / num 9)) None).
Proof. by rewrite segmentAt_points. Qed.

Lemma segments_short :
  length pathPoints < 10 ->
  segments = if length pathPoints <? 2 then []
             else [mkSegment pathPoints
                             (interpolateColor fromColor toColor (num 9 / num 9)) None].
Proof.
  intros Hlen. rewrite segments_split, inner_segments_short, last_segment by done.
  rewrite Nat.div_small by done. rewrite Nat.mul_0_r. change (drop 0 pathPoints) with pathPoints.
  by destruct (length pathPoints <? 2).
Qed.

Lemma segments_join :
  2 <= length pathPoints -> joinPaths (seg_points <$> segments) = pathPoints.
Proof.
  intros Hlen. destruct (Nat.lt_ge_cases (length pathPoints) 10) as [Hshort|Hlong].
  - rewrite segments_short by done.
    destruct (Nat.ltb_spec (length pathPoints) 2); [lia|].
    cbn. apply app_nil_r.
  - rewrite segments_split, inner_segments_long, last_segment by done.
    rewrite fmap_app, <- list_fmap_compose.
    change (seq 0 9) with (0 :: seq 1 8). cbn [fmap list_fmap app joinPaths].
    rewrite fmap_app, concat_app, <- list_fmap_compose.
    change ((drop 1 ∘ (seg_points ∘ _)) <$> seq 1 8)
      with ((fun i => drop 1 (take (size + 1) (drop (i * size) pathPoints))) <$> seq 1 8).
    rewrite inner_slices_concat.
    assert (forall tl : option (Segment (number := number)),
              tl = (if length (drop (9 * size) pathPoints) <? 2 then None
                    else Some (mkSegment (drop (9 * size) pathPoints)
                                 (interpolateColor fromColor toColor (num 9 / num 9)) None)) ->
              concat (drop 1 <$> (seg_points <$>
                        match tl with Some s => [s] | None => [] end))
              = drop (9 * size + 1) pathPoints) as Htail.
    { intros tl ->.
      destruct (Nat.ltb_spec (length (drop (9 * size) pathPoints)) 2) as [Hone|_].
      - cbn [fmap list_fmap concat]. symmetry. apply drop_ge.
        rewrite length_drop in Hone. lia.
      - cbn [fmap list_fmap concat seg_points]. by rewrite app_nil_r, drop_drop. }
    rewrite (Htail _ eq_refl). unfold compose. cbn [seg_points].
    rewrite Nat.mul_0_l, Nat.mul_1_l. change (drop 0 pathPoints) with pathPoints.
    rewrite app_assoc, take_take_drop.
    replace (size + 1 + 8 * size) with (9 * size + 1) by lia.
    apply take_drop.
Qed.

Lemma segments_member (s : Segment (number := number)) :
  s ∈ segments ->
  2 <= length (seg_points s) /\ seg_popup s = None /\
  exists i, i < 10 /\ seg_color s = interpolateColor fromColor toColor (num i / num 9).
Proof.
  intros (i & Hi%list_elem_of_In%in_seq & Hs)%list_elem_of_omap.
  rewrite segmentAt_points in Hs.
  match type of Hs with
  | context [?n <? 2] => destruct (Nat.ltb_spec n 2) as [|Hlong]
  end; [done|].
  injection Hs as <-. cbn [seg_points seg_popup seg_color].
  split; [done|]. split; [done|]. exists i. split; [|done]. unfold numSegments in Hi. lia.
Qed.

Lemma omap_length_le {A B} (f : A -> option B) (l : list A) : length (omap f l) <= length l.
Proof.
  induction l as [|x l IH]; [done|]. rewrite omap_cons_eq.
  destruct (f x); cbn [length]; lia.
Qed.

Lemma last_segment_long :
  11 <= length pathPoints ->
  segAt pathPoints fromColor toColor 9
  = Some (mkSegment (drop (9 * size) pathPoints)
                    (interpolateColor fromColor toColor (num 9 / num 9)) None).
Proof.
  intros Hlen. rewrite last_segment, length_drop.
  pose proof (Nat.div_mod_eq (length pathPoints) 10) as Hdiv.
  assert (length pathPoints mod 10 < 10) as Hmod by (apply Nat.mod_upper_bound; lia).
  set (sz := length pathPoints / 10) in *.
  match goal with
  | |- context [?n <? 2] => destruct (Nat.ltb_spec n 2) as [Hshort|_]
  end; [lia | done].
Qed.

End OnePath.

Lemma interpolateColor_start (color1 color2 : string) (ratio : Q) :
  (ratio == 0)%Q ->
  interpolateColor color1 color2 ratio = let '(r, g, b) := hexToRgb color1 in rgbText r g b.
Proof.
  intros Hr. unfold interpolateColor.
  destruct (hexToRgb color1) as [[r1 g1] b1], (hexToRgb color2) as [[r2 g2] b2].
  by rewrite !mix_start.
Qed.

Lemma interpolateColor_end (color1 color2 : string) (ratio : Q) :
  (ratio == 1)%Q ->
  interpolateColor color1 color2 ratio = let '(r, g, b) := hexToRgb color2 in rgbText r g b.
Proof.
  intros Hr. unfold interpolateColor.
  destruct (hexToRgb color1) as [[r1 g1] b1], (hexToRgb color2) as [[r2 g2] b2].
  by rewrite !mix_end.
Qed.

(** X16. The gradient segments drawn along the path that the geodesic
    library returns, whatever that path is.  There are at most ten; each has
    at least two points and a colour interpolated at one of the ratios
    0/9 .. 9/9.  A path of fewer than two points gives no segment; a path of
    two to nine points gives one segment, the whole path, in the colour of
    the arrival airport.  From ten points on there are at least nine
    segments and the first has the colour of the departure airport; from
    eleven points on there are exactly ten and the last has the colour of
    the arrival airport.  Whenever the path has at least two points, the
    first segment followed by the other segments without their first point
    is the whole path: every point of the path is drawn and the segments
    only overlap in the points where they meet. *)
Theorem X16_route_segments (fromCoords toCoords : number * number)
        (fromColor toColor : string) :
  let pathPoints := geodesic fromCoords toCoords in
  let segs := routeSegments geodesic fromCoords toCoords fromColor toColor in
  let colourOf hex := let '(r, g, b) := hexToRgb hex in rgbText r g b in
  (forall s, s ∈ segs ->
     2 <= length (seg_points s) /\ seg_popup s = None /\
     exists i, i < 10 /\
       seg_color s = interpolateColor fromColor toColor (num i / num 9)) /\
  length segs <= 10 /\
  (length pathPoints < 2 -> segs = []) /\
  (2 <= length pathPoints -> length pathPoints < 10 ->
   segs = [mkSegment pathPoints (colourOf toColor) None]) /\
  (10 <= length pathPoints ->
   9 <= length segs /\ seg_color <$> head segs = Some (colourOf fromColor)) /\
  (11 <= length pathPoints ->
   length segs = 10 /\ seg_color <$> last segs = Some (colourOf toColor)) /\
  (2 <= length pathPoints -> joinPaths (seg_points <$> segs) = pathPoints).
Proof.
  intros pathPoints segs colourOf. unfold segs, routeSegments. fold pathPoints.
  split; [apply segments_member|].
  split; [etrans; [apply omap_length_le | by rewrite length_seq]|].
  split.
  { intros Hlen. rewrite segments_short by lia.
    by destruct (Nat.ltb_spec (length pathPoints) 2); [|lia]. }
  split.
  { intros Hlo Hhi. rewrite segments_short by lia.
    destruct (Nat.ltb_spec (length pathPoints) 2); [lia|].
    by rewrite interpolateColor_end. }
  split.
  { intros Hlen. rewrite segments_split, inner_segments_long by done.
    split; [rewrite length_app, length_fmap, length_seq; lia|].
    change (seq 0 9) with (0 :: seq 1 8). cbn [fmap list_fmap app head option_fmap option_map].
    cbn [seg_color]. by rewrite interpolateColor_start. }
  split.
  { intros Hlen.
    rewrite segments_split, inner_segments_long, last_segment_long by lia.
    split; [by rewrite length_app, length_fmap, length_seq|].
    rewrite last_snoc. cbn [fmap option_fmap option_map seg_color].
    by rewrite interpolateColor_end. }
  apply segments_join.
Qed.

(** X17. Which routes can be clicked.  [drawRoute] binds the popup only
    when a fifth segment was drawn.  When the path between the two airports
    has fewer than ten points the route consists of at most one segment and
    no segment opens a popup, although the popup content was built; from ten
    points on every segment of the route opens the popup of the route.  In
    both cases the segments joined together are the path between the two
    airports (for paths of at least two points). *)
Theorem X17_popup_needs_five_segments
        (routeFlights : gmap string (list Viz)) (airportFrequency : gmap string nat)
        (maxFrequency : nat) (viz : Viz) :
  let g := drawRoute geodesic routeFlights airportFrequency maxFrequency viz in
  let pathPoints :=
    geodesic (coordinates (fromAirport viz)) (coordinates (toAirport viz)) in
  (length pathPoints < 10 ->
   length (rg_segments g) <= 1 /\
   forall s, s ∈ rg_segments g -> seg_popup s = None) /\
  (10 <= length pathPoints ->
   9 <= length (rg_segments g) /\
   forall s, s ∈ rg_segments g -> seg_popup s = Some (rg_popupContent g)) /\
  (2 <= length pathPoints -> joinPaths (seg_points <$> rg_segments g) = pathPoints).
Proof.
  intros g pathPoints. split; [|split].
  - intros Hlen. unfold g, drawRoute. cbv zeta. cbn [rg_segments].
    unfold routeSegments. fold pathPoints. rewrite segments_short by done.
    destruct (length pathPoints <? 2); cbn [lookup list_lookup length].
    + split; [lia|]. by intros s ?%elem_of_nil.
    + split; [lia|]. by intros s ->%list_elem_of_singleton.
  - intros Hlen. destruct (drawRoute_popup_bound geodesic routeFlights airportFrequency
                             maxFrequency viz Hlen) as [Hnine Hall].
    split; [done|]. intros s Hs%list_elem_of_In. by apply Hall.
  - intros Hlen. unfold g. rewrite drawRoute_points. by apply segments_join.
Qed.

End SegmentFacts.

(* ===================================================================== *)
(** * Further properties: airport frequencies and marker colours          *)
(* ===================================================================== *)

Section FrequencyFacts.
Import Js MapView.
Context {number : Type}.

Local Abbreviation Viz := (FlightVisualizationData number).
Local Abbreviation departsFrom code := (fun v : Viz => String.eqb (iataCode (fromAirport v)) code).
Local Abbreviation arrivesAt code := (fun v : Viz => String.eqb (iataCode (toAirport v)) code).
Local Abbreviation endpointsAt code visualizations :=
  (length (List.filter (departsFrom code) visualizations) +
   length (List.filter (arrivesAt code) visualizations)).

Lemma frequencyOf_bump (c code : string) (airportFrequency : gmap string nat) :
  frequencyOf (bump c airportFrequency) code
  = frequencyOf airportFrequency code + (if String.eqb c code then 1 else 0).
Proof.
  unfold frequencyOf, bump. rewrite lookup_insert.
  destruct (String.eqb_spec c code) as [->|Hne].
  - rewrite decide_True by done. done.
  - rewrite decide_False by done. lia.
Qed.

Lemma countLoop_frequency (visualizations : list Viz) (code : string) :
  forall airportFrequency : gmap string nat,
    frequencyOf (fold_left frequencyStep visualizations airportFrequency) code
    = frequencyOf airportFrequency code + endpointsAt code visualizations.
Proof.
  induction visualizations as [|v vs IH]; intros airportFrequency; cbn [fold_left List.filter].
  - cbn. lia.
  - rewrite IH. unfold frequencyStep. rewrite !frequencyOf_bump.
    destruct (String.eqb _ code), (String.eqb _ code); cbn [length]; lia.
Qed.

Lemma maxOf_ge (airportFrequency : gmap string nat) (code : string) (n : nat) :
  airportFrequency !! code = Some n -> n <= maxOf airportFrequency.
Proof.
  intros Hn. apply max_list_elem_of_le, list_elem_of_fmap.
  exists (code, n). split; [done|]. by apply elem_of_map_to_list.
Qed.

Lemma maxOf_attained (airportFrequency : gmap string nat) :
  airportFrequency <> ∅ ->
  exists code, airportFrequency !! code = Some (maxOf airportFrequency).
Proof.
  intros Hne. unfold maxOf.
  assert (snd <$> map_to_list airportFrequency <> []) as Hlist.
  { intros Hnil%fmap_nil_inv. by apply map_to_list_empty_iff in Hnil. }
  apply max_list_elem_of, list_elem_of_fmap in Hlist as ([code n] & Hmax & Hin).
  exists code. apply elem_of_map_to_list in Hin. cbn in Hmax. by rewrite Hmax.
Qed.

Lemma getFrequencyColor_not_default (frequency maxFrequency : Q) :
  ~ (maxFrequency == 0)%Q -> getFrequencyColor frequency maxFrequency <> "#667eea".
Proof.
  intros Hnz. unfold getFrequencyColor.
  destruct (Qeq_bool maxFrequency 0) eqn:Hz; [by apply Qeq_bool_iff in Hz|].
  cbv zeta. repeat case_match; discriminate.
Qed.

Lemma getFrequencyColor_top (n : nat) : 1 <= n -> getFrequencyColor (num n) (num n) = "#ef4444".
Proof.
  intros Hn. unfold getFrequencyColor.
  assert (0 < num n)%Q as Hpos.
  { unfold num. change 0%Q with (inject_Z 0). rewrite <- Zlt_Qlt. lia. }
  destruct (Qeq_bool (num n) 0) eqn:Hz.
  { apply Qeq_bool_iff in Hz. rewrite Hz in Hpos. by apply Qlt_irrefl in Hpos. }
  cbv zeta.
  assert (num n / num n == 1)%Q as Hone by (field; lra).
  rewrite !Qle_bool_false; [done|rewrite Hone..]; done.
Qed.

Lemma num_nonzero (n : nat) : 1 <= n -> ~ (num n == 0)%Q.
Proof.
  intros Hn Hz. unfold num in Hz. change 0%Q with (inject_Z 0) in Hz.
  rewrite inject_Z_injective in Hz. lia.
Qed.

Lemma countFrequencies_count (visualizations : list Viz) (code : string) :
  frequencyOf (countFrequencies visualizations) code = endpointsAt code visualizations.
Proof.
  unfold countFrequencies. rewrite countLoop_frequency.
  unfold frequencyOf. by rewrite lookup_empty.
Qed.

Lemma countFrequencies_seen (visualizations : list Viz) (v : Viz) (code : string) :
  v ∈ visualizations ->
  code = iataCode (fromAirport v) \/ code = iataCode (toAirport v) ->
  exists n, countFrequencies visualizations !! code = Some n /\ 1 <= n.
Proof.
  intros Hv Hcode. pose proof (countFrequencies_count visualizations code) as Hcount.
  unfold frequencyOf in Hcount.
  assert (1 <= endpointsAt code visualizations) as Hone.
  { apply list_elem_of_In in Hv.
    destruct Hcode as [->| ->].
    - assert (In v (List.filter (departsFrom (iataCode (fromAirport v))) visualizations))
        as Hin by (apply filter_In; split; [done | apply String.eqb_refl]).
      destruct (List.filter (departsFrom _) visualizations); [done | cbn [length]; lia].
    - assert (In v (List.filter (arrivesAt (iataCode (toAirport v))) visualizations))
        as Hin by (apply filter_In; split; [done | apply String.eqb_refl]).
      destruct (List.filter (arrivesAt _) visualizations); [done | cbn [length]; lia]. }
  destruct (countFrequencies visualizations !! code) as [n|]; cbn in Hcount; [|lia].
  exists n. split; [done | lia].
Qed.

Lemma endpoint_colour (visualizations : list Viz) (v : Viz) (code : string) :
  let airportFrequency := countFrequencies visualizations in
  v ∈ visualizations ->
  code = iataCode (fromAirport v) \/ code = iataCode (toAirport v) ->
  1 <= frequencyOf airportFrequency code /\
  frequencyOf airportFrequency code <= maxOf airportFrequency /\
  colorOf airportFrequency (maxOf airportFrequency) code <> "#667eea".
Proof.
  intros airportFrequency Hv Hcode.
  destruct (countFrequencies_seen visualizations v code Hv Hcode) as (n & Hn & Hone).
  fold airportFrequency in Hn. pose proof (maxOf_ge _ _ _ Hn) as Hle.
  unfold colorOf, frequencyOf. rewrite Hn. cbn [default].
  split; [done|]. split; [done|].
  apply getFrequencyColor_not_default, num_nonzero. lia.
Qed.

(** X18. The frequency table of [visualizeFlights] and the colours taken
    from it.  The frequency of a code is the number of flights departing
    from it plus the number arriving at it (a flight from an airport to
    itself counts twice); no entry exceeds the maximum.  For a non-empty
    data set the maximum is at least 1 and is the frequency of some airport,
    whose colour is red; every airport of a flight has a frequency of at
    least 1 and never gets the default colour reserved for a zero
    maximum. *)
Theorem X18_frequencies (visualizations : list Viz) :
  let airportFrequency := countFrequencies visualizations in
  let maxFrequency := maxOf airportFrequency in
  (forall code, frequencyOf airportFrequency code = endpointsAt code visualizations) /\
  (forall code n, airportFrequency !! code = Some n -> n <= maxFrequency) /\
  (visualizations <> [] ->
   1 <= maxFrequency /\
   exists code, airportFrequency !! code = Some maxFrequency /\
                colorOf airportFrequency maxFrequency code = "#ef4444") /\
  (forall v code,
      v ∈ visualizations ->
      code = iataCode (fromAirport v) \/ code = iataCode (toAirport v) ->
      1 <= frequencyOf airportFrequency code /\
      frequencyOf airportFrequency code <= maxFrequency /\
      colorOf airportFrequency maxFrequency code <> "#667eea").
Proof.
  intros airportFrequency maxFrequency.
  split; [apply countFrequencies_count|]. split; [intros code n; apply maxOf_ge|].
  split; [|intros v code; apply endpoint_colour].
  intros Hne. destruct visualizations as [|v vs]; [done|].
  destruct (countFrequencies_seen (v :: vs) v (iataCode (fromAirport v)))
    as (n & Hn & Hone); [set_solver|by left|].
  fold airportFrequency in Hn.
  pose proof (maxOf_ge _ _ _ Hn) as Hle. fold maxFrequency in Hle.
  split; [lia|].
  destruct (maxOf_attained airportFrequency) as [code Hcode];
    [intros Hempty; by rewrite Hempty, lookup_empty in Hn|].
  exists code. split; [done|].
  unfold colorOf, frequencyOf. rewrite Hcode. cbn [default].
  apply getFrequencyColor_top. fold maxFrequency. lia.
Qed.

End FrequencyFacts.

(* ===================================================================== *)
(** * Further properties: the airport markers of the static view          *)
(* ===================================================================== *)

Section MarkerFacts.
Import Js MapView.
Context {number : Type}.

Local Abbreviation Viz := (FlightVisualizationData number).
Local Abbreviation Table := (list (string * Airport number)).
Local Abbreviation isEndpoint code visualizations :=
  (exists v : Viz, v ∈ visualizations /\
                   (code = iataCode (fromAirport v) \/ code = iataCode (toAirport v))).

Lemma mapSet_keys {A} (k : string) (v : A) (m : list (string * A)) :
  (fst <$> mapSet k v m) = (fst <$> m) ++ (if bool_decide (k ∈ fst <$> m) then [] else [k]).
Proof.
  induction m as [|[k' v'] m IH]; [done|]. cbn [mapSet fmap list_fmap fst].
  destruct (String.eqb_spec k' k) as [->|Hne].
  - rewrite bool_decide_eq_true_2 by set_solver. cbn. by rewrite app_nil_r.
  - cbn [fmap list_fmap fst app]. change (list_fmap _ _ fst ?l) with (fst <$> l).
    rewrite IH. f_equal. f_equal.
    rewrite (bool_decide_ext (k ∈ k' :: (fst <$> m)) (k ∈ fst <$> m)); [done | set_solver].
Qed.

Lemma mapSet_entries {A} (k : string) (v : A) (m : list (string * A)) (k' : string) (v' : A) :
  (k', v') ∈ mapSet k v m -> (k' = k /\ v' = v) \/ (k', v') ∈ m.
Proof.
  induction m as [|[k0 v0] m IH]; cbn [mapSet].
  - intros ?%list_elem_of_singleton. left. by simplify_eq.
  - destruct (String.eqb k0 k).
    + intros [?|?]%elem_of_cons; [left; by simplify_eq | right; set_solver].
    + intros [?|?]%elem_of_cons; [right; set_solver|].
      destruct IH as [?|?]; [done | by left | right; set_solver].
Qed.

(** What the table that collects the airports satisfies at every step. *)
Local Abbreviation wellKeyed table :=
  (NoDup (fst <$> table) /\
   forall k (a : Airport number), (k, a) ∈ table -> iataCode a = k).

Lemma mapSet_wellKeyed (a : Airport number) (table : Table) :
  wellKeyed table -> wellKeyed (mapSet (iataCode a) a table).
Proof.
  intros [Hnodup Hkeys]. split.
  - rewrite mapSet_keys. case_bool_decide; [by rewrite app_nil_r|].
    apply NoDup_app. split; [done|]. split; [set_solver | apply NoDup_singleton].
  - intros k a' [[-> ->]|Hold]%mapSet_entries; [done | by apply Hkeys].
Qed.

Lemma mapSet_length {A} (k : string) (v : A) (m : list (string * A)) :
  length (mapSet k v m) <= S (length m).
Proof.
  induction m as [|[k' v'] m IH]; cbn [mapSet length]; [lia|].
  destruct (String.eqb k' k); cbn [length]; lia.
Qed.

Lemma mapSet_key_elem {A} (k : string) (v : A) (m : list (string * A)) (k' : string) :
  k' ∈ (fst <$> mapSet k v m) <-> k' = k \/ k' ∈ (fst <$> m).
Proof.
  rewrite mapSet_keys, elem_of_app. case_bool_decide; set_solver.
Qed.

Lemma collectLoop_invariant (visualizations : list Viz) :
  forall table : Table,
    wellKeyed table ->
    let result := fold_left collectStep visualizations table in
    wellKeyed result /\
    (forall code, code ∈ (fst <$> result) <->
                  code ∈ (fst <$> table) \/ isEndpoint code visualizations) /\
    length result <= length table + 2 * length visualizations.
Proof.
  induction visualizations as [|v vs IH]; intros table Hwell; cbn [fold_left].
  - split; [done|]. split; [|cbn; lia]. intros code. split; [by left|].
    intros [?|(v & Hv & _)]; [done | by apply elem_of_nil in Hv].
  - assert (wellKeyed (collectStep table v)) as Hstep
      by (unfold collectStep; by do 2 apply mapSet_wellKeyed).
    destruct (IH _ Hstep) as (Hres & Hcodes & Hlen). split; [done|]. split.
    + intros code. rewrite Hcodes. unfold collectStep. rewrite !mapSet_key_elem.
      split.
      * intros [[->|[->|?]]|(u & Hu & Hcode)]; eauto; right.
        -- exists v. set_solver.
        -- exists v. set_solver.
        -- exists u. set_solver.
      * intros [?|(u & [->|Hu]%elem_of_cons & Hcode)]; [by eauto| |].
        -- destruct Hcode as [->| ->]; eauto.
        -- right. eauto.
    + assert (length (collectStep table v) <= 2 + length table) as Hstep2.
      { unfold collectStep.
        pose proof (mapSet_length (iataCode (fromAirport v)) (fromAirport v) table).
        pose proof (mapSet_length (iataCode (toAirport v)) (toAirport v)
                      (mapSet (iataCode (fromAirport v)) (fromAirport v) table)).
        lia. }
      cbn [length]. lia.
Qed.

(** X19. The airport markers of the static view.  No two markers carry
    the same airport code, and the codes shown are exactly the departure
    and arrival codes of the visualizations; there are at most two markers
    per flight.  The popup of every marker shows the frequency of its
    airport, which is at least 1 and at most the maximum, and no marker has
    the default colour. *)
Theorem X19_static_markers (visualizations : list Viz) :
  let shown := staticMarkers visualizations in
  let airportFrequency := countFrequencies visualizations in
  let codeOf (m : Marker) := iataCode (mk_airport m) in
  NoDup (codeOf <$> shown) /\
  (forall code, code ∈ (codeOf <$> shown) <-> isEndpoint code visualizations) /\
  length shown <= 2 * length visualizations /\
  (forall m, m ∈ shown ->
     mk_popup m = Some (frequencyOf airportFrequency (codeOf m)) /\
     1 <= frequencyOf airportFrequency (codeOf m) /\
     frequencyOf airportFrequency (codeOf m) <= maxOf airportFrequency /\
     mk_color m = colorOf airportFrequency (maxOf airportFrequency) (codeOf m) /\
     mk_color m <> "#667eea").
Proof.
  intros shown airportFrequency codeOf.
  destruct (collectLoop_invariant visualizations [])
    as ([Hnodup Hkeys] & Hcodes & Hlen); [split; [constructor | set_solver]|].
  fold (collectAirports visualizations) in Hnodup, Hkeys, Hcodes, Hlen.
  assert (codeOf <$> shown = fst <$> collectAirports visualizations) as Hshown.
  { unfold shown, staticMarkers. cbv zeta. rewrite <- list_fmap_compose.
    apply list_fmap_ext. intros i [k a] Hi%list_elem_of_lookup_2. cbn.
    by apply Hkeys. }
  assert (forall code, code ∈ (codeOf <$> shown) <-> isEndpoint code visualizations)
    as Hends.
  { intros code. rewrite Hshown, Hcodes. split; [|by right].
    intros [Hnil|?]; [by apply elem_of_nil in Hnil | done]. }
  split; [by rewrite Hshown|]. split; [exact Hends|].
  split; [unfold shown, staticMarkers; cbv zeta; rewrite length_fmap; cbn in Hlen; lia|].
  intros m Hm.
  assert (isEndpoint (codeOf m) visualizations) as (v & Hv & Hcode)
    by (apply Hends, list_elem_of_fmap; eauto).
  destruct (endpoint_colour visualizations v (codeOf m) Hv Hcode) as (Hone & Hmax & Hcol).
  unfold shown, staticMarkers in Hm. cbv zeta in Hm.
  apply list_elem_of_fmap in Hm as ([k a] & -> & _).
  unfold codeOf. cbn [staticMarker mk_popup mk_color mk_airport snd].
  unfold codeOf in Hone, Hmax, Hcol. cbn [staticMarker mk_airport snd] in Hone, Hmax, Hcol.
  done.
Qed.

End MarkerFacts.

(* ===================================================================== *)
(** * Further properties: one drawn route per route key                   *)
(* ===================================================================== *)

Section RouteKeyGroups.
Import Js MapView.
Context {number LatLng : Type}.
Variable geodesic : number * number -> number * number -> list LatLng.

Local Abbreviation Viz := (FlightVisualizationData number).
Local Abbreviation Group := (RouteGroup (number := number) (LatLng := LatLng)).
Local Abbreviation withKey k := (fun u : Viz => String.eqb (routeKey u) k).
Local Abbreviation groupWithKey k := (fun g : Group => String.eqb (routeKey (rg_viz g)) k).





End RouteKeyGroups.

(* ===================================================================== *)
(** * Further properties: the order of the playback                       *)
(* ===================================================================== *)

Section SortFacts.
Import MapView.
Context {number : Type}.

Local Abbreviation Viz := (FlightVisualizationData number).
Local Abbreviation earlier :=
  (fun a b : Viz => (departureTimestamp a <= departureTimestamp b)%Z).
Local Abbreviation departsAt t := (fun v : Viz => (departureTimestamp v =? t)%Z).

Lemma insertByDeparture_perm (v : Viz) (sorted : list Viz) :
  Permutation (insertByDeparture v sorted) (v :: sorted).
Proof.
  induction sorted as [|y rest IH]; cbn [insertByDeparture]; [done|].
  destruct (departureTimestamp v <=? departureTimestamp y)%Z; [done|].
  rewrite IH. apply perm_swap.
Qed.

Lemma insertByDeparture_sorted (v : Viz) (sorted : list Viz) :
  StronglySorted earlier sorted -> StronglySorted earlier (insertByDeparture v sorted).
Proof.
  induction 1 as [|y rest Hrest IH Hall]; cbn [insertByDeparture].
  - by repeat constructor.
  - destruct (Z.leb_spec (departureTimestamp v) (departureTimestamp y)) as [Hle|Hgt].
    + constructor; [by constructor|]. constructor; [done|].
      eapply Forall_impl; [exact Hall|]. cbn. intros; lia.
    + constructor; [done|].
      rewrite (insertByDeparture_perm v rest). constructor; [lia | done].
Qed.

Lemma insertByDeparture_stable (v : Viz) (sorted : list Viz) (t : Z) :
  List.filter (departsAt t) (insertByDeparture v sorted)
  = List.filter (departsAt t) (v :: sorted).
Proof.
  induction sorted as [|y rest IH]; cbn [insertByDeparture]; [done|].
  destruct (Z.leb_spec (departureTimestamp v) (departureTimestamp y)) as [Hle|Hgt]; [done|].
  cbn [List.filter] in *. rewrite IH.
  destruct (Z.eqb_spec (departureTimestamp v) t), (Z.eqb_spec (departureTimestamp y) t);
    try done; lia.
Qed.

(** X21. The order in which [startAnimation] plays the flights: the sorted
    list holds the same visualizations as the input, in non-decreasing order
    of departure time, and flights departing at the same instant keep their
    input order. *)
Theorem X21_playback_order (visualizations : list Viz) :
  let sortedFlights := sortByDeparture visualizations in
  Permutation sortedFlights visualizations /\
  StronglySorted earlier sortedFlights /\
  forall t, List.filter (departsAt t) sortedFlights
            = List.filter (departsAt t) visualizations.
Proof.
  induction visualizations as [|v vs (Hperm & Hsorted & Hstable)]; cbn zeta.
  - split; [done|]. split; [constructor | done].
  - unfold sortByDeparture. cbn [foldr]. fold (sortByDeparture vs).
    split; [by rewrite insertByDeparture_perm, Hperm|].
    split; [by apply insertByDeparture_sorted|].
    intros t. rewrite insertByDeparture_stable. cbn [List.filter]. by rewrite Hstable.
Qed.

End SortFacts.

(* ===================================================================== *)
(** * Further properties: a playback that is not interrupted              *)
(* ===================================================================== *)

Section PlaybackCompletion.
Import Js MapView.
Context {number LatLng : Type}.
Variable geodesic : number * number -> number * number -> list LatLng.
Variable visualizations : list (FlightVisualizationData number).

Local Abbreviation Viz := (FlightVisualizationData number).
Local Abbreviation Scene' := (Scene (number := number) (LatLng := LatLng)).
Local Abbreviation pb := (playbackOf visualizations).
Local Abbreviation timer := (tick geodesic visualizations).
Local Abbreviation segAt' := (segmentAt (number := number) (LatLng := LatLng)).

Lemma timer_finished (k : nat) (sc : Scene') :
  Nat.iter k timer (Finished, sc) = (Finished, sc).
Proof. induction k as [|k IH]; [done|]. by rewrite Nat.iter_succ, IH. Qed.

(** The segment loop scans for the next segment that can be drawn. *)
Lemma segmentLoop_scan (pathPoints : list LatLng) (fromColor toColor : string) (n : nat) :
  forall (a : nat) (sc : Scene'),
    animationAborted sc = false ->
    match segmentLoop pathPoints fromColor toColor (seq a n) sc with
    | (sc', Some j) =>
        exists seg,
          a <= j < a + n /\
          omap (segAt' pathPoints fromColor toColor) (seq a n)
          = seg :: omap (segAt' pathPoints fromColor toColor) (seq (S j) (a + n - S j)) /\
          sc' = drawAnimatedSegment seg sc
    | (sc', None) =>
        omap (segAt' pathPoints fromColor toColor) (seq a n) = [] /\
        sc' = removePlaneMarker sc
    end.
Proof.
  induction n as [|n IH]; intros a sc Hrun; cbn [seq segmentLoop]; [done|].
  rewrite Hrun, omap_cons_eq.
  destruct (segAt' pathPoints fromColor toColor a) as [seg|] eqn:Hseg.
  - exists seg. split; [lia|]. split; [|done].
    by replace (a + S n - S a) with n by lia.
  - specialize (IH (S a) sc Hrun).
    destruct (segmentLoop pathPoints fromColor toColor (seq (S a) n) sc) as [sc' [j|]].
    + destruct IH as (seg & Hj & Homap & ->). exists seg. split; [lia|]. split; [|done].
      by replace (a + S n - S j) with (S a + n - S j) by lia.
    + done.
Qed.

Lemma showAirport_flag (airport : Airport number) (color : string)
      (shown : gset string) (sc : Scene') :
  animationAborted (snd (showAirport airport color shown sc)) = animationAborted sc.
Proof. unfold showAirport. by case_bool_decide. Qed.

Lemma showAirport_lines (airport : Airport number) (color : string)
      (shown : gset string) (sc : Scene') :
  flightLines (snd (showAirport airport color shown sc)) = flightLines sc /\
  planeMarker (snd (showAirport airport color shown sc)) = planeMarker sc.
Proof. unfold showAirport. by case_bool_decide. Qed.

(** From the sleep after segment [i] of a flight to the end of that
    flight: one timer expiry per segment still to draw, and one more. *)
Lemma run_rest_of_flight (viz : Viz) (rest : list Viz) (shown : gset string) (n : nat) :
  forall (i : nat) (sc : Scene'),
    S i + n = 10 ->
    animationAborted sc = false ->
    let later := omap (segAt' (pathOf geodesic viz) (fromColorOf pb viz) (toColorOf pb viz))
                      (seq (S i) n) in
    let after := showAirport (toAirport viz) (toColorOf pb viz) shown
                   (mkScene (markers sc) (flightLines sc ++ later) None false) in
    Nat.iter (S (length later)) timer (Sleeping (mkFrame viz i rest shown), sc)
    = flightLoop geodesic pb rest (fst after) (snd after).
Proof.
  induction n as [n IH] using lt_wf_ind. intros i sc Hi Hrun later after.
  rewrite Nat.iter_succ_r.
  change (timer (Sleeping (mkFrame viz i rest shown), sc))
    with (resume geodesic pb (mkFrame viz i rest shown) sc).
  unfold resume, continueFlightRoute. cbn [fr_viz fr_segment fr_rest fr_shownAirports].
  replace (numSegments - S i) with n by (unfold numSegments; lia).
  pose proof (segmentLoop_scan (pathOf geodesic viz) (fromColorOf pb viz)
                (toColorOf pb viz) n (S i) sc Hrun) as Hscan.
  destruct (segmentLoop _ _ _ (seq (S i) n) sc) as [sc' [j|]].
  - destruct Hscan as (seg & Hj & Homap & ->).
    subst after later. rewrite Homap. cbn [length].
    rewrite (IH (S i + n - S j)) by (done || lia).
    cbn [drawAnimatedSegment markers flightLines]. by rewrite <- app_assoc.
  - destruct Hscan as [Homap ->]. subst after later. rewrite Homap.
    cbn [length]. rewrite app_nil_r.
    unfold removePlaneMarker. rewrite Hrun.
    change (Nat.iter 0 timer ?x) with x.
    by destruct (showAirport _ _ _ _).
Qed.

(** The flight loop, left to run, plays every flight to its end. *)
Lemma run_flights (flights : list Viz) :
  forall (shown : gset string) (sc : Scene'),
    animationAborted sc = false ->
    Nat.iter (length (flat_map (segmentsOf geodesic pb) flights)) timer
             (flightLoop geodesic pb flights shown sc)
    = (Finished, snd (playedThrough geodesic pb flights (shown, sc))).
Proof.
  induction flights as [|viz rest IH]; intros shown sc Hrun; [done|].
  cbn [flat_map flightLoop playedThrough fold_left]. rewrite Hrun.
  unfold flightDone at 2. cbn [fst snd].
  pose proof (showAirport_flag (fromAirport viz) (fromColorOf pb viz) shown sc) as Hflag.
  destruct (showAirport (fromAirport viz) (fromColorOf pb viz) shown sc)
    as [shown1 sc1]. cbn [snd] in Hflag. rewrite Hrun in Hflag.
  unfold animateFlightRoute. rewrite Hflag.
  pose proof (segmentLoop_scan (pathOf geodesic viz) (fromColorOf pb viz)
                (toColorOf pb viz) numSegments 0 sc1 Hflag) as Hscan.
  unfold segmentsOf at 1. unfold routeSegments.
  fold (pathOf geodesic viz).
  destruct (segmentLoop _ _ _ (seq 0 numSegments) sc1) as [sc2 [j|]].
  - destruct Hscan as (seg & Hj & Homap & ->).
    rewrite length_app, Nat.add_comm, Nat.iter_add.
    unfold segmentsOf, routeSegments. fold (pathOf geodesic viz).
    rewrite Homap. cbn [length].
    rewrite (run_rest_of_flight viz rest shown1 (0 + numSegments - S j));
      [|unfold numSegments in *; lia | done].
    cbn [drawAnimatedSegment markers flightLines]. rewrite <- app_assoc. cbn [app].
    pose proof (showAirport_flag (toAirport viz) (toColorOf pb viz) shown1
                  (mkScene (markers sc1)
                     (flightLines sc1 ++
                      seg :: omap (segAt' (pathOf geodesic viz) (fromColorOf pb viz)
                                          (toColorOf pb viz))
                                  (seq (S j) (0 + numSegments - S j)))
                     None false)) as Hflag2.
    destruct (showAirport (toAirport viz) _ shown1 _) as [shown2 sc3].
    apply IH. exact Hflag2.
  - destruct Hscan as [Homap ->].
    unfold segmentsOf, routeSegments. fold (pathOf geodesic viz).
    rewrite Homap, app_nil_r. cbn [app].
    unfold removePlaneMarker. rewrite Hflag.
    pose proof (showAirport_flag (toAirport viz) (toColorOf pb viz) shown1
                  (mkScene (markers sc1) (flightLines sc1) None false)) as Hflag2.
    destruct (showAirport (toAirport viz) _ shown1 _) as [shown2 sc3].
    apply IH. exact Hflag2.
Qed.

(** Until the last segment of a flight has had its sleep, the playback is
    suspended. *)
Lemma sleeping_rest_of_flight (viz : Viz) (rest : list Viz) (shown : gset string) (n : nat) :
  forall (i : nat) (sc : Scene') (k : nat),
    S i + n = 10 ->
    animationAborted sc = false ->
    k <= length (omap (segAt' (pathOf geodesic viz) (fromColorOf pb viz) (toColorOf pb viz))
                      (seq (S i) n)) ->
    exists fr sc', Nat.iter k timer (Sleeping (mkFrame viz i rest shown), sc)
                   = (Sleeping fr, sc').
Proof.
  induction n as [n IH] using lt_wf_ind. intros i sc k Hi Hrun Hk.
  destruct k as [|k]; [by eauto|].
  rewrite Nat.iter_succ_r.
  change (timer (Sleeping (mkFrame viz i rest shown), sc))
    with (resume geodesic pb (mkFrame viz i rest shown) sc).
  unfold resume, continueFlightRoute. cbn [fr_viz fr_segment fr_rest fr_shownAirports].
  replace (numSegments - S i) with n by (unfold numSegments; lia).
  pose proof (segmentLoop_scan (pathOf geodesic viz) (fromColorOf pb viz)
                (toColorOf pb viz) n (S i) sc Hrun) as Hscan.
  destruct (segmentLoop _ _ _ (seq (S i) n) sc) as [sc' [j|]].
  - destruct Hscan as (seg & Hj & Homap & ->). rewrite Homap in Hk. cbn [length] in Hk.
    apply (IH (S i + n - S j)); [lia | lia | done | lia].
  - destruct Hscan as [Homap _]. rewrite Homap in Hk. cbn [length] in Hk. lia.
Qed.

(** While segments remain to be drawn, the flight loop is suspended. *)
Lemma sleeping_flights (flights : list Viz) :
  forall (shown : gset string) (sc : Scene') (k : nat),
    animationAborted sc = false ->
    k < length (flat_map (segmentsOf geodesic pb) flights) ->
    exists fr sc', Nat.iter k timer (flightLoop geodesic pb flights shown sc)
                   = (Sleeping fr, sc').
Proof.
  induction flights as [|viz rest IH]; intros shown sc k Hrun Hk; [cbn in Hk; lia|].
  cbn [flat_map flightLoop] in *. rewrite Hrun.
  pose proof (showAirport_flag (fromAirport viz) (fromColorOf pb viz) shown sc) as Hflag.
  destruct (showAirport (fromAirport viz) (fromColorOf pb viz) shown sc)
    as [shown1 sc1]. cbn [snd] in Hflag. rewrite Hrun in Hflag.
  unfold animateFlightRoute. rewrite Hflag.
  pose proof (segmentLoop_scan (pathOf geodesic viz) (fromColorOf pb viz)
                (toColorOf pb viz) numSegments 0 sc1 Hflag) as Hscan.
  rewrite length_app in Hk. unfold segmentsOf at 1 in Hk. unfold routeSegments in Hk.
  fold (pathOf geodesic viz) in Hk.
  destruct (segmentLoop _ _ _ (seq 0 numSegments) sc1) as [sc2 [j|]].
  - destruct Hscan as (seg & Hj & Homap & ->). rewrite Homap in Hk. cbn [length] in Hk.
    destruct (Nat.le_gt_cases k
                (length (omap (segAt' (pathOf geodesic viz) (fromColorOf pb viz)
                                      (toColorOf pb viz))
                              (seq (S j) (0 + numSegments - S j))))) as [Hin|Hout].
    + apply (sleeping_rest_of_flight viz rest shown1 (0 + numSegments - S j));
        [unfold numSegments in *; lia | done | exact Hin].
    + replace k with
        ((k - S (length (omap (segAt' (pathOf geodesic viz) (fromColorOf pb viz)
                                      (toColorOf pb viz))
                              (seq (S j) (0 + numSegments - S j))))) +
         S (length (omap (segAt' (pathOf geodesic viz) (fromColorOf pb viz)
                                 (toColorOf pb viz))
                         (seq (S j) (0 + numSegments - S j))))) by lia.
      rewrite Nat.iter_add.
      rewrite (run_rest_of_flight viz rest shown1 (0 + numSegments - S j));
        [|unfold numSegments in *; lia | done].
      cbn [drawAnimatedSegment markers flightLines].
      pose proof (showAirport_flag (toAirport viz) (toColorOf pb viz) shown1
                    (mkScene (markers sc1)
                       ((flightLines sc1 ++ [seg]) ++
                        omap (segAt' (pathOf geodesic viz) (fromColorOf pb viz)
                                     (toColorOf pb viz))
                             (seq (S j) (0 + numSegments - S j)))
                       None false)) as Hflag2.
      destruct (showAirport (toAirport viz) _ shown1 _) as [shown2 sc3].
      apply IH; [exact Hflag2 | lia].
  - destruct Hscan as [Homap ->]. rewrite Homap in Hk. cbn [length] in Hk.
    unfold removePlaneMarker. rewrite Hflag.
    pose proof (showAirport_flag (toAirport viz) (toColorOf pb viz) shown1
                  (mkScene (markers sc1) (flightLines sc1) None false)) as Hflag2.
    destruct (showAirport (toAirport viz) _ shown1 _) as [shown2 sc3].
    apply IH; [exact Hflag2 | lia].
Qed.

Local Abbreviation codeOf := (fun m : Marker (number := number) => iataCode (mk_airport m)).
Local Abbreviation paint code := (colorOf (pb_airportFrequency pb) (pb_maxFrequency pb) code).
Local Abbreviation isEndpointOf code flights :=
  (exists v : Viz, v ∈ flights /\
                   (code = iataCode (fromAirport v) \/ code = iataCode (toAirport v))).

(** The markers of the scene are those of the airports shown so far, one
    each, without popup and in the colour of their frequency. *)
Local Abbreviation tracked shown sc :=
  (NoDup (codeOf <$> markers sc) /\
   (forall code, code ∈ (codeOf <$> markers sc) <-> code ∈ shown) /\
   (forall m, m ∈ markers sc -> mk_popup m = None /\ mk_color m = paint (codeOf m))).

Lemma showAirport_tracked (airport : Airport number) (shown : gset string) (sc : Scene') :
  tracked shown sc ->
  let after := showAirport airport (paint (iataCode airport)) shown sc in
  tracked (fst after) (snd after) /\
  (forall code, code ∈ fst after <-> code = iataCode airport \/ code ∈ shown).
Proof.
  intros (Hnodup & Hcodes & Hmarkers). unfold showAirport.
  case_bool_decide as Hshown; cbn [fst snd highlightAirportMarker addAirportMarker markers].
  - split; [done|]. set_solver.
  - split; [|set_solver]. rewrite fmap_app. cbn [fmap list_fmap mk_airport].
    split; [|split].
    + apply NoDup_app. split; [done|]. split; [|apply NoDup_singleton].
      intros code Hcode ->%list_elem_of_singleton. by apply Hshown, Hcodes.
    + intros code. rewrite elem_of_app, Hcodes. set_solver.
    + intros m [Hm| ->%list_elem_of_singleton]%elem_of_app; [by apply Hmarkers | done].
Qed.

Lemma flightDone_tracked (st : gset string * Scene') (viz : Viz) :
  tracked (fst st) (snd st) ->
  let after := flightDone geodesic pb st viz in
  tracked (fst after) (snd after) /\
  (forall code, code ∈ fst after <->
                code = iataCode (fromAirport viz) \/ code = iataCode (toAirport viz) \/
                code ∈ fst st) /\
  flightLines (snd after) = flightLines (snd st) ++ segmentsOf geodesic pb viz /\
  planeMarker (snd after) = None /\
  animationAborted (snd after) = animationAborted (snd st).
Proof.
  intros Hst. unfold flightDone.
  destruct (showAirport_tracked (fromAirport viz) (fst st) (snd st) Hst)
    as [Htracked1 Hshown1].
  pose proof (showAirport_flag (fromAirport viz) (paint (iataCode (fromAirport viz)))
                (fst st) (snd st)) as Hflag1.
  pose proof (showAirport_lines (fromAirport viz) (paint (iataCode (fromAirport viz)))
                (fst st) (snd st)) as [Hlines1 _].
  unfold fromColorOf.
  destruct (showAirport (fromAirport viz) _ (fst st) (snd st)) as [shown1 sc1].
  cbn [fst snd] in *.
  set (sc2 := mkScene (markers sc1) (flightLines sc1 ++ segmentsOf geodesic pb viz)
                      None (animationAborted sc1)).
  destruct (showAirport_tracked (toAirport viz) shown1 sc2 Htracked1)
    as [Htracked2 Hshown2].
  pose proof (showAirport_flag (toAirport viz) (paint (iataCode (toAirport viz)))
                shown1 sc2) as Hflag2.
  pose proof (showAirport_lines (toAirport viz) (paint (iataCode (toAirport viz)))
                shown1 sc2) as [Hlines2 Hplane2].
  unfold toColorOf.
  destruct (showAirport (toAirport viz) _ shown1 sc2) as [shown2 sc3].
  cbn [fst snd] in *. split; [done|]. split.
  { intros code. rewrite Hshown2, Hshown1. tauto. }
  rewrite Hlines2, Hplane2, Hflag2. unfold sc2.
  cbn [flightLines planeMarker animationAborted]. by rewrite Hlines1, Hflag1.
Qed.

Lemma playedThrough_tracked (flights : list Viz) :
  forall st : gset string * Scene',
    tracked (fst st) (snd st) ->
    planeMarker (snd st) = None ->
    let after := playedThrough geodesic pb flights st in
    tracked (fst after) (snd after) /\
    (forall code, code ∈ fst after <-> code ∈ fst st \/ isEndpointOf code flights) /\
    flightLines (snd after)
    = flightLines (snd st) ++ flat_map (segmentsOf geodesic pb) flights /\
    planeMarker (snd after) = None /\
    animationAborted (snd after) = animationAborted (snd st).
Proof.
  induction flights as [|viz rest IH]; intros st Hst Hplane after; subst after;
    [cbn [playedThrough fold_left flat_map]
    |change (playedThrough geodesic pb (viz :: rest) st)
       with (playedThrough geodesic pb rest (flightDone geodesic pb st viz));
     cbn [flat_map]].
  - split; [done|]. split; [|by rewrite app_nil_r].
    intros code. split; [by left|].
    intros [?|(v & Hv & _)]; [done | by apply elem_of_nil in Hv].
  - destruct (flightDone_tracked st viz Hst) as (Hst1 & Hshown1 & Hlines1 & Hplane1 & Hflag1).
    destruct (IH _ Hst1 Hplane1) as (Hafter & Hshown & Hlines & Hplane2 & Hflag).
    split; [done|]. split; [|split; [|split]].
    + intros code. rewrite Hshown, Hshown1. split.
      * intros [[?|[?|?]]|(u & Hu & Hcode)]; eauto; right.
        -- exists viz. set_solver.
        -- exists viz. set_solver.
        -- exists u. set_solver.
      * intros [?|(u & [->|Hu]%elem_of_cons & Hcode)]; [by eauto| |].
        -- destruct Hcode as [->| ->]; eauto.
        -- right. eauto.
    + by rewrite Hlines, Hlines1, app_assoc.
    + done.
    + by rewrite Hflag, Hflag1.
Qed.

Lemma sortByDeparture_perm (l : list Viz) : Permutation (sortByDeparture l) l.
Proof.
  induction l as [|v vs IH]; [done|].
  unfold sortByDeparture. cbn [foldr]. fold (sortByDeparture vs).
  by rewrite insertByDeparture_perm, IH.
Qed.

Lemma segmentsOf_length (flights : list Viz) :
  length (flat_map (segmentsOf geodesic pb) flights) <= 10 * length flights.
Proof.
  induction flights as [|v vs IH]; cbn [flat_map length]; [lia|].
  rewrite length_app.
  assert (length (segmentsOf geodesic pb v) <= 10) as Hten.
  { unfold segmentsOf, routeSegments. etrans; [apply omap_length_le|].
    by rewrite length_seq. }
  lia.
Qed.

(** X22. A playback that is not interrupted.  Started on a fresh map, it
    needs exactly one timer expiry per drawn segment, at most ten per
    flight: before that many expiries it is still suspended in a sleep,
    after that many, and after any larger number, it has finished.  In
    the final scene the plane is gone, the lines are the segments of every
    flight in the order of departure, one set per flight even when several
    flights share a route, and there is exactly one marker for each
    departure or arrival code of the data set, without popup and in the
    colour of its frequency. *)
Theorem X22_playback_completes :
  let sortedFlights := sortByDeparture visualizations in
  let drawn := flat_map (segmentsOf geodesic pb) sortedFlights in
  length drawn <= 10 * length visualizations /\
  (forall k, k < length drawn ->
     exists fr, fst (playFor geodesic visualizations k) = Sleeping fr) /\
  forall k, length drawn <= k ->
    let final := playFor geodesic visualizations k in
    fst final = Finished /\
    animationAborted (snd final) = false /\
    planeMarker (snd final) = None /\
    flightLines (snd final) = drawn /\
    NoDup (codeOf <$> markers (snd final)) /\
    (forall code, code ∈ (codeOf <$> markers (snd final)) <->
                  isEndpointOf code visualizations) /\
    (forall m, m ∈ markers (snd final) ->
       mk_popup m = None /\ mk_color m = paint (codeOf m)).
Proof.
  intros sortedFlights drawn. split.
  { unfold drawn. etrans; [apply segmentsOf_length|].
    unfold sortedFlights. by rewrite (Permutation_length (sortByDeparture_perm _)). }
  set (start := mkScene (number := number) (LatLng := LatLng) [] [] None false).
  split.
  { intros k Hk. unfold playFor.
    change (startAnimation geodesic visualizations emptyScene)
      with (flightLoop geodesic pb sortedFlights ∅ start).
    destruct (sleeping_flights sortedFlights ∅ start k) as (fr & sc' & Hstate);
      [done | exact Hk |].
    exists fr. by rewrite Hstate. }
  intros k Hk final.
  assert (final = (Finished, snd (playedThrough geodesic pb sortedFlights (∅, start))))
    as ->.
  { unfold final, playFor. replace k with ((k - length drawn) + length drawn) by lia.
    rewrite Nat.iter_add.
    change (startAnimation geodesic visualizations emptyScene)
      with (flightLoop geodesic pb sortedFlights ∅ start).
    unfold drawn. rewrite run_flights by done. apply timer_finished. }
  destruct (playedThrough_tracked sortedFlights (∅, start))
    as ((Hnodup & Hcodes & Hmarkers) & Hshown & Hlines & Hplane & Hflag).
  { cbn. split; [constructor|]. split; [set_solver|]. by intros m ?%elem_of_nil. }
  { done. }
  cbn [fst snd] in *. split; [done|]. split; [done|]. split; [done|].
  split; [done|]. split; [done|]. split; [|done].
  intros code. rewrite Hcodes, Hshown. split.
  - intros [Hempty|(v & Hv & Hcode)]; [set_solver|].
    exists v. split; [|done]. unfold sortedFlights in Hv.
    by rewrite (sortByDeparture_perm visualizations) in Hv.
  - intros (v & Hv & Hcode). right. exists v. split; [|done].
    unfold sortedFlights. by rewrite (sortByDeparture_perm visualizations).
Qed.

End PlaybackCompletion.

(* ===================================================================== *)
(** * Further properties: start-up without an airports file               *)
(* ===================================================================== *)

Section StartupFacts.
Import Js FlightDataParser AirportsParser Builder.
Context {number : Type}.
Variable parseFloat : string -> option number.
Variable Date : string -> option instant.

Lemma getAirportByCode_empty (code : string) (replacements : gmap string string) :
  getAirportByCode code (∅ : gmap string (Airport number)) replacements = None.
Proof.
  unfold getAirportByCode. cbv zeta. rewrite lookup_empty.
  destruct (replacements !! code); by rewrite ?lookup_empty.
Qed.

Lemma build_without_airports (flights : list Flight) (replacements : gmap string string) :
  let r := buildFlightVisualizations (number := number) flights ∅ replacements in
  visualizations r = [] /\ vizErrors r = departureError <$> flights /\
  unresolvedAirports r = list_to_set (departureAirport <$> flights).
Proof.
  unfold buildFlightVisualizations. cbn [visualizations vizErrors unresolvedAirports].
  rewrite buildLoop_visualizations, buildLoop_errors, buildLoop_unresolved.
  cbn [b_visualizations b_errors b_unresolvedAirports app].
  split; [|split].
  - apply omap_all_None. intros f _. unfold visualizationOf, lookupCode.
    by rewrite getAirportByCode_empty.
  - apply omap_fmap_Some. intros f _. unfold errorOf, lookupCode.
    by rewrite getAirportByCode_empty.
  - rewrite (omap_fmap_Some _ departureAirport); [set_solver|].
    intros f _. unfold unresolvedOf, lookupCode. by rewrite getAirportByCode_empty.
Qed.

(** X23. When the airports file cannot be loaded, [loadAirports] yields an
    empty table and the application still accepts an upload: whatever the
    replacement table holds, no flight is visualized, every parsed flight
    is reported with the error of its departure airport after the parser's
    own errors, [successfulRows] is 0 and [failedRows] is the number of data
    rows, and the departure codes are the unresolved airports. *)
Theorem X23_upload_without_airports
        (replacementsResponse : option string) (text : string)
        (st : App.AppState number) :
  let st1 := App.onMounted parseFloat None replacementsResponse st in
  let st2 := App.handleFileUpload Date (App.TextRead text) st1 in
  let csv := parseFlightsCsv Date text in
  App.st_airportsMap st1 = ∅ /\
  App.st_codeReplacements st1 = loadAirportCodeReplacements replacementsResponse /\
  App.st_flights st2 = flights csv /\
  App.st_flightVisualizations st2 = [] /\
  App.st_filteredVisualizations st2 = [] /\
  App.st_parseResult st2
  = Some (mkParseResult (flights csv)
                        (errors csv ++ (departureError <$> flights csv))
                        (totalRows csv) 0 (totalRows csv)) /\
  unresolvedAirports
    (buildFlightVisualizations (flights csv) (App.st_airportsMap st1)
                               (App.st_codeReplacements st1))
  = list_to_set (departureAirport <$> flights csv).
Proof.
  intros st1 st2 csv.
  destruct (build_without_airports (flights csv)
              (loadAirportCodeReplacements replacementsResponse))
    as (Hviz & Herr & Hunres). cbv zeta in Hviz, Herr, Hunres.
  destruct (parseFlightsCsv_counts Date text) as [Hflights Hcounts].
  cbv zeta in Hflights, Hcounts. fold csv in Hflights, Hcounts.
  split; [done|]. split; [done|]. split; [done|].
  unfold st2, App.handleFileUpload. cbv zeta.
  cbn [App.st_flightVisualizations App.st_filteredVisualizations App.st_parseResult
       App.st_airportsMap App.st_codeReplacements st1 App.onMounted
       loadAirportsWithReplacements loadAirports fst snd].
  fold csv. rewrite Hviz, Herr. cbn [length].
  split; [done|]. split; [done|]. split; [|exact Hunres].
  do 2 f_equal. lia.
Qed.

End StartupFacts.

(* ===================================================================== *)
(** * Further sample runs                                                 *)
(* ===================================================================== *)

Section FurtherSampleRuns.
Import Js FlightDataParser AirportsParser Builder MapView Platform Examples.

Lemma X1_parseCsvLine_unquoted_witness :
  parseCsvLine "Finnair, AY123 ,HEL,,JFK" = ["Finnair"; "AY123"; "HEL"; ""; "JFK"].
Proof.
  rewrite (X1_parseCsvLine_unquoted "Finnair, AY123 ,HEL,,JFK"); vm_compute; reflexivity.
Defined.

Lemma X4_parseTimestamp_dotted_layout_witness :
  parseTimestamp DateUTC "28.07.2019 20:20:00" = Some 1564345200000%Z.
Proof.
  etrans.
  - exact (X4_parseTimestamp_dotted_layout DateUTC "28" "07" "2019" "20:20:00"
             eq_refl eq_refl eq_refl eq_refl ltac:(discriminate)).
  - vm_compute. reflexivity.
Defined.

Lemma X5_one_outcome_per_row_witness :
  let r := parseFlightsCsv DateUTC flightsCsv in
  length (errors r) = failedRows r /\ failedRows r = 2 /\
  exists body, errors r !! 1 = Some ("Row 4: " +:+ body).
Proof.
  destruct (X5_one_outcome_per_row DateUTC flightsCsv flightsHeader
              (tail (csvLines flightsCsv)))
    as (_ & _ & Hlen & _ & Hrows); [vm_compute; reflexivity..|].
  split; [exact Hlen|]. split; [vm_compute; reflexivity|].
  vm_compute. eexists. reflexivity.
Defined.

Lemma X6_flights_have_all_fields_witness :
  exists f, f ∈ flights (parseFlightsCsv DateUTC flightsCsv) /\ flightCode f <> "".
Proof.
  destruct (flights (parseFlightsCsv DateUTC flightsCsv)) as [|f fs] eqn:Hflights;
    [by vm_compute in Hflights|].
  exists f. split; [by left|].
  assert (f ∈ flights (parseFlightsCsv DateUTC flightsCsv)) as Hin
    by (rewrite Hflights; by left).
  pose proof (X6_flights_have_all_fields DateUTC flightsCsv f Hin) as Hall.
  apply Forall_cons in Hall as [_ Hall]. apply Forall_cons in Hall as [[Hcode _] _].
  exact Hcode.
Defined.

Lemma X7_header_case_insensitive_witness :
  parseHeaders "Airline, FLIGHT_CODE" = parseHeaders "airline,Flight_Code".
Proof.
  destruct (X7_header_case_insensitive "Airline, FLIGHT_CODE" "airline, flight_code")
    as [Hsame _]; [vm_compute; reflexivity|].
  rewrite Hsame. vm_compute. reflexivity.
Defined.

Lemma X11_airports_match_flight_codes_witness :
  exists v,
    v ∈ visualizations
          (buildFlightVisualizations [flightTo "HEM" "JFK" 0%Z]
             (parseAirportsCsv parseFloatDec airportsCsv) replacementTable) /\
    iataCode (fromAirport v) <> "" /\ iataCode (toAirport v) <> "".
Proof.
  destruct (visualizations
              (buildFlightVisualizations [flightTo "HEM" "JFK" 0%Z]
                 (parseAirportsCsv parseFloatDec airportsCsv) replacementTable))
    as [|v vs] eqn:Hviz; [by vm_compute in Hviz|].
  exists v. split; [by left|].
  destruct (X11_airports_match_flight_codes parseFloatDec airportsCsv replacementTable
              [flightTo "HEM" "JFK" 0%Z] v) as [[Hfrom _] [Hto _]];
    [rewrite Hviz; by left|].
  by split.
Defined.

Lemma stop_during_playback_witness :
  fst (stopAfter path51 [helJfk] 0) = Finished /\
  planeMarker (snd (stopAfter path51 [helJfk] 0)) = None /\
  length (markers (snd (stopAfter path51 [helJfk] 0))) = 3.
Proof.
  destruct (playFor path51 [helJfk] 0) as [[fr|] sc] eqn:Hplay;
    [|by vm_compute in Hplay].
  destruct (stop_during_playback path51 [helJfk] 0 fr sc Hplay)
    as (Hfinished & _ & Hplane & _).
  split; [exact Hfinished|]. split; [exact Hplane|]. vm_compute. reflexivity.
Defined.

(** An uninterrupted playback of the round trip needs twenty timer
    expiries, and draws the route once per flight where the static view
    draws it once. *)
Example round_trip_playback :
  fst (playFor path51 roundTrip 19) <> Finished /\
  fst (playFor path51 roundTrip 20) = Finished /\
  length (flightLines (snd (playFor path51 roundTrip 20))) = 20 /\
  length (flightLines (renderStatic path51 roundTrip)) = 10 /\
  (mk_airport <$> markers (snd (playFor path51 roundTrip 20))) = [HEL; JFK].
Proof. vm_compute. repeat split; done. Qed.

End FurtherSampleRuns.

(* ===================================================================== *)
(** * Further properties: line endings and blank lines                    *)
(* ===================================================================== *)

Section LineFacts.
Import Js FlightDataParser AirportsParser.
Context {number : Type}.
Variable parseFloat : string -> option number.
Variable Date : string -> option instant.

Local Abbreviation cr := (String "013"%char EmptyString).
Local Abbreviation tokens csvContent := (parseCsvLine <$> csvLines csvContent).

Lemma trimEnd_cr (s : string) : trimEnd (s +:+ cr) = trimEnd s.
Proof.
  induction s as [|c s IH]; [done|].
  change (String c s +:+ cr) with (String c (s +:+ cr)).
  cbn [trimEnd]. by rewrite IH.
Qed.

Lemma trim_cr (s : string) : trim (s +:+ cr) = trim s.
Proof.
  unfold trim. induction s as [|c s IH]; [done|].
  change (String c s +:+ cr) with (String c (s +:+ cr)). cbn [trimStart].
  destruct (isWhiteSpace c); [exact IH|].
  change (String c (s +:+ cr)) with (String c s +:+ cr). apply trimEnd_cr.
Qed.

Lemma parseCsvLine_loop_cr (line : string) :
  forall (result : list string) (current : string) (inQuotes : bool),
    parseCsvLine_loop (line +:+ cr) result current inQuotes
    = parseCsvLine_loop line result current inQuotes.
Proof.
  induction line as [|c line IH]; intros result current inQuotes.
  - change (EmptyString +:+ cr) with cr. cbn [parseCsvLine_loop].
    change (Ascii.eqb "013" dquote) with false.
    change (Ascii.eqb "013" ","%char) with false. cbn [andb].
    by rewrite trim_cr.
  - change (String c line +:+ cr) with (String c (line +:+ cr)).
    cbn [parseCsvLine_loop]. by rewrite !IH.
Qed.

(** A line and the same line with a carriage return at its end. *)
Local Abbreviation sameLine := (fun l' l : string => l' = l \/ l' = l +:+ cr).

Lemma sameLine_fields (l' l : string) :
  sameLine l' l -> parseCsvLine l' = parseCsvLine l /\ nonBlank l' = nonBlank l.
Proof.
  intros [->| ->]; [done|]. split.
  - apply parseCsvLine_loop_cr.
  - unfold nonBlank. by rewrite trim_cr.
Qed.

Lemma split_crlf (text : string) :
  Forall2 sameLine (split "010"%char (crlf text)) (split "010"%char text).
Proof.
  induction text as [|c text IH]; cbn [crlf split].
  - constructor; [by left | constructor].
  - destruct (Ascii.eqb c "010") eqn:Hc; cbn [split].
    + change (Ascii.eqb "013" "010") with false.
      change (Ascii.eqb "010" "010") with true. cbv iota.
      constructor; [by right | exact IH].
    + rewrite Hc. destruct IH as [|h' h t' t Hh Ht]; [repeat constructor; by left|].
      constructor; [|done]. destruct Hh as [->| ->]; [by left | by right].
Qed.

Lemma tokens_crlf (text : string) : tokens (crlf text) = tokens text.
Proof.
  unfold csvLines. induction (split_crlf text) as [|l' l ls' ls Hl _ IH]; [done|].
  apply sameLine_fields in Hl as [Hfields Hblank]. cbn [List.filter].
  rewrite Hblank. destruct (nonBlank l); [|exact IH].
  cbn [fmap list_fmap]. rewrite Hfields. f_equal. exact IH.
Qed.

(** The three readers see a text only through the fields of its non-blank
    lines. *)
Lemma rowLoop_tokens (ci : gmap string nat) (rows' rows : list string) :
  parseCsvLine <$> rows' = parseCsvLine <$> rows ->
  forall i st, rowLoop Date ci i rows' st = rowLoop Date ci i rows st.
Proof.
  revert rows. induction rows' as [|l' rows' IH]; intros [|l rows] Heq; try done.
  injection Heq as Hl Hrest. intros i st. cbn [rowLoop].
  rewrite (IH rows Hrest). f_equal. unfold rowStep, parseRow. by rewrite Hl.
Qed.

Lemma parseFlightsCsv_tokens (a b : string) :
  tokens a = tokens b -> parseFlightsCsv Date a = parseFlightsCsv Date b.
Proof.
  unfold parseFlightsCsv.
  destruct (csvLines a) as [|ha rowsA], (csvLines b) as [|hb rowsB]; try done.
  intros Heq. injection Heq as Hh Hrows. unfold parseHeaders. rewrite Hh.
  assert (length rowsA = length rowsB) as ->.
  { pose proof (f_equal length Hrows) as Hlen. by rewrite !length_fmap in Hlen. }
  by rewrite (rowLoop_tokens _ rowsA rowsB Hrows).
Qed.

Lemma airportLoop_tokens (ci : gmap string nat) (rows' rows : list string) :
  parseCsvLine <$> rows' = parseCsvLine <$> rows ->
  forall table : gmap string (Airport number),
    fold_left (airportStep parseFloat ci) rows' table
    = fold_left (airportStep parseFloat ci) rows table.
Proof.
  revert rows. induction rows' as [|l' rows' IH]; intros [|l rows] Heq; try done.
  injection Heq as Hl Hrest. intros table. cbn [fold_left].
  rewrite (IH rows Hrest). f_equal. unfold airportStep, parseAirportRow. by rewrite Hl.
Qed.

Lemma parseAirportsCsv_tokens (a b : string) :
  tokens a = tokens b -> parseAirportsCsv parseFloat a = parseAirportsCsv parseFloat b.
Proof.
  unfold parseAirportsCsv.
  destruct (csvLines a) as [|ha rowsA], (csvLines b) as [|hb rowsB]; try done.
  intros Heq. injection Heq as Hh Hrows. unfold parseHeaders. rewrite Hh.
  by apply airportLoop_tokens.
Qed.

Lemma replacementLoop_tokens (rows' rows : list string) :
  parseCsvLine <$> rows' = parseCsvLine <$> rows ->
  forall table : gmap string string,
    fold_left replacementStep rows' table = fold_left replacementStep rows table.
Proof.
  revert rows. induction rows' as [|l' rows' IH]; intros [|l rows] Heq; try done.
  injection Heq as Hl Hrest. intros table. cbn [fold_left].
  rewrite (IH rows Hrest). f_equal. unfold replacementStep. by rewrite Hl.
Qed.

Lemma loadAirportCodeReplacements_tokens (a b : string) :
  tokens a = tokens b ->
  loadAirportCodeReplacements (Some a) = loadAirportCodeReplacements (Some b).
Proof.
  unfold loadAirportCodeReplacements.
  destruct (csvLines a) as [|ha rowsA], (csvLines b) as [|hb rowsB]; try done.
  intros Heq. injection Heq as _ Hrows. cbn [tail]. by apply replacementLoop_tokens.
Qed.

(** X25. Windows line endings are harmless: a text in which every line
    feed is preceded by a carriage return gives the same parse result,
    errors and row numbers included, the same airport table and the same
    replacement table as the text with plain line feeds. *)
Theorem X25_crlf_line_endings (text : string) :
  parseFlightsCsv Date (crlf text) = parseFlightsCsv Date text /\
  parseAirportsCsv parseFloat (crlf text) = parseAirportsCsv parseFloat text /\
  loadAirportCodeReplacements (Some (crlf text)) = loadAirportCodeReplacements (Some text).
Proof.
  pose proof (tokens_crlf text) as Htokens.
  split; [by apply parseFlightsCsv_tokens|].
  split; [by apply parseAirportsCsv_tokens | by apply loadAirportCodeReplacements_tokens].
Qed.

Lemma split_app (sep : ascii) (a b : string) :
  split sep (a +:+ String sep b) = split sep a ++ split sep b.
Proof.
  induction a as [|c a IH].
  - change (EmptyString +:+ String sep b) with (String sep b).
    cbn [split]. by rewrite Ascii.eqb_refl.
  - change (String c a +:+ String sep b) with (String c (a +:+ String sep b)).
    cbn [split]. rewrite IH. destruct (Ascii.eqb c sep); [done|].
    pose proof (split_not_nil sep a). by destruct (split sep a).
Qed.

(** X26. Blank lines are ignored wherever they stand: inserting a line of
    white space between two lines of a text changes nothing in what the
    three readers return.  In particular the row numbers in the error
    messages of [parseFlightsCsv] count the non-blank lines, not the lines
    of the file. *)
Theorem X26_blank_lines_ignored (before blank after : string) :
  trim blank = "" -> includes "010"%char blank = false ->
  let withBlank := before +:+ lf +:+ blank +:+ lf +:+ after in
  let without := before +:+ lf +:+ after in
  csvLines withBlank = csvLines without /\
  parseFlightsCsv Date withBlank = parseFlightsCsv Date without /\
  parseAirportsCsv parseFloat withBlank = parseAirportsCsv parseFloat without /\
  loadAirportCodeReplacements (Some withBlank) = loadAirportCodeReplacements (Some without).
Proof.
  intros Hblank Hline withBlank without.
  assert (csvLines withBlank = csvLines without) as Hlines.
  { unfold withBlank, without, csvLines.
    change (lf +:+ blank +:+ lf +:+ after) with (String "010" (blank +:+ String "010" after)).
    change (lf +:+ after) with (String "010" after).
    rewrite !split_app, !List.filter_app. f_equal.
    rewrite (split_whole "010" blank Hline). cbn [List.filter app].
    unfold nonBlank at 1. by rewrite Hblank. }
  split; [exact Hlines|].
  split; [apply parseFlightsCsv_tokens; by rewrite Hlines|].
  split; [apply parseAirportsCsv_tokens; by rewrite Hlines|].
  apply loadAirportCodeReplacements_tokens. by rewrite Hlines.
Qed.

End LineFacts.

(* ===================================================================== *)
(** * Further properties: repeated column names                           *)
(* ===================================================================== *)

Section ColumnFacts.
Import Js FlightDataParser.

Lemma columnIndex_from_Some (headers : list string) (name : string) :
  forall (index : nat) (ci : gmap string nat) (i : nat),
    columnIndex_from index headers ci !! name = Some i ->
    (ci !! name = Some i /\ name ∉ headers) \/
    (index <= i /\ headers !! (i - index) = Some name /\
     forall j, i - index < j -> headers !! j <> Some name).
Proof.
  induction headers as [|h headers IH]; intros index ci i; cbn [columnIndex_from].
  - intros Hci. left. split; [done | apply not_elem_of_nil].
  - intros [[Hci Hrest]|(Hle & Hat & Hlast)]%IH.
    + rewrite lookup_insert in Hci. case_decide as Hh.
      * injection Hci as <-. subst h. right. split; [done|].
        rewrite Nat.sub_diag. split; [done|].
        intros [|j] Hj; [lia|]. cbn. intros Hfound. apply Hrest.
        by eapply list_elem_of_lookup_2.
      * left. split; [done|]. by apply not_elem_of_cons.
    + right. split; [lia|].
      replace (i - index) with (S (i - S index)) by lia. split; [done|].
      intros [|j] Hj; [lia|]. cbn. apply Hlast. lia.
Qed.

Lemma columnIndex_from_absent (headers : list string) (name : string) :
  forall (index : nat) (ci : gmap string nat),
    columnIndex_from index headers ci !! name = None <->
    (name ∉ headers) /\ ci !! name = None.
Proof.
  induction headers as [|h headers IH]; intros index ci; cbn [columnIndex_from].
  - rewrite elem_of_nil. tauto.
  - rewrite IH, not_elem_of_cons, lookup_insert_None. intuition congruence.
Qed.

(** X27. When a header repeats a column name, the last column of that name
    is the one that is read.  For each of the column names that the parsers
    look up: the index stored for the name is the position of its last
    occurrence among the header names, the name has no index exactly when
    it does not occur, and a field of a row is the trimmed value at that
    position. *)
Theorem X27_last_column_wins (headers : list string) (name : string) :
  name ∈ readColumns ->
  (mkColumnIndex headers !! name = None <-> name ∉ headers) /\
  (forall i, mkColumnIndex headers !! name = Some i ->
     headers !! i = Some name /\
     (forall j, i < j -> headers !! j <> Some name) /\
     forall values, field (mkColumnIndex headers) values name = trim <$> values !! i).
Proof.
  intros _. split.
  { unfold mkColumnIndex. rewrite columnIndex_from_absent, lookup_empty. tauto. }
  intros i Hi. pose proof Hi as Hfound. unfold mkColumnIndex in Hfound.
  apply columnIndex_from_Some in Hfound as [[Hempty _]|(_ & Hat & Hlast)];
    [by rewrite lookup_empty in Hempty|].
  rewrite Nat.sub_0_r in Hat, Hlast.
  split; [done|]. split; [done|].
  intros values. unfold field. rewrite Hi. by destruct (values !! i).
Qed.

End ColumnFacts.

Section LineSampleRuns.
Import Js FlightDataParser AirportsParser Platform Examples.

Lemma X26_blank_lines_ignored_witness :
  csvLines (flightsHeader +:+ lf +:+ "   " +:+ lf +:+ "Finnair,,HEL,JFK,x,y")
  = [flightsHeader; "Finnair,,HEL,JFK,x,y"] /\
  errors (parseFlightsCsv DateUTC
            (flightsHeader +:+ lf +:+ "   " +:+ lf +:+ "Finnair,,HEL,JFK,x,y"))
  = ["Row 2: Missing values for flight_code (empty or not provided)"].
Proof.
  destruct (X26_blank_lines_ignored parseFloatDec DateUTC flightsHeader "   "
              "Finnair,,HEL,JFK,x,y") as (Hlines & Hflights & _);
    [vm_compute; reflexivity..|].
  cbv zeta in Hlines, Hflights. rewrite Hlines, Hflights.
  split; vm_compute; reflexivity.
Defined.

Lemma X25_crlf_line_endings_witness :
  parseAirportsCsv parseFloatDec (crlf airportsCsv)
  = parseAirportsCsv parseFloatDec airportsCsv.
Proof. apply (X25_crlf_line_endings parseFloatDec DateUTC airportsCsv). Defined.

Lemma X27_last_column_wins_witness :
  field (mkColumnIndex (parseHeaders "iata_code,name,IATA_CODE"))
        ["HEL"; "Helsinki"; " EFHK "] "iata_code"
  = Some "EFHK".
Proof.
  destruct (X27_last_column_wins (parseHeaders "iata_code,name,IATA_CODE") "iata_code")
    as [_ Hlast]; [set_solver|].
  destruct (Hlast 2) as (_ & _ & Hfield); [vm_compute; reflexivity|].
  rewrite Hfield. vm_compute. reflexivity.
Defined.

Lemma X13_line_weight_witness :
  (MapView.getLineWeight exactPow14 4 == 2)%Q /\
  (MapView.getLineWeight exactPow14 12 == 8)%Q /\
  (1 < MapView.getLineWeight exactPow14 12)%Q.
Proof.
  destruct (X13_line_weight exactPow14 12) as (_ & _ & Hbase & _ & Hlow & Htop & _);
    [vm_compute; reflexivity | lia |].
  split; [exact Hbase|]. split; [apply Htop; lia | apply Hlow; lia].
Defined.

End LineSampleRuns.
